(** * EU AI Act compliance analyzer: classification cascade, score extraction,
      gaps and recommendations

    Shallow embedding of [src/analysis/compliance_analyzer.py]
    (class [ComplianceAnalyzer]) and of the parts of Python's [str] and [re]
    it calls.

    Text.  A Python [str] is modelled as a Rocq [string]: one character per
    one-byte code point (0..255).  [str.lower], [str.strip], [\s], [\w] and
    [\b] are the Unicode ones restricted to these code points.

    Numbers.  Scores are binary64 floats ([PrimFloat]), the representation of
    Python's [float]; the pre-check weights are unbounded integers ([Z]).

    Collaborators.  The oracle ([self.llm.invoke]), the retriever, the prompt
    source ([get_prompt]), [str.format] and [save_json] are parameters: a
    record of functions over an abstract world state, each free to raise.

    Around the analyzer.  The legacy classifier [_determine_system_type], the
    prompt cache of [src/analysis/classification_prompts.py] and the caller
    in [src/main.py] are embedded as well, each in a module of its own. *)

From Stdlib Require Import List String Ascii Bool Arith NArith ZArith Lia.
From Stdlib Require Import Floats Uint63.
Import ListNotations.

Set Warnings "-inexact-float".
Local Open Scope string_scope.

(* ===================================================================== *)
(** ** Characters and the [str] methods used by the analyzer              *)
(* ===================================================================== *)

Module PyStr.

Definition code (c : ascii) : N := N_of_ascii c.

Definition in_range (lo hi : N) (c : ascii) : bool :=
  ((lo <=? code c) && (code c <=? hi))%N.

Definition newline : ascii := ascii_of_N 10.

(** Code points with a lowercase partner 32 places up: A-Z, and the
    Latin-1 capitals U+00C0..U+00DE except the multiplication sign. *)
Definition is_upper (c : ascii) : bool :=
  in_range 65 90 c || (in_range 192 222 c && negb (code c =? 215)%N).

Definition lower_char (c : ascii) : ascii :=
  if is_upper c then ascii_of_N (code c + 32) else c.

(** Code points with an uppercase partner 32 places down. *)
Definition is_lower (c : ascii) : bool :=
  in_range 97 122 c || (in_range 224 254 c && negb (code c =? 247)%N).

Definition upper_char (c : ascii) : ascii :=
  if is_lower c then ascii_of_N (code c - 32) else c.

(** [str.isspace] on one code point: TAB..CR, FS..US, space, NEL, NBSP. *)
Definition is_space (c : ascii) : bool :=
  in_range 9 13 c || in_range 28 32 c || (code c =? 133)%N || (code c =? 160)%N.

Definition is_digit (c : ascii) : bool := in_range 48 57 c.

(** [\w]: alphanumeric ([str.isalnum]) or underscore. *)
Definition is_word (c : ascii) : bool :=
  is_digit c || in_range 65 90 c || in_range 97 122 c || (code c =? 95)%N
  || (code c =? 170)%N || (code c =? 181)%N || (code c =? 186)%N
  || in_range 178 179 c || (code c =? 185)%N || in_range 188 190 c
  || in_range 192 214 c || in_range 216 246 c || in_range 248 255 c.

Definition chars (s : string) : list ascii := list_ascii_of_string s.
Definition str (l : list ascii) : string := string_of_list_ascii l.

(** [s.lower()] *)
Definition lower (s : string) : string := str (map lower_char (chars s)).

Fixpoint lstrip (l : list ascii) : list ascii :=
  match l with
  | c :: l' => if is_space c then lstrip l' else l
  | [] => []
  end.

(** [s.strip()] *)
Definition strip (s : string) : string :=
  str (rev (lstrip (rev (lstrip (chars s))))).

(** [sep.join(parts)] *)
Fixpoint join (sep : string) (parts : list string) : string :=
  match parts with
  | [] => ""
  | [p] => p
  | p :: rest => p ++ sep ++ join sep rest
  end.

(** [s.replace(a, b)] for one-character [a] and [b]. *)
Definition replace_char (a b : ascii) (s : string) : string :=
  str (map (fun c => if Ascii.eqb c a then b else c) (chars s)).

Definition nl : string := String newline EmptyString.

End PyStr.

(* ===================================================================== *)
(** ** The fragment of Python's [re] used by the analyzer                 *)
(* ===================================================================== *)

Module Re.
Import PyStr.

(** *** Syntax *)

Inductive citem : Type :=
| IChar (c : ascii)
| IRange (lo hi : ascii)
| ISpace
| IDigit
| IWord.

Inductive atom : Type :=
| ADot
| ALit (c : ascii)
| ASet (neg : bool) (items : list citem).

Inductive regex : Type :=
| REmpty
| RAtom (a : atom)
| RRep (greedy least : bool) (a : atom)   (* a*  a+  a*?  a+? *)
| ROpt (greedy : bool) (r : regex)        (* r?  r?? *)
| RCat (r1 r2 : regex)
| RAlt (r1 r2 : regex)
| RGroup (n : nat) (r : regex)            (* capturing group number n *)
| RBol                                    (* ^ *)
| REol                                    (* $ *)
| RWordB                                  (* \b *)
| RAhead (r : regex)                      (* (?=r) *)
| RBehind (w : nat) (r : regex).          (* (?<=r), r of width w *)

Record flags : Type := { ignorecase : bool; dotall : bool }.

Definition NOFLAGS : flags := {| ignorecase := false; dotall := false |}.
Definition IGNORECASE : flags := {| ignorecase := true; dotall := false |}.
Definition DOTALL : flags := {| ignorecase := false; dotall := true |}.

(** *** Parsing a pattern string *)

Definition ch (s : string) : ascii :=
  match s with String c _ => c | EmptyString => Ascii.zero end.

Definition is_alnum_ascii (c : ascii) : bool :=
  is_digit c || in_range 65 90 c || in_range 97 122 c.

(** An escape [\c] as a class item; [None] where [re] has no such escape
    or the analyzer does not use it. *)
Definition escape_item (c : ascii) : option citem :=
  if Ascii.eqb c (ch "s") then Some ISpace
  else if Ascii.eqb c (ch "d") then Some IDigit
  else if Ascii.eqb c (ch "w") then Some IWord
  else if Ascii.eqb c (ch "n") then Some (IChar newline)
  else if is_alnum_ascii c then None
  else Some (IChar c).

(** The items of a character class, up to the closing bracket. *)
Fixpoint parse_items (fuel : nat) (s : list ascii)
  : option (list citem * list ascii) :=
  match fuel with
  | O => None
  | S fuel' =>
    match s with
    | [] => None
    | c :: s1 =>
      if Ascii.eqb c (ch "]") then Some ([], s1)
      else
        let first :=
          if Ascii.eqb c (ch "\") then
            match s1 with
            | e :: s2 =>
                match escape_item e with
                | Some i => Some (i, s2)
                | None => None
                end
            | [] => None
            end
          else Some (IChar c, s1) in
        match first with
        | None => None
        | Some (IChar lo, d :: hi :: s3) =>
            if Ascii.eqb d (ch "-") && negb (Ascii.eqb hi (ch "]"))
                 && negb (Ascii.eqb hi (ch "\"))
            then
              match parse_items fuel' s3 with
              | Some (items, rest) => Some (IRange lo hi :: items, rest)
              | None => None
              end
            else
              match parse_items fuel' (d :: hi :: s3) with
              | Some (items, rest) => Some (IChar lo :: items, rest)
              | None => None
              end
        | Some (i, s2) =>
            match parse_items fuel' s2 with
            | Some (items, rest) => Some (i :: items, rest)
            | None => None
            end
        end
    end
  end.

(** Width of a pattern every match of which has the same length. *)
Fixpoint width (r : regex) : option nat :=
  match r with
  | REmpty | RBol | REol | RWordB | RAhead _ | RBehind _ _ => Some 0
  | RAtom _ => Some 1
  | RRep _ _ _ | ROpt _ _ => None
  | RCat r1 r2 =>
      match width r1, width r2 with
      | Some a, Some b => Some (a + b)%nat
      | _, _ => None
      end
  | RAlt r1 r2 =>
      match width r1, width r2 with
      | Some a, Some b => if Nat.eqb a b then Some a else None
      | _, _ => None
      end
  | RGroup _ r1 => width r1
  end.

(** A quantifier after a parsed atom.  [*] and [+] are taken on one-character
    atoms only, which is how every pattern of the analyzer uses them. *)
Definition quantify (r : regex) (s : list ascii) : option (regex * list ascii) :=
  let lazy rest :=
    match rest with
    | q :: rest' => if Ascii.eqb q (ch "?") then (false, rest') else (true, rest)
    | [] => (true, rest)
    end in
  match s with
  | q :: rest =>
      if Ascii.eqb q (ch "*") || Ascii.eqb q (ch "+") then
        let '(g, rest') := lazy rest in
        match r with
        | RAtom a => Some (RRep g (Ascii.eqb q (ch "+")) a, rest')
        | _ => None
        end
      else if Ascii.eqb q (ch "?") then
        let '(g, rest') := lazy rest in Some (ROpt g r, rest')
      else if Ascii.eqb q (ch "{") then None
      else Some (r, s)
  | [] => Some (r, s)
  end.

Definition expect_close (s : list ascii) : option (list ascii) :=
  match s with
  | c :: rest => if Ascii.eqb c (ch ")") then Some rest else None
  | [] => None
  end.

(** Recursive descent: alternatives, sequences, atoms.  The third component
    is the number of the next capturing group. *)
Fixpoint parse_alt (fuel : nat) (s : list ascii) (n : nat)
  : option (regex * list ascii * nat) :=
  match fuel with
  | O => None
  | S fuel' =>
    match parse_seq fuel' s n with
    | Some (r1, c :: rest, n1) =>
        if Ascii.eqb c (ch "|") then
          match parse_alt fuel' rest n1 with
          | Some (r2, rest2, n2) => Some (RAlt r1 r2, rest2, n2)
          | None => None
          end
        else Some (r1, c :: rest, n1)
    | other => other
    end
  end
with parse_seq (fuel : nat) (s : list ascii) (n : nat)
  : option (regex * list ascii * nat) :=
  match fuel with
  | O => None
  | S fuel' =>
    match s with
    | [] => Some (REmpty, s, n)
    | c :: _ =>
      if Ascii.eqb c (ch "|") || Ascii.eqb c (ch ")") then Some (REmpty, s, n)
      else
        match parse_atom fuel' s n with
        | Some (r1, rest1, n1) =>
            match quantify r1 rest1 with
            | Some (r1', rest1') =>
                match parse_seq fuel' rest1' n1 with
                | Some (REmpty, rest2, n2) => Some (r1', rest2, n2)
                | Some (r2, rest2, n2) => Some (RCat r1' r2, rest2, n2)
                | None => None
                end
            | None => None
            end
        | None => None
        end
    end
  end
with parse_atom (fuel : nat) (s : list ascii) (n : nat)
  : option (regex * list ascii * nat) :=
  match fuel with
  | O => None
  | S fuel' =>
    let inner (body : list ascii) (n0 : nat) (wrap : regex -> option regex) :=
      match parse_alt fuel' body n0 with
      | Some (r, rest, n1) =>
          match expect_close rest, wrap r with
          | Some rest', Some r' => Some (r', rest', n1)
          | _, _ => None
          end
      | None => None
      end in
    match s with
    | [] => None
    | c :: s1 =>
      if Ascii.eqb c (ch "(") then
        match s1 with
        | q :: k :: s2 =>
            if Ascii.eqb q (ch "?") then
              if Ascii.eqb k (ch ":") then inner s2 n (fun r => Some r)
              else if Ascii.eqb k (ch "=") then inner s2 n (fun r => Some (RAhead r))
              else if Ascii.eqb k (ch "<") then
                match s2 with
                | e :: s3 =>
                    if Ascii.eqb e (ch "=") then
                      inner s3 n (fun r =>
                        match width r with
                        | Some w => Some (RBehind w r)
                        | None => None
                        end)
                    else None
                | [] => None
                end
              else None
            else inner s1 (S n) (fun r => Some (RGroup n r))
        | _ => inner s1 (S n) (fun r => Some (RGroup n r))
        end
      else if Ascii.eqb c (ch "[") then
        let '(neg, body) :=
          match s1 with
          | x :: s2 => if Ascii.eqb x (ch "^") then (true, s2) else (false, s1)
          | [] => (false, s1)
          end in
        match parse_items fuel' body with
        | Some (items, rest) => Some (RAtom (ASet neg items), rest, n)
        | None => None
        end
      else if Ascii.eqb c (ch "\") then
        match s1 with
        | e :: s2 =>
            if Ascii.eqb e (ch "b") then Some (RWordB, s2, n)
            else
              match escape_item e with
              | Some (IChar l) => Some (RAtom (ALit l), s2, n)
              | Some i => Some (RAtom (ASet false [i]), s2, n)
              | None => None
              end
        | [] => None
        end
      else if Ascii.eqb c (ch ".") then Some (RAtom ADot, s1, n)
      else if Ascii.eqb c (ch "^") then Some (RBol, s1, n)
      else if Ascii.eqb c (ch "$") then Some (REol, s1, n)
      else if Ascii.eqb c (ch "*") || Ascii.eqb c (ch "+") || Ascii.eqb c (ch "?")
              || Ascii.eqb c (ch "{") || Ascii.eqb c (ch "}")
      then None
      else Some (RAtom (ALit c), s1, n)
    end
  end.

(** [re.compile(pattern)]; [None] for a pattern outside the fragment. *)
Definition compile (pattern : string) : option regex :=
  let s := chars pattern in
  match parse_alt (3 * List.length s + 3) s 1 with
  | Some (r, [], _) => Some r
  | _ => None
  end.

(** *** Matching: backtracking in the order [re] tries the alternatives *)

Definition item_ok (c : ascii) (i : citem) : bool :=
  match i with
  | IChar x => Ascii.eqb c x
  | IRange lo hi => in_range (code lo) (code hi) c
  | ISpace => is_space c
  | IDigit => is_digit c
  | IWord => is_word c
  end.

(** Under IGNORECASE a literal is compared after lowering, and a class
    holds a character when it lists it in either case. *)
Definition atom_ok (fl : flags) (a : atom) (c : ascii) : bool :=
  match a with
  | ADot => dotall fl || negb (Ascii.eqb c newline)
  | ALit l =>
      if ignorecase fl then Ascii.eqb (lower_char c) (lower_char l)
      else Ascii.eqb c l
  | ASet neg items =>
      xorb neg
        (existsb (item_ok c) items
         || (ignorecase fl
             && (existsb (item_ok (lower_char c)) items
                 || existsb (item_ok (upper_char c)) items)))
  end.

(** Captured groups, most recent first. *)
Definition captures : Type := list (nat * list ascii).

(** A position of the matcher: the text before it, reversed, the text after
    it, and the groups captured so far. *)
Definition mres : Type := (list ascii * list ascii * captures)%type.
Definition cont : Type := list ascii -> list ascii -> captures -> option mres.

Fixpoint rep_greedy (fl : flags) (a : atom) (k : cont)
    (bk s : list ascii) (caps : captures) {struct s} : option mres :=
  match s with
  | c :: s' =>
      if atom_ok fl a c then
        match rep_greedy fl a k (c :: bk) s' caps with
        | Some m => Some m
        | None => k bk s caps
        end
      else k bk s caps
  | [] => k bk s caps
  end.

Fixpoint rep_lazy (fl : flags) (a : atom) (k : cont)
    (bk s : list ascii) (caps : captures) {struct s} : option mres :=
  match k bk s caps with
  | Some m => Some m
  | None =>
      match s with
      | c :: s' => if atom_ok fl a c then rep_lazy fl a k (c :: bk) s' caps else None
      | [] => None
      end
  end.

Definition word_at (l : list ascii) : bool :=
  match l with c :: _ => is_word c | [] => false end.

Fixpoint rx (fl : flags) (r : regex) (k : cont)
    (bk s : list ascii) (caps : captures) {struct r} : option mres :=
  match r with
  | REmpty => k bk s caps
  | RAtom a =>
      match s with
      | c :: s' => if atom_ok fl a c then k (c :: bk) s' caps else None
      | [] => None
      end
  | RRep g least a =>
      let rep := if g then rep_greedy fl a k else rep_lazy fl a k in
      if least then
        match s with
        | c :: s' => if atom_ok fl a c then rep (c :: bk) s' caps else None
        | [] => None
        end
      else rep bk s caps
  | ROpt g r1 =>
      if g then
        match rx fl r1 k bk s caps with
        | Some m => Some m
        | None => k bk s caps
        end
      else
        match k bk s caps with
        | Some m => Some m
        | None => rx fl r1 k bk s caps
        end
  | RCat r1 r2 => rx fl r1 (fun bk' s' caps' => rx fl r2 k bk' s' caps') bk s caps
  | RAlt r1 r2 =>
      match rx fl r1 k bk s caps with
      | Some m => Some m
      | None => rx fl r2 k bk s caps
      end
  | RGroup n r1 =>
      rx fl r1
         (fun bk' s' caps' =>
            k bk' s' ((n, firstn (List.length bk' - List.length bk) s) :: caps'))
         bk s caps
  | RBol => match bk with [] => k bk s caps | _ :: _ => None end
  | REol =>
      match s with
      | [] => k bk s caps
      | [c] => if Ascii.eqb c newline then k bk s caps else None
      | _ => None
      end
  | RWordB => if xorb (word_at bk) (word_at s) then k bk s caps else None
  | RAhead r1 =>
      match rx fl r1 (fun bk' s' caps' => Some (bk', s', caps')) bk s caps with
      | Some (_, _, caps') => k bk s caps'
      | None => None
      end
  | RBehind w r1 =>
      if Nat.ltb (List.length bk) w then None
      else
        match rx fl r1
                 (fun bk' s' caps' =>
                    if Nat.eqb (List.length bk') (List.length bk)
                    then Some (bk', s', caps') else None)
                 (skipn w bk) (rev (firstn w bk) ++ s)%list caps with
        | Some (_, _, caps') => k bk s caps'
        | None => None
        end
  end.

(** A match object: where it starts, where it ends, what it captured. *)
Record rmatch : Type := {
  m_before : list ascii;   (* text before the match, reversed *)
  m_from : list ascii;     (* text from the start of the match *)
  m_rest : list ascii;     (* text after the match *)
  m_end_before : list ascii;
  m_caps : captures
}.

Definition m_len (m : rmatch) : nat :=
  List.length (m_end_before m) - List.length (m_before m).

(** [m.group(0)] *)
Definition group0 (m : rmatch) : string := str (firstn (m_len m) (m_from m)).

(** [m.group(n)], [None] for a group that took no part in the match. *)
Fixpoint lookup_group (n : nat) (caps : captures) : option (list ascii) :=
  match caps with
  | [] => None
  | (i, t) :: rest => if Nat.eqb i n then Some t else lookup_group n rest
  end.

Definition group (m : rmatch) (n : nat) : option string :=
  option_map str (lookup_group n (m_caps m)).

(** One attempt at the current position; with [must_advance] an empty match
    is refused there. *)
Definition match_here (fl : flags) (r : regex) (must_advance : bool)
    (bk s : list ascii) : option rmatch :=
  match rx fl r
           (fun bk' s' caps' =>
              if must_advance && Nat.eqb (List.length bk') (List.length bk)
              then None else Some (bk', s', caps'))
           bk s [] with
  | Some (bk', s', caps') =>
      Some {| m_before := bk; m_from := s; m_rest := s';
              m_end_before := bk'; m_caps := caps' |}
  | None => None
  end.

(** Leftmost match at or after the current position. *)
Fixpoint scan (fl : flags) (r : regex) (bk s : list ascii) {struct s}
  : option rmatch :=
  match match_here fl r false bk s with
  | Some m => Some m
  | None =>
      match s with
      | [] => None
      | c :: s' => scan fl r (c :: bk) s'
      end
  end.

(** All non-overlapping matches, left to right.  [skip] characters belong to
    the match just reported; after an empty match the same position is tried
    once more for a non-empty one. *)
Fixpoint scan_all (fl : flags) (r : regex) (skip : nat) (bk s : list ascii)
    {struct s} : list rmatch :=
  match skip with
  | S n =>
      match s with
      | c :: s' => scan_all fl r n (c :: bk) s'
      | [] => []
      end
  | O =>
      let next (taken : nat) :=
        match s with
        | c :: s' => scan_all fl r (taken - 1) (c :: bk) s'
        | [] => []
        end in
      match match_here fl r false bk s with
      | None => next 0
      | Some m =>
          match m_len m with
          | S _ => m :: next (m_len m)
          | O =>
              match match_here fl r true bk s with
              | Some m2 => m :: m2 :: next (m_len m2)
              | None => m :: next 0
              end
          end
      end
  end.

(** [re.search(pattern, text, flags)]; a pattern outside the fragment gives
    no match (see [patterns_compile] for the patterns of the analyzer). *)
Definition search (fl : flags) (pattern text : string) : option rmatch :=
  match compile pattern with
  | Some r => scan fl r [] (chars text)
  | None => None
  end.

Definition matches (fl : flags) (pattern text : string) : bool :=
  match search fl pattern text with Some _ => true | None => false end.

(** [re.findall(pattern, text, flags)] for a pattern with no group
    ([grp = 0]) or with one ([grp = 1]). *)
Definition findall (fl : flags) (grp : nat) (pattern text : string) : list string :=
  match compile pattern with
  | Some r =>
      map (fun m =>
             match grp with
             | O => group0 m
             | S _ => match group m grp with Some t => t | None => "" end
             end)
          (scan_all fl r 0 [] (chars text))
  | None => []
  end.

(** [r'\b' + re.escape(word) + r'\b'] *)
Definition word_pattern (word : string) : regex :=
  RCat RWordB
    (fold_right (fun c r => RCat (RAtom (ALit c)) r) RWordB (chars word)).

(** [[m.start() for m in re.finditer(r'\b' + re.escape(word) + r'\b', text)]] *)
Definition word_starts (word text : string) : list nat :=
  map (fun m => List.length (m_before m))
      (scan_all NOFLAGS (word_pattern word) 0 [] (chars text)).

Definition has_word (word text : string) : bool :=
  match scan NOFLAGS (word_pattern word) [] (chars text) with
  | Some _ => true
  | None => false
  end.

End Re.

(* ===================================================================== *)
(** ** Python's [float]                                                    *)
(* ===================================================================== *)

Module PyFloat.
Import PyStr.

Definition digit_val (c : ascii) : Z := Z.of_N (code c) - 48.

(** Digits read as a decimal number: its value and how many digits. *)
Fixpoint digits (l : list ascii) (acc : Z) : option (Z * list ascii) :=
  match l with
  | c :: l' => if is_digit c then digits l' (10 * acc + digit_val c) else Some (acc, l)
  | [] => Some (acc, l)
  end.

(** [float(s)] for [s] made of decimal digits with at most one point among
    them, and a digit on at least one side of it; [None] stands for the
    [ValueError] raised on other text.  The value is the correctly rounded
    quotient of two integers, which is the double [float] returns as long as
    both are below 2^53 (the analyzer passes strings of one to three
    characters). *)
Definition py_float (s : string) : option float :=
  let l := chars s in
  match digits l 0 with
  | Some (ip, []) =>
      match l with
      | [] => None
      | _ :: _ => Some (PrimFloat.of_uint63 (Uint63.of_Z ip))
      end
  | Some (ip, c :: frac) =>
      if Ascii.eqb c (Re.ch ".") then
        match digits frac ip with
        | Some (m, []) =>
            match List.length l with
            | 1 => None
            | _ =>
                Some (PrimFloat.div (PrimFloat.of_uint63 (Uint63.of_Z m))
                        (PrimFloat.of_uint63 (Uint63.of_Z (10 ^ Z.of_nat (List.length frac)))))
            end
        | _ => None
        end
      else None
  | None => None
  end.

End PyFloat.

(* ===================================================================== *)
(** ** The analyzer                                                        *)
(* ===================================================================== *)

Module ComplianceAnalyzer.
Import PyStr Re PyFloat.

(** *** Data *)

(** A document chunk, [{"text": ..., "metadata": ...}]. *)
Record Chunk : Type := { chunk_text : string; chunk_metadata : list (string * string) }.

(** A passage returned by the retriever. *)
Record Passage : Type := { passage_text : string }.

(** The dictionary built by [_analyze_category]. *)
Record Analysis : Type := {
  a_category : string;
  a_system_type : string;
  a_score : float;
  a_analysis : string
}.

Record Gap : Type := {
  g_category : string;
  g_description : string;
  g_severity : string
}.

Record Recommendation : Type := {
  r_category : string;
  r_recommendation : string;
  r_priority : string
}.

Record Assessment : Type := {
  verdict : bool;          (* "is_social_scoring" / "is_manipulation" *)
  description : string;
  evidence : string
}.

(** The dictionary built by [_analyze_prohibited_system], with the three keys
    [analyze_compliance] may add to it. *)
Record ProhibitionAnalysis : Type := {
  is_prohibited : bool;
  social_scoring : Assessment;
  manipulation : Assessment;
  prohibited_category : option string;
  article : option string;
  explanation : option string
}.

(** The [results] dictionary.  Dictionaries keep insertion order, so the two
    inner ones are association lists. *)
Record Results : Type := {
  system_name : string;
  overall_score : float;
  category_scores : list (string * float);
  compliance_gaps : list Gap;
  recommendations : list Recommendation;
  detailed_analysis : list (string * Analysis);
  system_type : option string;            (* set after classification *)
  prohibition_analysis : option ProhibitionAnalysis   (* prohibited runs only *)
}.

(** [results[key] = value], one definition per key that is assigned. *)
Definition set_overall_score (value : float) (results : Results) : Results :=
  {| system_name := system_name results;
     overall_score := value;
     category_scores := category_scores results;
     compliance_gaps := compliance_gaps results;
     recommendations := recommendations results;
     detailed_analysis := detailed_analysis results;
     system_type := system_type results;
     prohibition_analysis := prohibition_analysis results |}.

Definition set_category_scores (value : list (string * float)) (results : Results) : Results :=
  {| system_name := system_name results;
     overall_score := overall_score results;
     category_scores := value;
     compliance_gaps := compliance_gaps results;
     recommendations := recommendations results;
     detailed_analysis := detailed_analysis results;
     system_type := system_type results;
     prohibition_analysis := prohibition_analysis results |}.

Definition set_compliance_gaps (value : list Gap) (results : Results) : Results :=
  {| system_name := system_name results;
     overall_score := overall_score results;
     category_scores := category_scores results;
     compliance_gaps := value;
     recommendations := recommendations results;
     detailed_analysis := detailed_analysis results;
     system_type := system_type results;
     prohibition_analysis := prohibition_analysis results |}.

Definition set_recommendations (value : list Recommendation) (results : Results) : Results :=
  {| system_name := system_name results;
     overall_score := overall_score results;
     category_scores := category_scores results;
     compliance_gaps := compliance_gaps results;
     recommendations := value;
     detailed_analysis := detailed_analysis results;
     system_type := system_type results;
     prohibition_analysis := prohibition_analysis results |}.

Definition set_detailed_analysis (value : list (string * Analysis)) (results : Results) : Results :=
  {| system_name := system_name results;
     overall_score := overall_score results;
     category_scores := category_scores results;
     compliance_gaps := compliance_gaps results;
     recommendations := recommendations results;
     detailed_analysis := value;
     system_type := system_type results;
     prohibition_analysis := prohibition_analysis results |}.

Definition set_system_type (value : option string) (results : Results) : Results :=
  {| system_name := system_name results;
     overall_score := overall_score results;
     category_scores := category_scores results;
     compliance_gaps := compliance_gaps results;
     recommendations := recommendations results;
     detailed_analysis := detailed_analysis results;
     system_type := value;
     prohibition_analysis := prohibition_analysis results |}.

Definition set_prohibition_analysis (value : option ProhibitionAnalysis) (results : Results) : Results :=
  {| system_name := system_name results;
     overall_score := overall_score results;
     category_scores := category_scores results;
     compliance_gaps := compliance_gaps results;
     recommendations := recommendations results;
     detailed_analysis := detailed_analysis results;
     system_type := system_type results;
     prohibition_analysis := value |}.

(** [d[key] = value] *)
Fixpoint dict_set {V : Type} (key : string) (value : V) (d : list (string * V))
  : list (string * V) :=
  match d with
  | [] => [(key, value)]
  | (k, v) :: rest =>
      if String.eqb k key then (k, value) :: rest
      else (k, v) :: dict_set key value rest
  end.

(** [d.get(key)] *)
Fixpoint dict_get {V : Type} (key : string) (d : list (string * V)) : option V :=
  match d with
  | [] => None
  | (k, v) :: rest => if String.eqb k key then Some v else dict_get key rest
  end.

(** [for pattern in patterns: if re.search(pattern, text, flags): ... break] *)
Definition any_match (fl : flags) (patterns : list string) (text : string) : bool :=
  existsb (fun pattern => matches fl pattern text) patterns.

(** *** [_determine_system_type_improved]: the weighted pre-checks *)

Definition social_scoring_indicators : list (string * Z) :=
  [ ("social(\s+)credit(\s+)system", 10);
    ("social(\s+)scoring(\s+)system", 10);
    ("citizen(\s+)score", 8);
    ("citizen(\s+)rank", 8);
    ("citizenrank", 8);
    ("evaluate(\s+)citizens.*?behavior", 7);
    ("rate(\s+)citizens(\s+)based(\s+)on", 7);
    ("social(\s+)behavior.*?score", 7);
    ("score.*?public(\s+)services", 6);
    ("numerical(\s+)score.*?citizen", 6);
    ("access(\s+)based(\s+)on(\s+)score", 5);
    ("behavior(\s+)score", 5);
    ("travel(\s+)restriction.*?score", 8) ]%Z.

Definition limited_risk_indicators : list (string * Z) :=
  [ ("chatbot", 5);
    ("customer(\s+)service(\s+)(ai|assistant|agent)", 6);
    ("customer(\s+)support(\s+)(ai|assistant|agent)", 6);
    ("servicebot", 7);
    ("conversation(al)?(\s+)ai", 5);
    ("virtual(\s+)assistant", 5);
    ("customer(\s+)interaction", 4);
    ("support(\s+)ticket", 4);
    ("customer(\s+)query", 4);
    ("help(\s+)desk(\s+)automation", 5) ]%Z.

Definition product_recommender_indicators : list (string * Z) :=
  [ ("product(\s+)recommendation(\s+)engine", 5);
    ("e-commerce(\s+)recommendation", 5);
    ("ecommerce(\s+)recommendation", 5);
    ("online(\s+)shopping(\s+)recommendation", 4);
    ("product(\s+)suggestion", 3);
    ("recommend(\s+)products", 4);
    ("shopping(\s+)experience", 2);
    ("shopsmart", 6);
    ("personalized(\s+)recommendation", 3);
    ("you(\s+)might(\s+)(also|like)", 4);
    ("customers(\s+)who(\s+)bought(\s+)this", 5) ]%Z.

Definition high_risk_indicators : list (string * Z) :=
  [ ("medical(\s+)diagnosis", 8);
    ("mediscan", 8);
    ("healthcare(\s+)decision", 7);
    ("diagnostic(\s+)support(\s+)system", 7);
    ("medical(\s+)image(\s+)analysis", 7);
    ("patient(\s+)data", 6);
    ("clinical(\s+)decision", 6);
    ("mri", 5);
    ("ct(\s+)scan", 5);
    ("x-ray", 5);
    ("radiologist", 6);
    ("pathologist", 6);
    ("medical(\s+)specialist", 6) ]%Z.

(** [for pattern, weight in indicators: if re.search(pattern, text): score += weight] *)
Definition indicator_score (indicators : list (string * Z)) (text_lower : string) : Z :=
  fold_left (fun score '(pattern, weight) =>
               if matches NOFLAGS pattern text_lower then (score + weight)%Z else score)
            indicators 0%Z.

(** The four pre-checks in the order the source runs them; [None] when none
    of them returns and the oracle is asked. *)
Definition pre_check (documentation_text_lower : string) : option string :=
  if (15 <=? indicator_score social_scoring_indicators documentation_text_lower)%Z
  then Some "prohibited"
  else if (10 <=? indicator_score limited_risk_indicators documentation_text_lower)%Z
  then Some "limited-risk"
  else if (10 <=? indicator_score product_recommender_indicators documentation_text_lower)%Z
  then Some "minimal-risk"
  else if (10 <=? indicator_score high_risk_indicators documentation_text_lower)%Z
  then Some "high-risk"
  else None.

(** *** [_determine_system_type_improved]: reading the oracle's answer *)

Definition classification_patterns : list (string * list string) :=
  [
    ("prohibited",
     [ "classify\s+as\s+prohibited";
       "classification:\s+prohibited";
       "^prohibited$";
       "this\s+is\s+a\s+prohibited\s+system";
       "should\s+be\s+classified\s+as\s+prohibited";
       "falls\s+under\s+prohibited";
       "article\s+5.*?prohibit";
       "social\s+scoring.*?prohibit";
       "social\s+credit.*?prohibit" ]);
    ("high-risk",
     [ "classify\s+as\s+high-risk";
       "classify\s+as\s+high\s+risk";
       "classification:\s+high-risk";
       "classification:\s+high\s+risk";
       "^high-risk$";
       "^high\s+risk$";
       "this\s+is\s+a\s+high-risk\s+system";
       "this\s+is\s+a\s+high\s+risk\s+system" ]);
    ("limited-risk",
     [ "classify\s+as\s+limited-risk";
       "classify\s+as\s+limited\s+risk";
       "classification:\s+limited-risk";
       "classification:\s+limited\s+risk";
       "^limited-risk$";
       "^limited\s+risk$";
       "this\s+is\s+a\s+limited-risk\s+system";
       "this\s+is\s+a\s+limited\s+risk\s+system" ]);
    ("minimal-risk",
     [ "classify\s+as\s+minimal-risk";
       "classify\s+as\s+minimal\s+risk";
       "classification:\s+minimal-risk";
       "classification:\s+minimal\s+risk";
       "^minimal-risk$";
       "^minimal\s+risk$";
       "this\s+is\s+a\s+minimal-risk\s+system";
       "this\s+is\s+a\s+minimal\s+risk\s+system" ]);
    ("general-purpose",
     [ "classify\s+as\s+general-purpose";
       "classify\s+as\s+general\s+purpose";
       "classification:\s+general-purpose";
       "classification:\s+general\s+purpose";
       "^general-purpose$";
       "^general\s+purpose$";
       "^gpai$";
       "this\s+is\s+a\s+general-purpose\s+system";
       "this\s+is\s+a\s+general\s+purpose\s+system" ]) ].

Definition article_5_patterns : list string :=
  [ "article\s+5";
    "article\s+5\s*\(\s*1\s*\)\s*\(\s*c\s*\)";
    "prohibited\s+under\s+article";
    "social\s+scoring\s+system" ].

Definition system_types : list (string * list string) :=
  [ ("prohibited", ["prohibited"; "social scoring"; "social credit"; "article 5"]);
    ("high-risk", ["high-risk"; "high risk"; "medical diagnosis"; "healthcare decision"]);
    ("limited-risk", ["limited-risk"; "limited risk"; "chatbot"; "customer service"]);
    ("minimal-risk", ["minimal-risk"; "minimal risk"; "product recommendation"]);
    ("general-purpose", ["general-purpose"; "general purpose"; "gpai"]) ].

Definition negation_phrases : list string :=
  [ "not"; "isn't"; "isnt"; "doesn't"; "doesnt";
    "shouldn't"; "shouldnt"; "wouldn't"; "wouldnt";
    "cannot"; "can't"; "cant" ].

(** First layer: the first system type one of whose patterns is found. *)
Fixpoint clear_pattern_match (table : list (string * list string))
    (response_text_lower : string) : option string :=
  match table with
  | [] => None
  | (stype, patterns) :: rest =>
      if any_match IGNORECASE patterns response_text_lower then Some stype
      else clear_pattern_match rest response_text_lower
  end.

(** [response_text_lower[max(0, idx-40):idx]] *)
Definition context_before (response_text_lower : string) (idx : nat) : string :=
  str (skipn (idx - 40) (firstn idx (chars response_text_lower))).

Definition is_negated (response_text_lower : string) (idx : nat) : bool :=
  existsb (fun negation => has_word negation (context_before response_text_lower idx))
          negation_phrases.

(** The occurrences of one keyword: plus one each, minus one when negated. *)
Definition keyword_score (response_text_lower keyword : string) (score : Z) : Z :=
  fold_left (fun sc idx =>
               if is_negated response_text_lower idx then (sc - 1)%Z else (sc + 1)%Z)
            (word_starts keyword response_text_lower) score.

Definition count_types (response_text_lower : string) : list (string * Z) :=
  map (fun '(stype, keywords) =>
         (stype, fold_left (fun sc keyword => keyword_score response_text_lower keyword sc)
                           keywords 0%Z))
      system_types.

(** [if score > 0: type_scores[stype] += score // 3] *)
Definition add_weight (stype : string) (score : Z) (type_scores : list (string * Z))
  : list (string * Z) :=
  if (0 <? score)%Z then
    match dict_get stype type_scores with
    | Some old => dict_set stype (old + score / 3)%Z type_scores
    | None => type_scores
    end
  else type_scores.

(** The loop that keeps the first strictly highest score, from [-1] and
    ["minimal-risk"]. *)
Definition highest (type_scores : list (string * Z)) : string * Z :=
  fold_left (fun '(max_type, max_score) '(stype, score) =>
               if (max_score <? score)%Z then (stype, score) else (max_type, max_score))
            type_scores ("minimal-risk", (-1)%Z).

(** Everything after [response_text = response.content.strip()]. *)
Definition classify_response (response_text : string)
    (social_scoring_score limited_risk_score product_recommender_score high_risk_score : Z)
  : string :=
  let response_text_lower := lower response_text in
  match clear_pattern_match classification_patterns response_text_lower with
  | Some stype => stype
  | None =>
      if any_match IGNORECASE article_5_patterns response_text_lower then "prohibited"
      else
        let type_scores := count_types response_text_lower in
        let type_scores := add_weight "prohibited" social_scoring_score type_scores in
        let type_scores := add_weight "limited-risk" limited_risk_score type_scores in
        let type_scores := add_weight "minimal-risk" product_recommender_score type_scores in
        let type_scores := add_weight "high-risk" high_risk_score type_scores in
        let '(max_type, max_score) := highest type_scores in
        if (0 <? max_score)%Z then max_type else "minimal-risk"
  end.

(** *** [_extract_score] *)

Definition score_patterns : list string :=
  [ "compliance score[^0-9]*([0-9]\.[0-9])";
    "score[^0-9]*([0-9]\.[0-9])[^0-9]*/[^0-9]*1\.0";
    "score[^0-9]*([0-9])\/10";
    "([0-9][0-9])%";
    "compliance[^0-9]*([0-9]\.[0-9])";
    "score[^0-9]*([0-9]\.[0-9])" ].
(** [c in s] for a one-character [c]. *)
Definition contains_char (c : ascii) (s : string) : bool :=
  existsb (Ascii.eqb c) (chars s).

(** The body of the [try]: [None] is the [ValueError] of [float]. *)
Definition convert_score (pattern score_str : string) : option float :=
  if contains_char (ch "%") score_str || String.eqb pattern "([0-9][0-9])%" then
    option_map (fun x => PrimFloat.div x 100%float) (py_float score_str)
  else if contains_char (ch "/") score_str
          || String.eqb pattern "score[^0-9]*([0-9])\/10" then
    option_map (fun x => PrimFloat.div x 10%float) (py_float score_str)
  else py_float score_str.

(** The loop over the patterns.  Group 1 lies on the only path through each
    pattern of [score_patterns], so a match always carries it
    ([score_group_set]); the branch for a match without it is not reached. *)
Fixpoint extract_score_with (patterns : list string) (response_text : string) : float :=
  match patterns with
  | [] => 0.5%float
  | pattern :: rest =>
      match search IGNORECASE pattern response_text with
      | Some m =>
          match group m 1 with
          | Some score_str =>
              match convert_score pattern score_str with
              | Some score => score
              | None => extract_score_with rest response_text
              end
          | None => extract_score_with rest response_text
          end
      | None => extract_score_with rest response_text
      end
  end.

Definition _extract_score (response_text : string) : float :=
  extract_score_with score_patterns response_text.

(** *** [_identify_compliance_gaps] *)

Definition gap_pattern : string := "(?:gap|issue|non-compliant|missing|lack)[^.]*\.".

(** ["high" if score < 0.3 else "medium" if score < 0.5 else "low"] *)
Definition severity_of (score : float) : string :=
  if PrimFloat.ltb score 0.3%float then "high"
  else if PrimFloat.ltb score 0.5%float then "medium"
  else "low".

(** The gaps of one entry of [detailed_analysis]. *)
Definition gaps_of (category : string) (analysis : Analysis) : list Gap :=
  let score := a_score analysis in
  let analysis_text := a_analysis analysis in
  if PrimFloat.ltb score 0.7%float then
    map (fun gap_text =>
           {| g_category := category;
              g_description := strip gap_text;
              g_severity := severity_of score |})
        (findall IGNORECASE 0 gap_pattern analysis_text)
  else [].

Definition _identify_compliance_gaps (detailed_analysis : list (string * Analysis))
    (system_type : string) : list Gap :=
  flat_map (fun '(category, analysis) => gaps_of category analysis) detailed_analysis.

(** *** [_generate_recommendations]: the pure parts *)

(** [gaps_by_category]: the gaps of each category, categories in the order
    of their first gap. *)
Fixpoint group_add (gap : Gap) (d : list (string * list Gap)) : list (string * list Gap) :=
  match d with
  | [] => [(g_category gap, [gap])]
  | (k, gaps) :: rest =>
      if String.eqb k (g_category gap) then (k, (gaps ++ [gap])%list) :: rest
      else (k, gaps) :: group_add gap rest
  end.

Definition group_by_category (compliance_gaps : list Gap) : list (string * list Gap) :=
  fold_left (fun d gap => group_add gap d) compliance_gaps [].

(** The list-item pattern.  The source's class of bullet characters also
    lists U+2022, which no one-byte character equals. *)
Definition item_pattern : string :=
  "(?:^|\n)[\-\*\d]+[.)]\s*(.*?)(?=\n[\-\*\d]+[.)]|\n\n|$)".

Definition sentence_pattern : string := "(?<=\. )[A-Z][^.]*\.".

Definition recommendation_items (response_text : string) : list string :=
  match findall DOTALL 1 item_pattern response_text with
  | [] => findall NOFLAGS 0 sentence_pattern response_text
  | items => items
  end.

(** ["high" if any(gap["severity"] == "high" for gap in gaps) else "medium"] *)
Definition priority_of (gaps : list Gap) : string :=
  if existsb (fun gap => String.eqb (g_severity gap) "high") gaps then "high" else "medium".

Definition recommendation_prompt (system_type category : string) (gaps : list Gap) : string :=
  let combined_gaps := join nl (map (fun gap => "- " ++ g_description gap) gaps) in
  nl ++ "            You are an expert EU AI Act compliance consultant. Generate specific recommendations to address the following compliance gaps for a "
     ++ system_type ++ " AI system in the " ++ category ++ " category:" ++ nl
     ++ "            " ++ nl
     ++ "            " ++ combined_gaps ++ nl
     ++ "            " ++ nl
     ++ "            Provide 1-3 specific, actionable recommendations to address these gaps and improve compliance with the EU AI Act." ++ nl
     ++ "            ".

(** *** [_analyze_prohibited_system]: the pure part *)

Definition affirmative_patterns : list string :=
  [ "\byes\b";
    "is a social scoring system";
    "does qualify as";
    "does involve";
    "is designed for";
    "could be classified as";
    "exhibits characteristics of";
    "could be considered";
    "strong indications";
    "shows clear signs of";
    "matches the definition";
    "meets the criteria";
    "social credit system";
    "citizen.*?score";
    "rate.*?individuals";
    "evaluate.*?citizens";
    "numeric.*?score";
    "unfavorable treatment";
    "algorithmic.*?assess";
    "article 5";
    "prohibited under";
    "clear evidence";
    "classif.*?based on behavior";
    "disproportionate treatment";
    "government.*?scoring" ].

Definition negative_patterns : list string :=
  [ "\bno\b";
    "not a social scoring system";
    "not qualify as";
    "does not qualify";
    "does not involve";
    "is not designed for";
    "cannot be classified as";
    "does not exhibit";
    "should not be considered";
    "no indications";
    "shows no signs of";
    "does not match";
    "does not meet";
    "clearly not";
    "explicitly not";
    "definitely not" ].

Definition social_scoring_features : list string :=
  [ "social(\s+)credit(\s+)system";
    "social(\s+)scoring(\s+)system";
    "citizen(\s+)score";
    "citizen(\s+)rank";
    "evaluate(\s+)citizens.*?behavior";
    "social(\s+)behavior.*?score";
    "score.*?public(\s+)services";
    "numerical(\s+)score.*?citizen";
    "access(\s+)based(\s+)on(\s+)score";
    "behavior(\s+)score";
    "travel(\s+)restriction.*?score" ].

Definition prohibited_verdicts (documentation_text social_scoring_text manipulation_text : string)
  : ProhibitionAnalysis :=
  let direct_social_scoring_evidence :=
    any_match IGNORECASE social_scoring_features (lower documentation_text) in
  let social_scoring_lower := lower social_scoring_text in
  let affirmative_match_social := any_match IGNORECASE affirmative_patterns social_scoring_lower in
  let negative_match_social := any_match IGNORECASE negative_patterns social_scoring_lower in
  let is_social_scoring :=
    (affirmative_match_social && negb negative_match_social) || direct_social_scoring_evidence in
  let manipulation_lower := lower manipulation_text in
  let affirmative_match_manipulation := any_match IGNORECASE affirmative_patterns manipulation_lower in
  let negative_match_manipulation := any_match IGNORECASE negative_patterns manipulation_lower in
  let is_manipulation := affirmative_match_manipulation && negb negative_match_manipulation in
  {| is_prohibited := is_social_scoring || is_manipulation;
     social_scoring :=
       {| verdict := is_social_scoring;
          description :=
            if is_social_scoring
            then "The system appears to be designed for social scoring and evaluation of natural persons over a period of time based on social behavior or known/predicted personal or personality characteristics."
            else "The system does not appear to be designed for social scoring.";
          evidence := social_scoring_text |};
     manipulation :=
       {| verdict := is_manipulation;
          description :=
            if is_manipulation
            then "The system appears to deploy subliminal techniques beyond a person's consciousness or exploit vulnerabilities due to age, disability, or specific social or economic situations."
            else "The system does not appear to deploy subliminal techniques or exploit vulnerabilities.";
          evidence := manipulation_text |};
     prohibited_category := None;
     article := None;
     explanation := None |}.

(** *** The collaborators and the monad of a run *)

Section Run.

(** The state of everything outside the analyzer (the oracle, the vector
    store, the prompt cache, the file system) and what a collaborator
    raises. *)
Variables (W Exn : Type).

Inductive outcome (A : Type) : Type :=
| Returns (a : A) (w : W)
| Raises (e : Exn).
Arguments Returns {A} a w.
Arguments Raises {A} e.

Definition M (A : Type) : Type := W -> outcome A.

Definition ret {A : Type} (a : A) : M A := fun w => Returns a w.

Definition bind {A B : Type} (c : M A) (k : A -> M B) : M B :=
  fun w =>
    match c w with
    | Returns a w' => k a w'
    | Raises e => Raises e
    end.

Notation "x <- c ;; k" := (bind c (fun x => k))
  (at level 61, c at next level, right associativity).
Notation "c ;;; k" := (bind c (fun _ => k))
  (at level 61, right associativity).

Record Collaborators : Type := {
  (** [get_prompt(name)]: reads the cache, filling it on first use; every
      exception of the loader is caught inside, so it always returns. *)
  get_prompt : string -> W -> string * W;
  (** [template.format(name=value, ...)]: the text, or the exception [str.format]
      raises on a template it cannot fill. *)
  str_format : string -> list (string * string) -> Exn + string;
  (** [self.llm.invoke(prompt).content] *)
  llm_invoke : string -> M string;
  (** [self.retriever.retrieve(query, namespace=..., top_k=...)] *)
  retrieve : string -> string -> nat -> M (list Passage);
  (** [save_json(results, output_file)], the file named inside [output_dir]. *)
  save_json : Results -> string -> M unit
}.

Variable env : Collaborators.

Definition prompt_of (name : string) : M string :=
  fun w => let '(p, w') := get_prompt env name w in Returns p w'.

Definition format (template : string) (fields : list (string * string)) : M string :=
  fun w =>
    match str_format env template fields with
    | inr text => Returns text w
    | inl e => Raises e
    end.

(** *** [_determine_system_type_improved] *)

Definition _determine_system_type_improved (documentation_text : string) : M string :=
  let documentation_text_lower := lower documentation_text in
  let social_scoring_score :=
    indicator_score social_scoring_indicators documentation_text_lower in
  if (15 <=? social_scoring_score)%Z then ret "prohibited"
  else
  let limited_risk_score :=
    indicator_score limited_risk_indicators documentation_text_lower in
  if (10 <=? limited_risk_score)%Z then ret "limited-risk"
  else
  let product_recommender_score :=
    indicator_score product_recommender_indicators documentation_text_lower in
  if (10 <=? product_recommender_score)%Z then ret "minimal-risk"
  else
  let high_risk_score :=
    indicator_score high_risk_indicators documentation_text_lower in
  if (10 <=? high_risk_score)%Z then ret "high-risk"
  else
    classification_prompt <- prompt_of "system_classification" ;;
    prompt <- format classification_prompt [("documentation", documentation_text)] ;;
    response <- llm_invoke env prompt ;;
    let response_text := strip response in
    ret (classify_response response_text social_scoring_score limited_risk_score
           product_recommender_score high_risk_score).

(** *** [_analyze_prohibited_system] *)

Definition _analyze_prohibited_system (documentation_text : string) : M ProhibitionAnalysis :=
  social_scoring_prompt <- prompt_of "prohibited_social_scoring" ;;
  social_scoring_formatted <-
    format social_scoring_prompt [("documentation", documentation_text)] ;;
  social_scoring_response <- llm_invoke env social_scoring_formatted ;;
  let social_scoring_text := strip social_scoring_response in
  manipulation_prompt <- prompt_of "prohibited_manipulation" ;;
  manipulation_formatted <-
    format manipulation_prompt [("documentation", documentation_text)] ;;
  manipulation_response <- llm_invoke env manipulation_formatted ;;
  let manipulation_text := strip manipulation_response in
  ret (prohibited_verdicts documentation_text social_scoring_text manipulation_text).

(** *** [_analyze_category] *)

Definition template_tail : string :=
  nl ++ "            " ++ nl
  ++ "            EU AI Act Context:" ++ nl
  ++ "            {eu_act_context}" ++ nl
  ++ "            " ++ nl
  ++ "            System Documentation:" ++ nl
  ++ "            {documentation}" ++ nl
  ++ "            " ++ nl
  ++ "            Provide a detailed analysis of compliance with {category} requirements. " ++ nl
  ++ "            Assign a compliance score from 0.0 (non-compliant) to 1.0 (fully compliant)." ++ nl
  ++ "            ".

Definition gpai_template : string :=
  nl ++ "            You are an expert EU AI Act compliance analyst. Analyze the AI system documentation for compliance with {category} requirements for general-purpose AI systems."
  ++ template_tail.

Definition default_template : string :=
  nl ++ "            You are an expert EU AI Act compliance analyst. Analyze the AI system documentation for compliance with {category} requirements for {system_type} AI systems."
  ++ template_tail.

Definition all_text_of (user_docs : list Chunk) : string :=
  join (nl ++ nl) (map chunk_text user_docs).

Definition _analyze_category (user_docs : list Chunk) (category system_type : string)
  : M (float * Analysis) :=
  let all_text := all_text_of user_docs in
  let namespace := "eu_ai_act" in
  let query := category ++ " requirements for " ++ system_type ++ " AI systems" in
  eu_act_sections <- retrieve env query namespace 5 ;;
  let eu_act_context := join (nl ++ nl) (map passage_text eu_act_sections) in
  prompt_template <-
    (if String.eqb system_type "high-risk" then
       if String.eqb category "data_governance" then prompt_of "data_governance"
       else if String.eqb category "human_oversight" then prompt_of "human_oversight"
       else prompt_of "high_risk_assessment"
     else if String.eqb system_type "general-purpose" then ret gpai_template
     else ret default_template) ;;
  prompt <- format prompt_template
              [("category", category); ("system_type", system_type);
               ("eu_act_context", eu_act_context); ("documentation", all_text)] ;;
  response <- llm_invoke env prompt ;;
  let response_text := strip response in
  let score := _extract_score response_text in
  ret (score,
       {| a_category := category; a_system_type := system_type;
          a_score := score; a_analysis := response_text |}).

(** *** [_generate_recommendations] *)

Fixpoint recommend_each (system_type : string) (groups : list (string * list Gap))
    (recommendations : list Recommendation) : M (list Recommendation) :=
  match groups with
  | [] => ret recommendations
  | (category, gaps) :: rest =>
      response <- llm_invoke env (recommendation_prompt system_type category gaps) ;;
      let response_text := strip response in
      let new :=
        map (fun item =>
               {| r_category := category;
                  r_recommendation := strip item;
                  r_priority := priority_of gaps |})
            (recommendation_items response_text) in
      recommend_each system_type rest (recommendations ++ new)%list
  end.

Definition _generate_recommendations (compliance_gaps : list Gap) (system_type : string)
  : M (list Recommendation) :=
  recommend_each system_type (group_by_category compliance_gaps) [].

(** *** [analyze_compliance] *)

Definition prohibited_indicators : list string :=
  [ "social\s+credit\s+system";
    "citizen\s+rank";
    "citizenrank";
    "evaluate\s+citizens.*?behavior.*?score";
    "score.*?determine.*?access\s+to\s+public\s+services";
    "score.*?travel\s+permission";
    "numerical\s+score.*?social\s+behavior";
    "government.*?scoring.*?citizen" ].

Definition medical_indicators : list string :=
  [ "medical\s+diagnosis";
    "mediscan";
    "diagnostic\s+support\s+system";
    "medical\s+image\s+analysis";
    "clinical\s+decision" ].

Definition chatbot_indicators : list string :=
  [ "chatbot";
    "servicebot";
    "customer\s+service\s+ai";
    "customer\s+support\s+assistant" ].

Definition categories : list string :=
  [ "risk_assessment"; "data_governance"; "technical_robustness";
    "transparency"; "human_oversight"; "accountability" ].

Definition initial_results (name : string) : Results :=
  {| system_name := name;
     overall_score := 0.0%float;
     category_scores := [];
     compliance_gaps := [];
     recommendations := [];
     detailed_analysis := [];
     system_type := None;
     prohibition_analysis := None |}.

(** The double check after the first classification: the final system type
    and [documentary_evidence_of_prohibition]. *)
Definition override_pass (system_type documentation_text_lower : string) : string * bool :=
  let documentary_evidence_of_prohibition :=
    any_match IGNORECASE prohibited_indicators documentation_text_lower in
  let system_type :=
    if documentary_evidence_of_prohibition then "prohibited" else system_type in
  if negb (String.eqb system_type "prohibited") && negb documentary_evidence_of_prohibition
  then
    let system_type :=
      if any_match IGNORECASE medical_indicators documentation_text_lower
      then "high-risk" else system_type in
    let system_type :=
      if any_match IGNORECASE chatbot_indicators documentation_text_lower
      then "limited-risk" else system_type in
    (system_type, documentary_evidence_of_prohibition)
  else (system_type, documentary_evidence_of_prohibition).

Definition prohibited_recommendation : Recommendation :=
  {| r_category := "prohibited_use";
     r_recommendation :=
       "This AI system falls under prohibited uses in the EU AI Act. "
       ++ "It should not be deployed in the EU without significant redesign to remove the prohibited elements.";
     r_priority := "high" |}.

(** The warning added for social scoring.  The dictionary has no top-level
    key "is_social_scoring", so the test reads the nested one. *)
Definition add_social_scoring_warning (pa : ProhibitionAnalysis) : ProhibitionAnalysis :=
  if verdict (social_scoring pa) then
    {| is_prohibited := is_prohibited pa;
       social_scoring := social_scoring pa;
       manipulation := manipulation pa;
       prohibited_category := Some "social_scoring";
       article := Some "Article 5(1)(c)";
       explanation :=
         Some ("The system appears to be designed for social scoring of individuals, which is explicitly "
               ++ "prohibited under Article 5(1)(c) of the EU AI Act. This type of system evaluates natural "
               ++ "persons based on their social behavior or personal characteristics, leading to detrimental "
               ++ "or unfavorable treatment in contexts unrelated to those in which the data was generated.") |}
  else pa.

(** [for category in categories: results["category_scores"][category] = 0.0] *)
Definition zero_scores (results : Results) : Results :=
  fold_left (fun r category =>
               set_category_scores (dict_set category 0.0%float (category_scores r)) r)
            categories results.

(** The loop of the non-prohibited branch: the running [total_score] and the
    [results] it fills. *)
Fixpoint analyze_categories (user_docs : list Chunk) (system_type : string)
    (cats : list string) (total_score : float) (results : Results)
  : M (float * Results) :=
  match cats with
  | [] => ret (total_score, results)
  | category :: rest =>
      scored <- _analyze_category user_docs category system_type ;;
      let '(category_score, category_analysis) := scored in
      let results :=
        set_category_scores (dict_set category category_score (category_scores results))
          results in
      let results :=
        set_detailed_analysis
          (dict_set category category_analysis (detailed_analysis results)) results in
      analyze_categories user_docs system_type rest
        (PrimFloat.add total_score category_score) results
  end.

Definition output_file (name : string) : string :=
  replace_char (ch " ") (ch "_") name ++ "_compliance_analysis.json".

(** The branch for [system_type == "prohibited" or
    documentary_evidence_of_prohibition]. *)
Definition prohibited_branch (all_text : string) (results : Results) : M Results :=
  prohibition_analysis <- _analyze_prohibited_system all_text ;;
  let results := set_prohibition_analysis (Some prohibition_analysis) results in
  let results := set_overall_score 0.0%float results in
  let results := zero_scores results in
  let results := set_recommendations [prohibited_recommendation] results in
  ret (set_prohibition_analysis
         (Some (add_social_scoring_warning prohibition_analysis)) results).

(** The [else] branch: category by category, then gaps and recommendations. *)
Definition category_branch (user_docs : list Chunk) (system_type : string)
    (results : Results) : M Results :=
  looped <- analyze_categories user_docs system_type categories 0.0%float results ;;
  let '(total_score, results) := looped in
  let results :=
    set_overall_score
      (PrimFloat.div total_score
         (PrimFloat.of_uint63 (Uint63.of_Z (Z.of_nat (List.length categories)))))
      results in
  let results :=
    set_compliance_gaps
      (_identify_compliance_gaps (detailed_analysis results) system_type) results in
  recs <- _generate_recommendations (compliance_gaps results) system_type ;;
  ret (set_recommendations recs results).

Definition analyze_compliance (user_docs : list Chunk) (name : string) (top_k : nat)
  : M Results :=
  let results := initial_results name in
  let all_text := all_text_of user_docs in
  system_type <- _determine_system_type_improved all_text ;;
  let results := set_system_type (Some system_type) results in
  let documentation_text_lower := lower all_text in
  let '(system_type, documentary_evidence_of_prohibition) :=
    override_pass system_type documentation_text_lower in
  let results := set_system_type (Some system_type) results in
  results <-
    (if String.eqb system_type "prohibited" || documentary_evidence_of_prohibition
     then prohibited_branch all_text results
     else category_branch user_docs system_type results) ;;
  save_json env results (output_file name) ;;;
  ret results.

(** Collaborators none of which raises. *)
Definition reliable : Prop :=
  (forall template fields, exists text, str_format env template fields = inr text)
  /\ (forall prompt w, exists response w', llm_invoke env prompt w = Returns response w')
  /\ (forall query namespace k w,
        exists passages w', retrieve env query namespace k w = Returns passages w')
  /\ (forall results file w, exists w', save_json env results file w = Returns tt w').

End Run.

Arguments Returns {W Exn A} a w.
Arguments Raises {W Exn A} e.
Arguments ret {W Exn A} a w.
Arguments bind {W Exn A B} c k w.
Arguments get_prompt {W Exn} c name w.
Arguments str_format {W Exn} c template fields.
Arguments llm_invoke {W Exn} c prompt w.
Arguments retrieve {W Exn} c query namespace top_k w.
Arguments save_json {W Exn} c results file w.
Arguments prompt_of {W Exn} env name w.
Arguments format {W Exn} env template fields w.
Arguments _determine_system_type_improved {W Exn} env documentation_text w.
Arguments _analyze_prohibited_system {W Exn} env documentation_text w.
Arguments _analyze_category {W Exn} env user_docs category system_type w.
Arguments recommend_each {W Exn} env system_type groups recommendations w.
Arguments _generate_recommendations {W Exn} env compliance_gaps system_type w.
Arguments analyze_categories {W Exn} env user_docs system_type cats total_score results w.
Arguments prohibited_branch {W Exn} env all_text results w.
Arguments category_branch {W Exn} env user_docs system_type results w.
Arguments analyze_compliance {W Exn} env user_docs name top_k w.
Arguments reliable {W Exn} env.

End ComplianceAnalyzer.

(* ===================================================================== *)
(** ** Stand-ins for the collaborators, for running the analyzer          *)
(* ===================================================================== *)

Module Doubles.
Import PyStr Re ComplianceAnalyzer.

Definition doc (t : string) : Chunk := {| chunk_text := t; chunk_metadata := [] |}.

(** The world is the list of answers the oracle has yet to give; asked with
    none left, it raises.  Prompts are delivered unfilled, the retriever
    finds nothing and every write succeeds. *)
Definition scripted : Collaborators (list string) string :=
  {| get_prompt := fun name w => ("{documentation}", w);
     str_format := fun template fields => inr template;
     llm_invoke := fun prompt w =>
       match w with
       | response :: w' => Returns response w'
       | [] => Raises "oracle unavailable"
       end;
     retrieve := fun query namespace k w => Returns [] w;
     save_json := fun results file w => Returns tt w |}.

(** An oracle that gives the same answer to every prompt. *)
Definition constant (answer : string) : Collaborators unit string :=
  {| get_prompt := fun name w => ("{documentation}", w);
     str_format := fun template fields => inr template;
     llm_invoke := fun prompt w => Returns answer w;
     retrieve := fun query namespace k w => Returns [] w;
     save_json := fun results file w => Returns tt w |}.

(** Example documentation and oracle scripts. *)
Definition scoring_docs : list Chunk :=
  [doc "We operate a social credit system that assigns citizen scores used to restrict travel permissions"].

Definition widget_docs : list Chunk := [doc "A weather widget for the office wall."].

Definition clinic_docs : list Chunk := [doc "MediScan chatbot for clinics."].

Definition zero_script : list string :=
  [ "Classification: minimal-risk";
    "Compliance score: 0.0"; "Compliance score: 0.0"; "Compliance score: 0.0";
    "Compliance score: 0.0"; "Compliance score: 0.0"; "Compliance score: 0.0" ].

Definition clinic_script : list string :=
  [ "Classification: high-risk";
    "Compliance score: 0.2. There is a gap in the risk register. Missing hazard log.";
    "Compliance score: 0.4. One issue remains open.";
    "Compliance score: 0.6. The records lack detail.";
    "Compliance score: 0.8"; "Compliance score: 0.9"; "Compliance score: 1.0";
    "1. Keep a risk register
2. Review it monthly";
    "Plan. Close the open issue. Report on it.";
    "- no list marker here" ].

End Doubles.

(* ===================================================================== *)
(** ** Notions used in the statements                                      *)
(* ===================================================================== *)

Module Notions.
Import PyStr Re PyFloat ComplianceAnalyzer.

(** Every pattern the analyzer hands to [re]. *)
Definition all_patterns : list string :=
  (map fst social_scoring_indicators ++ map fst limited_risk_indicators
   ++ map fst product_recommender_indicators ++ map fst high_risk_indicators
   ++ flat_map snd classification_patterns ++ article_5_patterns
   ++ affirmative_patterns ++ negative_patterns ++ social_scoring_features
   ++ score_patterns ++ prohibited_indicators ++ medical_indicators
   ++ chatbot_indicators ++ [gap_pattern; item_pattern; sentence_pattern])%list.

(** [sets_group n r]: every way through [r] passes group [n]. *)
Fixpoint sets_group (n : nat) (r : regex) : bool :=
  match r with
  | RGroup m r1 => Nat.eqb m n || sets_group n r1
  | RCat r1 r2 => sets_group n r1 || sets_group n r2
  | RAlt r1 r2 => sets_group n r1 && sets_group n r2
  | RAhead r1 => sets_group n r1
  | _ => false
  end.

Section Groups.
Variable n : nat.

Definition has_group (caps : captures) : Prop := lookup_group n caps <> None.

(** A continuation that keeps group [n] once it is set, and one whose every
    result has it. *)
Definition keeps (k : cont) : Prop :=
  forall bk s caps m, k bk s caps = Some m -> has_group caps -> has_group (snd m).
Definition lands (k : cont) : Prop :=
  forall bk s caps m, k bk s caps = Some m -> has_group (snd m).

End Groups.

(** The category scores of a prohibited run. *)
Definition zeroed : list (string * float) := map (fun c => (c, 0.0%float)) categories.

(** [results] once the first classification [st0] and the final one [st]
    have been written to it. *)
Definition classified (name st0 st : string) : Results :=
  set_system_type (Some st) (set_system_type (Some st0) (initial_results name)).

(** The gaps of one category, in the order of the list. *)
Definition of_category (c : string) (gaps : list Gap) : list Gap :=
  filter (fun g => String.eqb (g_category g) c) gaps.

(** What the grouping loop keeps true of the gaps seen so far. *)
Definition grouped (d : list (string * list Gap)) (seen : list Gap) : Prop :=
  NoDup (map fst d)
  /\ (forall c gs, In (c, gs) d -> gs = of_category c seen)
  /\ (forall g, In g seen -> In (g_category g) (map fst d)).

End Notions.

(* ===================================================================== *)
(** ** What a pattern matches, stated without the search order            *)
(* ===================================================================== *)

Module ReSem.
Import PyStr Re.

(** [Reps fl a bk s bk' s']: from the position [(bk, s)], some number of
    characters accepted by [a] leads to [(bk', s')]. *)
Fixpoint Reps (fl : flags) (a : atom) (bk s bk' s' : list ascii) {struct s} : Prop :=
  (bk' = bk /\ s' = s)
  \/ match s with
     | c :: s1 => atom_ok fl a c = true /\ Reps fl a (c :: bk) s1 bk' s'
     | [] => False
     end.

(** [Mt fl r bk s bk' s']: [r] matches from the position [(bk, s)] to the
    position [(bk', s')]. *)
Fixpoint Mt (fl : flags) (r : regex) (bk s bk' s' : list ascii) {struct r} : Prop :=
  match r with
  | REmpty => bk' = bk /\ s' = s
  | RAtom a => exists c, s = c :: s' /\ atom_ok fl a c = true /\ bk' = c :: bk
  | RRep _ least a =>
      if least then
        exists c s1, s = c :: s1 /\ atom_ok fl a c = true /\ Reps fl a (c :: bk) s1 bk' s'
      else Reps fl a bk s bk' s'
  | ROpt _ r1 => Mt fl r1 bk s bk' s' \/ (bk' = bk /\ s' = s)
  | RCat r1 r2 => exists bk1 s1, Mt fl r1 bk s bk1 s1 /\ Mt fl r2 bk1 s1 bk' s'
  | RAlt r1 r2 => Mt fl r1 bk s bk' s' \/ Mt fl r2 bk s bk' s'
  | RGroup _ r1 => Mt fl r1 bk s bk' s'
  | RBol => bk = [] /\ bk' = bk /\ s' = s
  | REol => (s = [] \/ s = [newline]) /\ bk' = bk /\ s' = s
  | RWordB => xorb (word_at bk) (word_at s) = true /\ bk' = bk /\ s' = s
  | RAhead r1 => (exists bk1 s1, Mt fl r1 bk s bk1 s1) /\ bk' = bk /\ s' = s
  | RBehind w r1 =>
      w <= List.length bk
      /\ (exists bk1 s1,
            Mt fl r1 (skipn w bk) (rev (firstn w bk) ++ s)%list bk1 s1
            /\ List.length bk1 = List.length bk)
      /\ bk' = bk /\ s' = s
  end.

(** The pattern is found somewhere in the text. *)
Definition found (fl : flags) (r : regex) (text : list ascii) : Prop :=
  exists pre rest bk' s',
    text = (pre ++ rest)%list /\ Mt fl r (rev pre) rest bk' s'.

(** Patterns that look at nothing but the characters they consume: no
    anchor, no word boundary, no look-around. *)
Fixpoint ctxfree (r : regex) : bool :=
  match r with
  | REmpty | RAtom _ | RRep _ _ _ => true
  | ROpt _ r1 | RGroup _ r1 => ctxfree r1
  | RCat r1 r2 | RAlt r1 r2 => ctxfree r1 && ctxfree r2
  | RBol | REol | RWordB | RAhead _ | RBehind _ _ => false
  end.

Definition ctxfree_pattern (pattern : string) : bool :=
  match compile pattern with Some r => ctxfree r | None => false end.

(** The pattern with its capturing parentheses taken away. *)
Fixpoint erase (r : regex) : regex :=
  match r with
  | ROpt g r1 => ROpt g (erase r1)
  | RCat r1 r2 => RCat (erase r1) (erase r2)
  | RAlt r1 r2 => RAlt (erase r1) (erase r2)
  | RGroup _ r1 => erase r1
  | RAhead r1 => RAhead (erase r1)
  | RBehind w r1 => RBehind w (erase r1)
  | _ => r
  end.

(** A continuation whose success does not depend on the captures. *)
Definition blind (k : cont) : Prop :=
  forall bk s c1 c2, k bk s c1 = None -> k bk s c2 = None.

(** A group body that is a plain sequence of one-character atoms. *)
Fixpoint atoms_of (r : regex) : option (list atom) :=
  match r with
  | RAtom a => Some [a]
  | RCat (RAtom a) r2 =>
      match atoms_of r2 with Some l => Some (a :: l) | None => None end
  | _ => None
  end.

(** The text [t] is accepted atom by atom. *)
Fixpoint fits (fl : flags) (atoms : list atom) (t : list ascii) : bool :=
  match atoms, t with
  | [], [] => true
  | a :: atoms', c :: t' => atom_ok fl a c && fits fl atoms' t'
  | _, _ => false
  end.

End ReSem.

(* ===================================================================== *)
(** ** More of the analyzer, its prompt source and its caller             *)
(* ===================================================================== *)

Module Legacy.
Import PyStr Re ComplianceAnalyzer.

(** [needle in hay] on strings. *)
Fixpoint starts_with (needle hay : list ascii) : bool :=
  match needle, hay with
  | [], _ => true
  | c :: needle', d :: hay' => Ascii.eqb c d && starts_with needle' hay'
  | _ :: _, [] => false
  end.

Fixpoint occurs_in (needle hay : list ascii) : bool :=
  starts_with needle hay
  || match hay with
     | _ :: hay' => occurs_in needle hay'
     | [] => false
     end.

Definition contains (needle hay : string) : bool := occurs_in (chars needle) (chars hay).

(** *** [_determine_system_type], the legacy classifier *)

Definition prohibited_keywords : list string :=
  [ "social credit"; "social scoring"; "subliminal"; "manipulation"; "exploit vulnerabilities";
    "children vulnerability"; "real-time remote biometric identification";
    "untargeted facial recognition" ].

Definition high_risk_keywords : list string :=
  [ "biometric identification"; "critical infrastructure"; "education"; "employment";
    "worker management"; "essential services"; "law enforcement"; "border control";
    "justice"; "democratic process"; "safety component"; "regulated product";
    "medical device"; "credit scoring"; "insurance"; "bank"; "recruitment" ].

Definition general_purpose_keywords : list string :=
  [ "multi-purpose"; "multipurpose"; "general purpose"; "general-purpose"; "foundational";
    "large language model"; "multimodal"; "text-to-image"; "text-to-anything" ].

Definition limited_risk_keywords : list string :=
  [ "chatbot"; "emotion recognition"; "deepfake"; "AI generated"; "synthetic content";
    "virtual assistant"; "virtual influencer"; "AI companion" ].

(** [" ".join([chunk["text"].lower() for chunk in user_docs])] *)
Definition legacy_text (user_docs : list Chunk) : string :=
  join " " (map (fun chunk => lower (chunk_text chunk)) user_docs).

(** [sum(1 for keyword in keywords if keyword in text)] *)
Definition keyword_count (keywords : list string) (text : string) : nat :=
  List.length (filter (fun keyword => contains keyword text) keywords).

Definition _determine_system_type (user_docs : list Chunk) : string :=
  let text := legacy_text user_docs in
  let prohibited_count := keyword_count prohibited_keywords text in
  let high_risk_count := keyword_count high_risk_keywords text in
  let general_purpose_count := keyword_count general_purpose_keywords text in
  let limited_risk_count := keyword_count limited_risk_keywords text in
  if Nat.ltb 0 prohibited_count then "prohibited"
  else if Nat.ltb 0 high_risk_count then "high-risk"
  else if Nat.ltb 0 general_purpose_count then "general-purpose"
  else if Nat.ltb 0 limited_risk_count then "limited-risk"
  else "minimal-risk".

(** The system types, as the docstrings of both classifiers list them. *)
Definition system_type_names : list string :=
  [ "prohibited"; "high-risk"; "general-purpose"; "limited-risk"; "minimal-risk" ].

End Legacy.

(** *** [get_prompts] and [get_prompt] of [classification_prompts.py] *)

Module ClassificationPrompts.
Import PyStr ComplianceAnalyzer.

Section Prompts.

(** The state outside the module (the prompts PDF on disk) and what the
    loader raises. *)
Variables (L E : Type).

(** [update_classification_prompts()]: the prompts read from the PDF. *)
Variable update_classification_prompts : L -> (E + list (string * string)) * L.

(** The four built-in templates.  Their text plays no part below. *)
Variables (SYSTEM_TYPE_CLASSIFICATION_PROMPT SOCIAL_SCORING_ASSESSMENT_PROMPT
           MANIPULATION_ASSESSMENT_PROMPT HIGH_RISK_ASSESSMENT_PROMPT : string).

(** The module-level cache, with the outside state. *)
Record state : Type := { _PROMPTS_CACHE : option (list (string * string)); outside : L }.

Definition _get_default_prompts : list (string * string) :=
  [ ("system_classification", SYSTEM_TYPE_CLASSIFICATION_PROMPT);
    ("prohibited_social_scoring", SOCIAL_SCORING_ASSESSMENT_PROMPT);
    ("prohibited_manipulation", MANIPULATION_ASSESSMENT_PROMPT);
    ("high_risk_assessment", HIGH_RISK_ASSESSMENT_PROMPT);
    ("data_governance", "");
    ("human_oversight", "") ].

Definition get_prompts (w : state) : list (string * string) * state :=
  match _PROMPTS_CACHE w with
  | Some prompts => (prompts, w)
  | None =>
      let '(loaded, outside') := update_classification_prompts (outside w) in
      let prompts :=
        match loaded with
        | inr [] => _get_default_prompts          (* nothing loaded *)
        | inr prompts => prompts
        | inl _ => _get_default_prompts           (* the loader raised *)
        end in
      (prompts, {| _PROMPTS_CACHE := Some prompts; outside := outside' |})
  end.

Definition get_prompt (prompt_name : string) (w : state) : string * state :=
  let '(prompts, w') := get_prompts w in
  match dict_get prompt_name prompts with
  | Some prompt => (prompt, w')
  | None =>
      (match dict_get prompt_name _get_default_prompts with
       | Some prompt => prompt
       | None => ""
       end, w')
  end.

End Prompts.

End ClassificationPrompts.

(** *** [analyze_compliance] of [main.py] *)

Module Main.
Import PyStr ComplianceAnalyzer.

(** [for doc_id, chunks in processed_docs.items(): all_chunks.extend(chunks)] *)
Definition all_chunks (processed_docs : list (string * list Chunk)) : list Chunk :=
  fold_left (fun acc doc => (acc ++ snd doc)%list) processed_docs [].

(** The analyzer is called with its default [top_k]. *)
Definition analyze_compliance {W Exn : Type} (env : Collaborators W Exn)
    (processed_docs : list (string * list Chunk)) (system_name : string)
  : M W Exn Results :=
  ComplianceAnalyzer.analyze_compliance env (all_chunks processed_docs) system_name 5.

End Main.

(** *** Notions used in the statements about this code *)

Module MoreNotions.
Import PyStr Re PyFloat ComplianceAnalyzer.

(** [type_scores] of [_determine_system_type_improved] once the keyword
    counts and the pre-check weights are in. *)
Definition combined_scores (response_text_lower : string)
    (social_scoring_score limited_risk_score product_recommender_score high_risk_score : Z)
  : list (string * Z) :=
  add_weight "high-risk" high_risk_score
    (add_weight "minimal-risk" product_recommender_score
       (add_weight "limited-risk" limited_risk_score
          (add_weight "prohibited" social_scoring_score
             (count_types response_text_lower)))).

(** The loop for the highest score, from any starting pair. *)
Definition highest_from (start : string * Z) (type_scores : list (string * Z)) : string * Z :=
  fold_left (fun '(max_type, max_score) '(stype, score) =>
               if (max_score <? score)%Z then (stype, score) else (max_type, max_score))
            type_scores start.

(** The indicators of a list that are found in a text. *)
Definition found_indicators (indicators : list (string * Z)) (text_lower : string)
  : list (string * Z) :=
  filter (fun pw => matches NOFLAGS (fst pw) text_lower) indicators.

(** The pre-checks of [_determine_system_type_improved]: the type each one
    returns and the indicators it weighs. *)
Definition pre_check_tables : list (string * list (string * Z)) :=
  [ ("prohibited", social_scoring_indicators);
    ("limited-risk", limited_risk_indicators);
    ("minimal-risk", product_recommender_indicators);
    ("high-risk", high_risk_indicators) ].

(** What [get_prompt] falls back to for a name. *)
Definition default_of (defaults : list (string * string)) (prompt_name : string) : string :=
  match dict_get prompt_name defaults with Some prompt => prompt | None => "" end.

End MoreNotions.

(** *** One pattern as the beginning of another *)

Module RePrefix.
Import PyStr Re ReSem.

(** [Prefix p r]: up to capturing parentheses, the sequence [r] begins with
    the sequence [p]. *)
Inductive Prefix : regex -> regex -> Prop :=
| prefix_last p r1 r2 : erase p = erase r1 -> Prefix p (RCat r1 r2)
| prefix_cons p1 p2 r1 r2 :
    erase p1 = erase r1 -> Prefix p2 r2 -> Prefix (RCat p1 p2) (RCat r1 r2).

End RePrefix.

(** *** More stand-ins: collaborators that fail *)

Module MoreDoubles.
Import PyStr Re ComplianceAnalyzer.

(** An oracle that is never reached: every call raises. *)
Definition silent : Collaborators unit string :=
  {| get_prompt := fun name w => ("{documentation}", w);
     str_format := fun template fields => inr template;
     llm_invoke := fun prompt w => Raises "oracle unavailable";
     retrieve := fun query namespace k w => Returns [] w;
     save_json := fun results file w => Returns tt w |}.

(** A file system that takes no write. *)
Definition read_only (answer : string) : Collaborators unit string :=
  {| get_prompt := fun name w => ("{documentation}", w);
     str_format := fun template fields => inr template;
     llm_invoke := fun prompt w => Returns answer w;
     retrieve := fun query namespace k w => Returns [] w;
     save_json := fun results file w => Raises "read-only file system" |}.

(** A loader that finds no prompts file, and the state before any prompt
    was asked for. *)
Definition no_file (l : unit) : (string + list (string * string)) * unit :=
  (inl "no such file", l).

Definition cold : ClassificationPrompts.state unit :=
  {| ClassificationPrompts._PROMPTS_CACHE := None; ClassificationPrompts.outside := tt |}.

End MoreDoubles.

(** *** What the groups of a pattern capture, what a pattern needs *)

Module Shapes.
Import PyStr Re PyFloat ComplianceAnalyzer ReSem.

(** [shaped fl P r]: every group of [r] is a plain sequence of atoms, and
    every text that fits group [m] satisfies [P m]. *)
Fixpoint shaped (fl : flags) (P : nat -> list ascii -> Prop) (r : regex) : Prop :=
  match r with
  | RGroup m r1 =>
      match atoms_of r1 with
      | Some atoms => forall t, fits fl atoms t = true -> P m t
      | None => False
      end
  | RCat r1 r2 | RAlt r1 r2 => shaped fl P r1 /\ shaped fl P r2
  | ROpt _ r1 | RAhead r1 | RBehind _ r1 => shaped fl P r1
  | _ => True
  end.

(** Every capture satisfies [P]. *)
Definition sound (P : nat -> list ascii -> Prop) (caps : captures) : Prop :=
  forall m t, In (m, t) caps -> P m t.

Definition preserves (P : nat -> list ascii -> Prop) (k : cont) : Prop :=
  forall bk s caps res, k bk s caps = Some res -> sound P caps -> sound P (snd res).

(** The 256 characters. *)
Definition all_ascii : list ascii := map ascii_of_nat (seq 0 256).

(** [demands fl ok r]: every match of [r] consumes a character that [ok]
    accepts. *)
Fixpoint demands (fl : flags) (ok : ascii -> bool) (r : regex) : bool :=
  match r with
  | RAtom a => forallb (fun c => implb (atom_ok fl a c) (ok c)) all_ascii
  | RRep _ true a => forallb (fun c => implb (atom_ok fl a c) (ok c)) all_ascii
  | RCat r1 r2 => demands fl ok r1 || demands fl ok r2
  | RAlt r1 r2 => demands fl ok r1 && demands fl ok r2
  | RGroup _ r1 => demands fl ok r1
  | _ => false
  end.

(** A score string that converts to a number between 0.0 and 9.9. *)
Definition score_ok (pattern score_str : string) : Prop :=
  exists score, convert_score pattern score_str = Some score
                /\ PrimFloat.leb 0.0%float score = true
                /\ PrimFloat.leb score 9.9%float = true.

Definition digit_chars : list ascii :=
  [ "0"; "1"; "2"; "3"; "4"; "5"; "6"; "7"; "8"; "9" ]%char.

Definition digit_atom : atom := ASet false [IRange "0"%char "9"%char].

End Shapes.

(* ===================================================================== *)
(** ** Properties                                                          *)
(* ===================================================================== *)

Import PyStr Re PyFloat ComplianceAnalyzer Doubles Notions.

(** Every pattern the analyzer hands to [re] lies in the fragment. *)
Lemma patterns_compile :
  forallb (fun p => match compile p with Some _ => true | None => false end)
          all_patterns = true.
Proof. vm_compute. reflexivity. Qed.

(** *** Captured groups *)

Section Groups.
Variable n : nat.
Local Abbreviation has_group := (Notions.has_group n).
Local Abbreviation keeps := (Notions.keeps n).
Local Abbreviation lands := (Notions.lands n).

Lemma has_group_cons m t caps : has_group caps -> has_group ((m, t) :: caps).
Proof. unfold has_group. cbn. destruct (Nat.eqb m n); [discriminate | auto]. Qed.

Lemma rep_greedy_keeps fl a k : keeps k -> keeps (rep_greedy fl a k).
Proof.
  intros Hk bk s. revert bk.
  induction s as [|c s IH]; intros bk caps m H Hc; cbn in H.
  - exact (Hk _ _ _ _ H Hc).
  - destruct (atom_ok fl a c); [|exact (Hk _ _ _ _ H Hc)].
    destruct (rep_greedy fl a k (c :: bk) s caps) eqn:E.
    + injection H as <-. exact (IH _ _ _ E Hc).
    + exact (Hk _ _ _ _ H Hc).
Qed.

Lemma rep_lazy_keeps fl a k : keeps k -> keeps (rep_lazy fl a k).
Proof.
  intros Hk bk s. revert bk.
  induction s as [|c s IH]; intros bk caps m H Hc; cbn in H.
  - destruct (k bk [] caps) eqn:E; [|discriminate H].
    injection H as <-. exact (Hk _ _ _ _ E Hc).
  - destruct (k bk (c :: s) caps) eqn:E.
    + injection H as <-. exact (Hk _ _ _ _ E Hc).
    + destruct (atom_ok fl a c); [exact (IH _ _ _ H Hc) | discriminate H].
Qed.

Lemma rep_greedy_lands fl a k : lands k -> lands (rep_greedy fl a k).
Proof.
  intros Hk bk s. revert bk.
  induction s as [|c s IH]; intros bk caps m H; cbn in H.
  - exact (Hk _ _ _ _ H).
  - destruct (atom_ok fl a c); [|exact (Hk _ _ _ _ H)].
    destruct (rep_greedy fl a k (c :: bk) s caps) eqn:E.
    + injection H as <-. exact (IH _ _ _ E).
    + exact (Hk _ _ _ _ H).
Qed.

Lemma rep_lazy_lands fl a k : lands k -> lands (rep_lazy fl a k).
Proof.
  intros Hk bk s. revert bk.
  induction s as [|c s IH]; intros bk caps m H; cbn in H.
  - destruct (k bk [] caps) eqn:E; [|discriminate H].
    injection H as <-. exact (Hk _ _ _ _ E).
  - destruct (k bk (c :: s) caps) eqn:E.
    + injection H as <-. exact (Hk _ _ _ _ E).
    + destruct (atom_ok fl a c); [exact (IH _ _ _ H) | discriminate H].
Qed.

Lemma stop_keeps (test : list ascii -> bool) :
  keeps (fun bk' s' caps' => if test bk' then Some (bk', s', caps') else None).
Proof.
  intros bk s caps m H Hc. destruct (test bk); [|discriminate H].
  injection H as <-. exact Hc.
Qed.

Lemma rx_keeps fl r : forall k, keeps k -> keeps (rx fl r k).
Proof.
  induction r as [| a | g least a | g r1 IH1 | r1 IH1 r2 IH2 | r1 IH1 r2 IH2
                  | m r1 IH1 | | | | r1 IH1 | w r1 IH1];
    intros k Hk bk s caps res H Hc; cbn [rx] in H.
  - exact (Hk _ _ _ _ H Hc).
  - destruct s as [|c s]; [discriminate H|].
    destruct (atom_ok fl a c); [exact (Hk _ _ _ _ H Hc) | discriminate H].
  - destruct least.
    + destruct s as [|c s]; [discriminate H|].
      destruct (atom_ok fl a c); [|discriminate H].
      destruct g; [exact (rep_greedy_keeps _ _ _ Hk _ _ _ _ H Hc)
                  | exact (rep_lazy_keeps _ _ _ Hk _ _ _ _ H Hc)].
    + destruct g; [exact (rep_greedy_keeps _ _ _ Hk _ _ _ _ H Hc)
                  | exact (rep_lazy_keeps _ _ _ Hk _ _ _ _ H Hc)].
  - destruct g.
    + destruct (rx fl r1 k bk s caps) eqn:E.
      * injection H as <-. exact (IH1 _ Hk _ _ _ _ E Hc).
      * exact (Hk _ _ _ _ H Hc).
    + destruct (k bk s caps) eqn:E.
      * injection H as <-. exact (Hk _ _ _ _ E Hc).
      * exact (IH1 _ Hk _ _ _ _ H Hc).
  - refine (IH1 _ _ _ _ _ _ H Hc). intros bk' s' caps' m'. apply IH2, Hk.
  - destruct (rx fl r1 k bk s caps) eqn:E.
    + injection H as <-. exact (IH1 _ Hk _ _ _ _ E Hc).
    + exact (IH2 _ Hk _ _ _ _ H Hc).
  - refine (IH1 _ _ _ _ _ _ H Hc).
    intros bk' s' caps' m' H' Hc'. exact (Hk _ _ _ _ H' (has_group_cons _ _ _ Hc')).
  - destruct bk; [exact (Hk _ _ _ _ H Hc) | discriminate H].
  - destruct s as [|c [|c' s]]; [exact (Hk _ _ _ _ H Hc) | | discriminate H].
    destruct (Ascii.eqb c newline); [exact (Hk _ _ _ _ H Hc) | discriminate H].
  - destruct (xorb _ _); [exact (Hk _ _ _ _ H Hc) | discriminate H].
  - destruct (rx fl r1 _ bk s caps) as [[[b1 s1] c1]|] eqn:E; [|discriminate H].
    apply (Hk _ _ _ _ H).
    exact (IH1 _ (stop_keeps (fun _ => true)) _ _ _ _ E Hc).
  - destruct (Nat.ltb _ _); [discriminate H|].
    destruct (rx fl r1 _ _ _ caps) as [[[b1 s1] c1]|] eqn:E; [|discriminate H].
    apply (Hk _ _ _ _ H).
    exact (IH1 _ (stop_keeps (fun bk' => Nat.eqb (List.length bk') (List.length bk)))
               _ _ _ _ E Hc).
Qed.

Lemma rx_lands fl r : forall k, lands k -> lands (rx fl r k).
Proof.
  induction r as [| a | g least a | g r1 IH1 | r1 IH1 r2 IH2 | r1 IH1 r2 IH2
                  | m r1 IH1 | | | | r1 IH1 | w r1 IH1];
    intros k Hk bk s caps res H; cbn [rx] in H.
  - exact (Hk _ _ _ _ H).
  - destruct s as [|c s]; [discriminate H|].
    destruct (atom_ok fl a c); [exact (Hk _ _ _ _ H) | discriminate H].
  - destruct least.
    + destruct s as [|c s]; [discriminate H|].
      destruct (atom_ok fl a c); [|discriminate H].
      destruct g; [exact (rep_greedy_lands _ _ _ Hk _ _ _ _ H)
                  | exact (rep_lazy_lands _ _ _ Hk _ _ _ _ H)].
    + destruct g; [exact (rep_greedy_lands _ _ _ Hk _ _ _ _ H)
                  | exact (rep_lazy_lands _ _ _ Hk _ _ _ _ H)].
  - destruct g.
    + destruct (rx fl r1 k bk s caps) eqn:E.
      * injection H as <-. exact (IH1 _ Hk _ _ _ _ E).
      * exact (Hk _ _ _ _ H).
    + destruct (k bk s caps) eqn:E.
      * injection H as <-. exact (Hk _ _ _ _ E).
      * exact (IH1 _ Hk _ _ _ _ H).
  - refine (IH1 _ _ _ _ _ _ H). intros bk' s' caps' m'. apply IH2, Hk.
  - destruct (rx fl r1 k bk s caps) eqn:E.
    + injection H as <-. exact (IH1 _ Hk _ _ _ _ E).
    + exact (IH2 _ Hk _ _ _ _ H).
  - refine (IH1 _ _ _ _ _ _ H). intros bk' s' caps' m' H'. exact (Hk _ _ _ _ H').
  - destruct bk; [exact (Hk _ _ _ _ H) | discriminate H].
  - destruct s as [|c [|c' s]]; [exact (Hk _ _ _ _ H) | | discriminate H].
    destruct (Ascii.eqb c newline); [exact (Hk _ _ _ _ H) | discriminate H].
  - destruct (xorb _ _); [exact (Hk _ _ _ _ H) | discriminate H].
  - destruct (rx fl r1 _ bk s caps) as [[[b1 s1] c1]|]; [|discriminate H].
    exact (Hk _ _ _ _ H).
  - destruct (Nat.ltb _ _); [discriminate H|].
    destruct (rx fl r1 _ _ _ caps) as [[[b1 s1] c1]|]; [|discriminate H].
    exact (Hk _ _ _ _ H).
Qed.

Lemma rx_sets fl r : sets_group n r = true -> forall k, keeps k -> lands (rx fl r k).
Proof.
  induction r as [| a | g least a | g r1 IH1 | r1 IH1 r2 IH2 | r1 IH1 r2 IH2
                  | m r1 IH1 | | | | r1 IH1 | w r1 IH1];
    cbn [sets_group]; intros Hs k Hk bk s caps res H; try discriminate Hs; cbn [rx] in H.
  - apply Bool.orb_true_iff in Hs as [Hs | Hs].
    + refine (IH1 Hs _ _ _ _ _ _ H). intros bk' s' caps' m'. apply rx_keeps, Hk.
    + refine (rx_lands fl r1 _ _ _ _ _ _ H). intros bk' s' caps' m'. apply (IH2 Hs), Hk.
  - apply Bool.andb_true_iff in Hs as [Hs1 Hs2].
    destruct (rx fl r1 k bk s caps) eqn:E.
    + injection H as <-. exact (IH1 Hs1 _ Hk _ _ _ _ E).
    + exact (IH2 Hs2 _ Hk _ _ _ _ H).
  - apply Bool.orb_true_iff in Hs as [Hs | Hs].
    + apply Nat.eqb_eq in Hs. subst m.
      refine (rx_lands fl r1 _ _ _ _ _ _ H).
      intros bk' s' caps' m' H'. apply (Hk _ _ _ _ H').
      unfold has_group. cbn. rewrite Nat.eqb_refl. discriminate.
    + refine (IH1 Hs _ _ _ _ _ _ H).
      intros bk' s' caps' m' H' Hc'. exact (Hk _ _ _ _ H' (has_group_cons _ _ _ Hc')).
  - destruct (rx fl r1 _ bk s caps) as [[[b1 s1] c1]|] eqn:E; [|discriminate H].
    apply (Hk _ _ _ _ H).
    exact (IH1 Hs _ (stop_keeps (fun _ => true)) _ _ _ _ E).
Qed.

Lemma scan_sets fl r : sets_group n r = true ->
  forall s bk m, scan fl r bk s = Some m -> has_group (m_caps m).
Proof.
  intros Hs. induction s as [|c s IH]; intros bk m H; cbn [scan] in H;
    unfold match_here in H;
    match type of H with
    | context [rx fl r ?k bk ?t []] =>
        pose proof (rx_sets fl r Hs k (stop_keeps (fun _ => true)) bk t []) as Hl;
        destruct (rx fl r k bk t []) as [[[b1 s1] c1]|] eqn:E
    end;
    try (injection H as <-; exact (Hl _ eq_refl)).
  - discriminate H.
  - exact (IH _ _ H).
Qed.

End Groups.

(** A match of one of the score patterns always carries group 1: the third
    branch of [extract_score_with] is never taken. *)
Lemma score_group_set pattern response_text m :
  In pattern score_patterns ->
  search IGNORECASE pattern response_text = Some m ->
  group m 1 <> None.
Proof.
  intros Hin H. unfold search in H.
  assert (Hc : exists r, compile pattern = Some r /\ sets_group 1 r = true).
  { cbn in Hin.
    repeat (destruct Hin as [<- | Hin];
            [eexists; split; [vm_compute; reflexivity | vm_compute; reflexivity]|]).
    contradiction. }
  destruct Hc as (r & Hr & Hs). rewrite Hr in H.
  pose proof (scan_sets 1 IGNORECASE r Hs _ _ _ H) as G.
  unfold group, has_group in *. destruct (lookup_group 1 (m_caps m)); [discriminate | tauto].
Qed.

(** *** The monad of a run *)

Section Runs.
Context {W Exn : Type}.

Lemma bind_returns {A B : Type} (c : M W Exn A) (k : A -> M W Exn B) w b w' :
  bind c k w = Returns b w' ->
  exists a w1, c w = Returns a w1 /\ k a w1 = Returns b w'.
Proof.
  unfold bind. destruct (c w) as [a w1 | e]; intro H.
  - exists a, w1. split; [reflexivity | exact H].
  - discriminate H.
Qed.

Lemma bind_step {A B : Type} (c : M W Exn A) (k : A -> M W Exn B) w a w1 :
  c w = Returns a w1 -> bind c k w = k a w1.
Proof. unfold bind. intros ->. reflexivity. Qed.

Lemma bind_raises {A B : Type} (c : M W Exn A) (k : A -> M W Exn B) w e :
  c w = Raises e -> bind c k w = Raises e.
Proof. unfold bind. intros ->. reflexivity. Qed.

Variable env : Collaborators W Exn.

Lemma prompt_of_returns name w :
  prompt_of env name w = Returns (fst (get_prompt env name w)) (snd (get_prompt env name w)).
Proof. unfold prompt_of. destruct (get_prompt env name w). reflexivity. Qed.

Lemma format_total template fields w :
  reliable env -> exists text, format env template fields w = Returns text w.
Proof.
  intros [Hf _]. destruct (Hf template fields) as [text Ht].
  exists text. unfold format. rewrite Ht. reflexivity.
Qed.

(** *** The pre-checks of [_determine_system_type_improved] *)

Lemma determine_pre_check documentation_text st w :
  pre_check (lower documentation_text) = Some st ->
  _determine_system_type_improved env documentation_text w = Returns st w.
Proof.
  unfold pre_check, _determine_system_type_improved.
  destruct (15 <=? _)%Z; [intro H; injection H as <-; reflexivity|].
  destruct (10 <=? _)%Z; [intro H; injection H as <-; reflexivity|].
  destruct (10 <=? _)%Z; [intro H; injection H as <-; reflexivity|].
  destruct (10 <=? _)%Z; [intro H; injection H as <-; reflexivity|].
  discriminate.
Qed.

Lemma determine_deferred documentation_text w :
  pre_check (lower documentation_text) = None ->
  _determine_system_type_improved env documentation_text w =
  bind (prompt_of env "system_classification")
    (fun classification_prompt =>
       bind (format env classification_prompt [("documentation", documentation_text)])
         (fun prompt =>
            bind (llm_invoke env prompt)
              (fun response =>
                 ret (classify_response (strip response)
                        (indicator_score social_scoring_indicators (lower documentation_text))
                        (indicator_score limited_risk_indicators (lower documentation_text))
                        (indicator_score product_recommender_indicators (lower documentation_text))
                        (indicator_score high_risk_indicators (lower documentation_text)))))) w.
Proof.
  unfold pre_check, _determine_system_type_improved.
  destruct (15 <=? _)%Z; [discriminate|].
  destruct (10 <=? _)%Z; [discriminate|].
  destruct (10 <=? _)%Z; [discriminate|].
  destruct (10 <=? _)%Z; [discriminate|].
  reflexivity.
Qed.

Lemma determine_total documentation_text w :
  reliable env ->
  exists st w', _determine_system_type_improved env documentation_text w = Returns st w'.
Proof.
  intro Hr. destruct (pre_check (lower documentation_text)) as [st|] eqn:Hp.
  - exists st, w. apply determine_pre_check, Hp.
  - rewrite (determine_deferred _ _ Hp).
    rewrite (bind_step _ _ _ _ _ (prompt_of_returns _ _)).
    destruct (format_total (fst (get_prompt env "system_classification" w))
                [("documentation", documentation_text)]
                (snd (get_prompt env "system_classification" w)) Hr) as [p Hp'].
    rewrite (bind_step _ _ _ _ _ Hp').
    destruct Hr as (_ & Hl & _).
    destruct (Hl p (snd (get_prompt env "system_classification" w))) as (resp & w' & Hresp).
    rewrite (bind_step _ _ _ _ _ Hresp).
    eexists _, _. reflexivity.
Qed.

(** *** The override pass *)

Lemma override_evidence st t :
  any_match IGNORECASE prohibited_indicators t = true ->
  override_pass st t = ("prohibited", true).
Proof. unfold override_pass. intros ->. reflexivity. Qed.

Lemma override_prohibited st t :
  st = "prohibited" -> fst (override_pass st t) = "prohibited".
Proof.
  intros ->. unfold override_pass.
  destruct (any_match IGNORECASE prohibited_indicators t); reflexivity.
Qed.

Lemma override_free st t :
  any_match IGNORECASE prohibited_indicators t = false ->
  st <> "prohibited" ->
  override_pass st t =
  (if any_match IGNORECASE chatbot_indicators t then "limited-risk"
   else if any_match IGNORECASE medical_indicators t then "high-risk"
   else st, false).
Proof.
  intros Hp Hst. unfold override_pass. rewrite Hp.
  apply String.eqb_neq in Hst. rewrite Hst. cbn [negb andb].
  destruct (any_match IGNORECASE medical_indicators t),
           (any_match IGNORECASE chatbot_indicators t); reflexivity.
Qed.

(** The two branches of a run are told apart by the final system type. *)
Lemma override_branch st t :
  (String.eqb (fst (override_pass st t)) "prohibited" || snd (override_pass st t))%bool
  = String.eqb (fst (override_pass st t)) "prohibited".
Proof.
  unfold override_pass.
  destruct (any_match IGNORECASE prohibited_indicators t); [reflexivity|].
  destruct (String.eqb st "prohibited") eqn:E; cbn [negb andb fst snd].
  - rewrite E. reflexivity.
  - apply Bool.orb_false_r.
Qed.

(** *** The prohibited branch *)

Lemma analyze_prohibited_total text w :
  reliable env -> exists pa w', _analyze_prohibited_system env text w = Returns pa w'.
Proof.
  intro Hr. unfold _analyze_prohibited_system.
  rewrite (bind_step _ _ _ _ _ (prompt_of_returns _ _)).
  destruct (format_total (fst (get_prompt env "prohibited_social_scoring" w))
              [("documentation", text)]
              (snd (get_prompt env "prohibited_social_scoring" w)) Hr) as [p1 H1].
  rewrite (bind_step _ _ _ _ _ H1).
  pose proof Hr as (_ & Hl & _).
  destruct (Hl p1 (snd (get_prompt env "prohibited_social_scoring" w))) as (r1 & w1 & Hr1).
  rewrite (bind_step _ _ _ _ _ Hr1).
  rewrite (bind_step _ _ _ _ _ (prompt_of_returns _ _)).
  destruct (format_total (fst (get_prompt env "prohibited_manipulation" w1))
              [("documentation", text)]
              (snd (get_prompt env "prohibited_manipulation" w1)) Hr) as [p2 H2].
  rewrite (bind_step _ _ _ _ _ H2).
  destruct (Hl p2 (snd (get_prompt env "prohibited_manipulation" w1))) as (r2 & w2 & Hr2).
  rewrite (bind_step _ _ _ _ _ Hr2).
  eexists _, _. reflexivity.
Qed.

Lemma prohibited_branch_returns all_text results r w w' :
  prohibited_branch env all_text results w = Returns r w' ->
  category_scores results = [] ->
  system_name r = system_name results
  /\ system_type r = system_type results
  /\ overall_score r = 0.0%float
  /\ category_scores r = zeroed
  /\ recommendations r = [prohibited_recommendation]
  /\ compliance_gaps r = compliance_gaps results
  /\ detailed_analysis r = detailed_analysis results.
Proof.
  unfold prohibited_branch. intros H Hcs.
  apply bind_returns in H as (pa & w1 & _ & H).
  unfold ret in H. injection H as <- _.
  unfold zero_scores. cbn. rewrite Hcs. cbn. repeat split; reflexivity.
Qed.

Lemma prohibited_branch_total all_text results w :
  reliable env -> exists r w', prohibited_branch env all_text results w = Returns r w'.
Proof.
  intro Hr. unfold prohibited_branch.
  destruct (analyze_prohibited_total all_text w Hr) as (pa & w1 & Hpa).
  rewrite (bind_step _ _ _ _ _ Hpa). eexists _, _. reflexivity.
Qed.

(** *** The category loop *)

Lemma analyze_category_returns user_docs category st w sc an w' :
  _analyze_category env user_docs category st w = Returns (sc, an) w' ->
  a_score an = sc /\ a_category an = category /\ a_system_type an = st
  /\ sc = _extract_score (a_analysis an).
Proof.
  unfold _analyze_category. intro H.
  apply bind_returns in H as (secs & w1 & _ & H).
  apply bind_returns in H as (tpl & w2 & _ & H).
  apply bind_returns in H as (prompt & w3 & _ & H).
  apply bind_returns in H as (resp & w4 & _ & H).
  unfold ret in H. injection H as <- <- _. cbn. repeat split; reflexivity.
Qed.

Lemma analyze_categories_returns user_docs st cats :
  forall total res w total' res' w',
  analyze_categories env user_docs st cats total res w = Returns (total', res') w' ->
  exists ans,
    List.length ans = List.length cats
    /\ total' = fold_left PrimFloat.add (map a_score ans) total
    /\ category_scores res' =
       fold_left (fun d ca => dict_set (fst ca) (a_score (snd ca)) d)
                 (combine cats ans) (category_scores res)
    /\ detailed_analysis res' =
       fold_left (fun d ca => dict_set (fst ca) (snd ca) d)
                 (combine cats ans) (detailed_analysis res)
    /\ system_name res' = system_name res
    /\ system_type res' = system_type res
    /\ prohibition_analysis res' = prohibition_analysis res
    /\ Forall (fun a => a_score a = _extract_score (a_analysis a)) ans.
Proof.
  induction cats as [|category rest IH]; intros total res w total' res' w' H.
  - cbn in H. unfold ret in H. injection H as <- <- _.
    exists []. cbn. repeat split; constructor.
  - cbn [analyze_categories] in H.
    apply bind_returns in H as ([sc an] & w1 & Hc & H).
    apply analyze_category_returns in Hc as (Hs & _ & _ & He).
    apply IH in H as (ans & Hlen & Ht & Hcs & Hda & Hn & Hty & Hpa & Hall).
    exists (an :: ans). cbn [List.length map fold_left combine fst snd].
    rewrite Hs. split; [now rewrite Hlen|]. split; [exact Ht|].
    split; [exact Hcs|]. split; [exact Hda|].
    split; [exact Hn|]. split; [exact Hty|]. split; [exact Hpa|].
    constructor; [now rewrite Hs|exact Hall].
Qed.

(** What a run of the [else] branch leaves in [results]. *)
Lemma category_branch_returns user_docs st results r w w' :
  category_branch env user_docs st results w = Returns r w' ->
  category_scores results = [] ->
  detailed_analysis results = [] ->
  exists ans w1 w2,
    List.length ans = 6
    /\ Forall (fun a => a_score a = _extract_score (a_analysis a)) ans
    /\ detailed_analysis r = combine categories ans
    /\ category_scores r = combine categories (map a_score ans)
    /\ overall_score r =
       PrimFloat.div (fold_left PrimFloat.add (map a_score ans) 0.0%float) 6%float
    /\ compliance_gaps r = _identify_compliance_gaps (detailed_analysis r) st
    /\ _generate_recommendations env (compliance_gaps r) st w1
       = Returns (recommendations r) w2
    /\ system_type r = system_type results
    /\ prohibition_analysis r = prohibition_analysis results.
Proof.
  unfold category_branch. intros H Hcs Hda.
  apply bind_returns in H as ([total res] & w1 & Hloop & H).
  apply bind_returns in H as (recs & w2 & Hrecs & H).
  unfold ret in H. injection H as <- _.
  apply analyze_categories_returns in Hloop
    as (ans & Hlen & Ht & Hcs' & Hda' & _ & Hty & Hpa & Hall).
  rewrite Hcs in Hcs'. rewrite Hda in Hda'.
  exists ans, w1, w2. cbn [List.length categories] in Hlen.
  destruct ans as [|a1 [|a2 [|a3 [|a4 [|a5 [|a6 [|a7 ans]]]]]]]; try discriminate Hlen.
  cbn in Hcs', Hda'.
  split; [reflexivity|]. split; [exact Hall|].
  cbn [detailed_analysis category_scores overall_score compliance_gaps recommendations
       system_type prohibition_analysis set_recommendations set_compliance_gaps
       set_overall_score].
  cbn [detailed_analysis compliance_gaps set_compliance_gaps set_overall_score] in Hrecs.
  split; [exact Hda'|]. split; [exact Hcs'|]. split; [now rewrite Ht|].
  split; [reflexivity|]. split; [exact Hrecs|]. split; [exact Hty|exact Hpa].
Qed.

(** *** A run, read backwards from its result *)

Lemma analyze_compliance_returns user_docs name top_k w r w' :
  analyze_compliance env user_docs name top_k w = Returns r w' ->
  exists st0 w1 w2,
    _determine_system_type_improved env (all_text_of user_docs) w = Returns st0 w1
    /\ let st := fst (override_pass st0 (lower (all_text_of user_docs))) in
       if String.eqb st "prohibited"
       then prohibited_branch env (all_text_of user_docs) (classified name st0 st) w1
            = Returns r w2
       else category_branch env user_docs st (classified name st0 st) w1
            = Returns r w2.
Proof.
  unfold analyze_compliance. intro H.
  apply bind_returns in H as (st0 & w1 & Hd & H).
  exists st0, w1.
  pose proof (override_branch st0 (lower (all_text_of user_docs))) as Hb.
  destruct (override_pass st0 (lower (all_text_of user_docs))) as [st ev].
  cbn [fst snd] in Hb |- *.
  apply bind_returns in H as (res & w2 & Hbr & H).
  apply bind_returns in H as (u & w3 & _ & H).
  unfold ret in H. injection H as <- _.
  exists w2. split; [exact Hd|]. rewrite Hb in Hbr.
  destruct (String.eqb st "prohibited"); exact Hbr.
Qed.

Lemma final_system_type user_docs name top_k w r w' :
  analyze_compliance env user_docs name top_k w = Returns r w' ->
  exists st0 w1,
    _determine_system_type_improved env (all_text_of user_docs) w = Returns st0 w1
    /\ system_type r = Some (fst (override_pass st0 (lower (all_text_of user_docs)))).
Proof.
  intro H. apply analyze_compliance_returns in H as (st0 & w1 & w2 & Hd & H).
  exists st0, w1. split; [exact Hd|]. cbv zeta in H.
  destruct (String.eqb _ "prohibited").
  - apply prohibited_branch_returns in H as (_ & Hty & _); [|reflexivity].
    rewrite Hty. reflexivity.
  - apply category_branch_returns in H
      as (ans & wa & wb & _ & _ & _ & _ & _ & _ & _ & Hty & _); try reflexivity.
    rewrite Hty. reflexivity.
Qed.

(** A run that is classified as prohibited went through the prohibited
    branch, and only such a run did. *)
Lemma prohibited_run user_docs name top_k w r w' :
  analyze_compliance env user_docs name top_k w = Returns r w' ->
  system_type r = Some "prohibited" ->
  exists results w1 w2,
    prohibited_branch env (all_text_of user_docs) results w1 = Returns r w2
    /\ category_scores results = [] /\ compliance_gaps results = []
    /\ detailed_analysis results = [].
Proof.
  intros H Hty. apply analyze_compliance_returns in H as (st0 & w1 & w2 & _ & H).
  cbv zeta in H.
  destruct (String.eqb _ "prohibited") eqn:E.
  - eexists _, w1, w2. split; [exact H|]. repeat split; reflexivity.
  - apply category_branch_returns in H
      as (ans & wa & wb & _ & _ & _ & _ & _ & _ & _ & Hty' & _); try reflexivity.
    rewrite Hty' in Hty. cbn in Hty. injection Hty as Hty.
    rewrite Hty in E. discriminate E.
Qed.

Lemma category_run user_docs name top_k w r w' :
  analyze_compliance env user_docs name top_k w = Returns r w' ->
  system_type r <> Some "prohibited" ->
  exists st results w1 w2,
    category_branch env user_docs st results w1 = Returns r w2
    /\ system_type r = Some st
    /\ category_scores results = [] /\ detailed_analysis results = [].
Proof.
  intros H Hty. apply analyze_compliance_returns in H as (st0 & w1 & w2 & _ & H).
  cbv zeta in H.
  destruct (String.eqb _ "prohibited") eqn:E.
  - apply prohibited_branch_returns in H as (_ & Hty' & _); [|reflexivity].
    apply String.eqb_eq in E. exfalso. apply Hty. rewrite Hty'. cbn. now rewrite E.
  - eexists _, _, w1, w2. split; [exact H|].
    apply category_branch_returns in H
      as (ans & wa & wb & _ & _ & _ & _ & _ & _ & _ & Hty' & _); try reflexivity.
    rewrite Hty'. repeat split; reflexivity.
Qed.

Lemma prohibited_run_total user_docs name top_k w :
  reliable env ->
  any_match IGNORECASE prohibited_indicators (lower (all_text_of user_docs)) = true ->
  exists r w', analyze_compliance env user_docs name top_k w = Returns r w'.
Proof.
  intros Hr Hm. unfold analyze_compliance.
  destruct (determine_total (all_text_of user_docs) w Hr) as (st0 & w1 & Hd).
  rewrite (bind_step _ _ _ _ _ Hd).
  rewrite (override_evidence st0 _ Hm). cbn [String.eqb orb].
  match goal with
  | |- context [prohibited_branch env ?t ?res] =>
      destruct (prohibited_branch_total t res w1 Hr) as (r & w2 & Hb)
  end.
  rewrite Bool.orb_true_r.
  rewrite (bind_step _ _ _ _ _ Hb).
  destruct Hr as (_ & _ & _ & Hs).
  destruct (Hs r (output_file name) w2) as (w3 & Hsave).
  rewrite (bind_step _ _ _ _ _ Hsave). eexists _, _. reflexivity.
Qed.

End Runs.

(** *** Gaps and recommendations *)

Lemma severity_bands score :
  (PrimFloat.ltb score 0.3%float = true -> severity_of score = "high")
  /\ (PrimFloat.ltb score 0.3%float = false -> PrimFloat.ltb score 0.5%float = true ->
      severity_of score = "medium")
  /\ (PrimFloat.ltb score 0.3%float = false -> PrimFloat.ltb score 0.5%float = false ->
      severity_of score = "low").
Proof.
  unfold severity_of. repeat split; intros; repeat
    match goal with H : PrimFloat.ltb _ _ = _ |- _ => rewrite H; clear H end;
    reflexivity.
Qed.

Lemma gaps_identified detailed_analysis st g :
  In g (_identify_compliance_gaps detailed_analysis st) ->
  exists a, In (g_category g, a) detailed_analysis
            /\ PrimFloat.ltb (a_score a) 0.7%float = true
            /\ g_severity g = severity_of (a_score a).
Proof.
  unfold _identify_compliance_gaps. intro H.
  apply in_flat_map in H as ([c a] & Hin & Hg).
  unfold gaps_of in Hg.
  destruct (PrimFloat.ltb (a_score a) 0.7%float) eqn:E; [|contradiction].
  apply in_map_iff in Hg as (txt & <- & _). cbn.
  exists a. repeat split; assumption.
Qed.

Lemma of_category_snoc c pre gap :
  of_category c (pre ++ [gap]) =
  (of_category c pre ++ if String.eqb (g_category gap) c then [gap] else [])%list.
Proof.
  unfold of_category. rewrite filter_app. cbn.
  destruct (String.eqb (g_category gap) c); reflexivity.
Qed.

Lemma group_add_keys gap d :
  map fst (group_add gap d) = map fst d
  \/ (~ In (g_category gap) (map fst d)
      /\ map fst (group_add gap d) = (map fst d ++ [g_category gap])%list).
Proof.
  induction d as [|[k gs] rest IH]; cbn.
  - right. split; [tauto | reflexivity].
  - destruct (String.eqb k (g_category gap)) eqn:E; cbn.
    + left. reflexivity.
    + apply String.eqb_neq in E.
      destruct IH as [IH | [Hn IH]]; rewrite IH.
      * left. reflexivity.
      * right. split; [intros [H | H]; [exact (E H) | exact (Hn H)] | reflexivity].
Qed.

Lemma group_add_entries gap d c gs :
  NoDup (map fst d) ->
  In (c, gs) (group_add gap d) ->
  (c <> g_category gap /\ In (c, gs) d)
  \/ (c = g_category gap
      /\ exists gs0, gs = (gs0 ++ [gap])%list
                     /\ (In (c, gs0) d \/ (gs0 = [] /\ ~ In c (map fst d)))).
Proof.
  induction d as [|[k gs1] rest IH]; cbn; intros Hnd Hin.
  - destruct Hin as [Hin | []]. injection Hin as <- <-.
    right. split; [reflexivity|]. exists []. split; [reflexivity|]. right. tauto.
  - inversion Hnd as [|? ? Hk Hrest]; subst.
    destruct (String.eqb k (g_category gap)) eqn:E.
    + apply String.eqb_eq in E. subst k.
      destruct Hin as [Hin | Hin].
      * injection Hin as <- <-. right. split; [reflexivity|].
        exists gs1. split; [reflexivity|]. left. left. reflexivity.
      * left. split; [|right; exact Hin].
        intros ->. apply Hk. apply (in_map fst) in Hin. exact Hin.
    + apply String.eqb_neq in E.
      destruct Hin as [Hin | Hin].
      * injection Hin as <- <-. left. split; [exact E | left; reflexivity].
      * destruct (IH Hrest Hin) as [[Hc H] | (Hc & gs0 & Hg & H)].
        -- left. split; [exact Hc | right; exact H].
        -- right. split; [exact Hc|]. exists gs0. split; [exact Hg|].
           destruct H as [H | [H0 Hn]]; [left; right; exact H|].
           right. split; [exact H0|]. intros [H | H]; [congruence | exact (Hn H)].
Qed.

Lemma grouped_add gap d seen :
  grouped d seen -> grouped (group_add gap d) (seen ++ [gap]).
Proof.
  intros (Hnd & Hent & Hkeys). repeat split.
  - destruct (group_add_keys gap d) as [-> | [Hn ->]]; [exact Hnd|].
    apply NoDup_app; [exact Hnd | repeat constructor; tauto |].
    intros x Hx [<- | []]. exact (Hn Hx).
  - intros c gs Hin. rewrite of_category_snoc.
    destruct (group_add_entries gap d c gs Hnd Hin) as [[Hc H] | (Hc & gs0 & -> & H)].
    + assert (E : String.eqb (g_category gap) c = false)
        by (apply String.eqb_neq; congruence).
      rewrite E, app_nil_r. apply Hent, H.
    + subst c. rewrite String.eqb_refl. f_equal.
      destruct H as [H | [-> Hn]]; [apply Hent, H|].
      unfold of_category. symmetry.
      destruct (filter _ seen) as [|g l] eqn:Ef; [reflexivity|].
      exfalso. assert (Hg : In g (filter (fun g0 => String.eqb (g_category g0) (g_category gap)) seen))
        by (rewrite Ef; left; reflexivity).
      apply filter_In in Hg as [Hg Hc]. apply String.eqb_eq in Hc.
      apply Hn. rewrite <- Hc. apply Hkeys, Hg.
  - intros g Hg. apply in_app_or in Hg.
    assert (Hsub : forall x, In x (map fst d) -> In x (map fst (group_add gap d))).
    { intros x Hx. destruct (group_add_keys gap d) as [-> | [_ ->]];
        [exact Hx | apply in_or_app; left; exact Hx]. }
    destruct Hg as [Hg | [<- | []]]; [apply Hsub, Hkeys, Hg|].
    destruct (group_add_keys gap d) as [E | [Hn ->]]; [|apply in_or_app; right; left; reflexivity].
    clear - E. induction d as [|[k gs] rest IH]; cbn in *; [discriminate E|].
    destruct (String.eqb k (g_category gap)) eqn:Ek.
    + left. apply String.eqb_eq, Ek.
    + right. cbn in E. injection E as E. apply IH, E.
Qed.

Lemma grouped_fold gaps : forall d seen,
  grouped d seen ->
  grouped (fold_left (fun d gap => group_add gap d) gaps d) (seen ++ gaps).
Proof.
  induction gaps as [|gap gaps IH]; intros d seen H; cbn.
  - rewrite app_nil_r. exact H.
  - replace (seen ++ gap :: gaps)%list with ((seen ++ [gap]) ++ gaps)%list
      by (rewrite <- app_assoc; reflexivity).
    apply IH, grouped_add, H.
Qed.

Lemma group_by_category_spec gaps c gs :
  In (c, gs) (group_by_category gaps) -> gs = of_category c gaps.
Proof.
  intro H. unfold group_by_category in H.
  assert (G : grouped (fold_left (fun d gap => group_add gap d) gaps []) ([] ++ gaps)).
  { apply grouped_fold. repeat split; [constructor | intros ? ? [] | intros ? []]. }
  destruct G as (_ & Hent & _). apply (Hent c gs H).
Qed.

Section Recommendations.
Context {W Exn : Type} (env : Collaborators W Exn).

Lemma recommend_each_returns st groups : forall acc (w : W) recs w',
  recommend_each env st groups acc w = Returns recs w' ->
  forall rec, In rec recs ->
    In rec acc \/ exists gs, In (r_category rec, gs) groups /\ r_priority rec = priority_of gs.
Proof.
  induction groups as [|[category gs] rest IH]; intros acc w recs w' H rec Hin.
  - cbn in H. unfold ret in H. injection H as <- _. left. exact Hin.
  - cbn [recommend_each] in H.
    apply bind_returns in H as (resp & w1 & _ & H).
    destruct (IH _ _ _ _ H rec Hin) as [Hacc | (gs' & Hg & Hp)].
    + apply in_app_or in Hacc as [Hacc | Hnew]; [left; exact Hacc|].
      apply in_map_iff in Hnew as (item & <- & _). cbn.
      right. exists gs. split; [left; reflexivity | reflexivity].
    + right. exists gs'. split; [right; exact Hg | exact Hp].
Qed.

Lemma recommendations_priority compliance_gaps st (w : W) recs w' :
  _generate_recommendations env compliance_gaps st w = Returns recs w' ->
  forall rec, In rec recs ->
    r_priority rec = priority_of (of_category (r_category rec) compliance_gaps).
Proof.
  unfold _generate_recommendations. intros H rec Hin.
  destruct (recommend_each_returns _ _ _ _ _ _ H rec Hin) as [[] | (gs & Hg & Hp)].
  apply group_by_category_spec in Hg. rewrite Hp, Hg. reflexivity.
Qed.

End Recommendations.

Lemma combine_scores (cats : list string) : forall (ans : list Analysis) c a,
  In (c, a) (combine cats ans) -> In (c, a_score a) (combine cats (map a_score ans)).
Proof.
  induction cats as [|c0 cats IH]; intros [|a0 ans] c a H; cbn in *; try contradiction.
  destruct H as [H | H]; [left; injection H as <- <-; reflexivity | right; apply IH, H].
Qed.

(* ===================================================================== *)
(** ** The claims                                                          *)
(* ===================================================================== *)

Section Claims.
Context {W Exn : Type} (env : Collaborators W Exn).

(** C1.  When the lowered text of the documentation matches one of the
    prohibited proof-phrase patterns, every run of [analyze_compliance] that
    returns has the final system type "prohibited", whatever the pre-check
    or the oracle said; and with collaborators that do not raise the run
    does return. *)
Theorem proof_phrase_forces_prohibited user_docs name top_k (w : W) pattern :
  In pattern prohibited_indicators ->
  matches IGNORECASE pattern (lower (all_text_of user_docs)) = true ->
  (forall r w', analyze_compliance env user_docs name top_k w = Returns r w' ->
                system_type r = Some "prohibited")
  /\ (reliable env ->
      exists r w', analyze_compliance env user_docs name top_k w = Returns r w'
                   /\ system_type r = Some "prohibited").
Proof.
  intros Hin Hm.
  assert (Hany : any_match IGNORECASE prohibited_indicators
                   (lower (all_text_of user_docs)) = true).
  { unfold any_match. apply existsb_exists. exists pattern. split; assumption. }
  assert (Hret : forall r w', analyze_compliance env user_docs name top_k w = Returns r w' ->
                              system_type r = Some "prohibited").
  { intros r w' H. apply final_system_type in H as (st0 & w1 & _ & Hty).
    rewrite Hty, (override_evidence st0 _ Hany). reflexivity. }
  split; [exact Hret|].
  intro Hr. destruct (prohibited_run_total env user_docs name top_k w Hr Hany) as (r & w' & H).
  exists r, w'. split; [exact H|]. apply (Hret r w' H).
Qed.

(** C2, as amended.  A run classified as prohibited has overall score 0.0.
    Any other run has the six categories scored in their fixed order and the
    overall score is their sum, added up from 0.0 in that order, divided by
    6 (which is 0.0 as well when the six scores are). *)
Theorem prohibited_zero_otherwise_mean user_docs name top_k (w : W) r w' :
  analyze_compliance env user_docs name top_k w = Returns r w' ->
  (system_type r = Some "prohibited" -> overall_score r = 0.0%float)
  /\ (system_type r <> Some "prohibited" ->
      map fst (category_scores r) = categories
      /\ overall_score r =
         PrimFloat.div
           (fold_left PrimFloat.add (map snd (category_scores r)) 0.0%float) 6%float).
Proof.
  intro H. split; intro Hty.
  - destruct (prohibited_run env _ _ _ _ _ _ H Hty) as (res & w1 & w2 & Hb & Hcs & _).
    apply prohibited_branch_returns in Hb as (_ & _ & Hz & _); assumption.
  - destruct (category_run env _ _ _ _ _ _ H Hty) as (st & res & w1 & w2 & Hb & _ & Hcs & Hda).
    apply category_branch_returns in Hb
      as (ans & wa & wb & Hlen & _ & _ & Hsc & Hov & _); try assumption.
    rewrite Hsc, Hov.
    destruct ans as [|a1 [|a2 [|a3 [|a4 [|a5 [|a6 [|a7 ans]]]]]]]; try discriminate Hlen.
    split; reflexivity.
Qed.

(** C3.  A run classified as prohibited has overall score 0.0, each of the
    six category scores equal to 0.0, and exactly one recommendation, of
    category "prohibited_use" and priority "high". *)
Theorem prohibited_run_zeroed user_docs name top_k (w : W) r w' :
  analyze_compliance env user_docs name top_k w = Returns r w' ->
  system_type r = Some "prohibited" ->
  overall_score r = 0.0%float
  /\ category_scores r =
     [ ("risk_assessment", 0.0%float); ("data_governance", 0.0%float);
       ("technical_robustness", 0.0%float); ("transparency", 0.0%float);
       ("human_oversight", 0.0%float); ("accountability", 0.0%float) ]
  /\ exists rec, recommendations r = [rec]
                 /\ r_category rec = "prohibited_use" /\ r_priority rec = "high".
Proof.
  intros H Hty.
  destruct (prohibited_run env _ _ _ _ _ _ H Hty) as (res & w1 & w2 & Hb & Hcs & _).
  apply prohibited_branch_returns in Hb as (_ & _ & Hz & Hsc & Hrec & _); [|assumption].
  split; [exact Hz|]. split; [exact Hsc|].
  exists prohibited_recommendation. rewrite Hrec. repeat split; reflexivity.
Qed.

(** C4.  The pre-checks run in the order prohibited (threshold 15),
    limited-risk (10), the minimal-risk carve-out (10), high-risk (10), and
    the classifier returns at the first whose weights reach the threshold,
    without asking the oracle.  In particular prohibited weights of 15 or
    more give "prohibited" whatever the high-risk weights are. *)
Theorem pre_checks_in_priority_order documentation_text (w : W) :
  let t := lower documentation_text in
  let social := indicator_score social_scoring_indicators t in
  let limited := indicator_score limited_risk_indicators t in
  let product := indicator_score product_recommender_indicators t in
  let high := indicator_score high_risk_indicators t in
  ((15 <= social)%Z ->
     _determine_system_type_improved env documentation_text w = Returns "prohibited" w)
  /\ ((social < 15)%Z -> (10 <= limited)%Z ->
     _determine_system_type_improved env documentation_text w = Returns "limited-risk" w)
  /\ ((social < 15)%Z -> (limited < 10)%Z -> (10 <= product)%Z ->
     _determine_system_type_improved env documentation_text w = Returns "minimal-risk" w)
  /\ ((social < 15)%Z -> (limited < 10)%Z -> (product < 10)%Z -> (10 <= high)%Z ->
     _determine_system_type_improved env documentation_text w = Returns "high-risk" w).
Proof.
  cbv zeta. unfold _determine_system_type_improved.
  repeat split; intros;
    repeat match goal with
           | |- context [(?a <=? ?b)%Z] => destruct (Z.leb_spec a b); try lia
           end; reflexivity.
Qed.

(** C7, as amended.  Let the first classification differ from "prohibited"
    and the text hold no prohibited proof-phrase.  If a chatbot pattern
    matches, the final type is "limited-risk", also when a medical pattern
    matches too; if a medical pattern matches and no chatbot pattern does,
    it is "high-risk"; if neither matches, the first classification stands.
    A first classification "prohibited", or a proof-phrase, gives
    "prohibited" and neither override is applied. *)
Theorem overrides_when_not_prohibited user_docs name top_k (w : W) st0 w1 r w' :
  _determine_system_type_improved env (all_text_of user_docs) w = Returns st0 w1 ->
  analyze_compliance env user_docs name top_k w = Returns r w' ->
  let t := lower (all_text_of user_docs) in
  (st0 <> "prohibited" ->
   any_match IGNORECASE prohibited_indicators t = false ->
   (any_match IGNORECASE chatbot_indicators t = true ->
      system_type r = Some "limited-risk")
   /\ (any_match IGNORECASE medical_indicators t = true ->
       any_match IGNORECASE chatbot_indicators t = false ->
       system_type r = Some "high-risk")
   /\ (any_match IGNORECASE medical_indicators t = false ->
       any_match IGNORECASE chatbot_indicators t = false ->
       system_type r = Some st0))
  /\ (st0 = "prohibited" \/ any_match IGNORECASE prohibited_indicators t = true ->
      system_type r = Some "prohibited").
Proof.
  intros Hd H t. apply final_system_type in H as (st0' & w1' & Hd' & Hty).
  rewrite Hd in Hd'. injection Hd' as <- <-. fold t in Hty. rewrite Hty.
  split.
  - intros Hst Hp. rewrite (override_free st0 t Hp Hst). cbn [fst].
    repeat split; intros; repeat
      match goal with Hx : any_match _ _ _ = _ |- _ => rewrite Hx; clear Hx end;
      reflexivity.
  - intros [Hst | Hp].
    + rewrite (override_prohibited st0 t Hst). reflexivity.
    + rewrite (override_evidence st0 t Hp). reflexivity.
Qed.

(** C8, as amended.  When no pre-check returns and the oracle raises on the
    classification prompt, [_determine_system_type_improved] raises the same
    exception, and so does [analyze_compliance]: nothing catches it and no
    system type is produced. *)
Theorem oracle_failure_propagates user_docs name top_k (w : W) template w1 prompt e :
  pre_check (lower (all_text_of user_docs)) = None ->
  get_prompt env "system_classification" w = (template, w1) ->
  str_format env template [("documentation", all_text_of user_docs)] = inr prompt ->
  llm_invoke env prompt w1 = Raises e ->
  _determine_system_type_improved env (all_text_of user_docs) w = Raises e
  /\ analyze_compliance env user_docs name top_k w = Raises e.
Proof.
  intros Hp Hg Hf Hl.
  assert (Hd : _determine_system_type_improved env (all_text_of user_docs) w = Raises e).
  { rewrite (determine_deferred env _ _ Hp).
    rewrite (bind_step _ _ _ _ _ (prompt_of_returns env _ _)). rewrite Hg. cbn [fst snd].
    assert (Hfmt : format env template [("documentation", all_text_of user_docs)] w1
                   = Returns prompt w1) by (unfold format; rewrite Hf; reflexivity).
    rewrite (bind_step _ _ _ _ _ Hfmt). apply bind_raises, Hl. }
  split; [exact Hd|]. unfold analyze_compliance. apply bind_raises, Hd.
Qed.

(** C9.  In a run not classified as prohibited, the detailed analysis has
    one entry per category, and every gap belongs to a category whose entry
    has a score strictly below 0.7, that score being the category's entry
    in [category_scores] as well; the gap's severity is "high"
    for a score below 0.3, "medium" for one from 0.3 up and below 0.5, and
    "low" otherwise; and every recommendation has priority "high" when one
    of the gaps of its category has severity "high", and "medium" when none
    has. *)
Theorem gaps_and_priorities user_docs name top_k (w : W) r w' :
  analyze_compliance env user_docs name top_k w = Returns r w' ->
  system_type r <> Some "prohibited" ->
  map fst (detailed_analysis r) = categories
  /\ (forall g, In g (compliance_gaps r) ->
     exists a,
       In (g_category g, a) (detailed_analysis r)
       /\ In (g_category g, a_score a) (category_scores r)
       /\ PrimFloat.ltb (a_score a) 0.7%float = true
       /\ (PrimFloat.ltb (a_score a) 0.3%float = true -> g_severity g = "high")
       /\ (PrimFloat.ltb (a_score a) 0.3%float = false ->
           PrimFloat.ltb (a_score a) 0.5%float = true -> g_severity g = "medium")
       /\ (PrimFloat.ltb (a_score a) 0.3%float = false ->
           PrimFloat.ltb (a_score a) 0.5%float = false -> g_severity g = "low"))
  /\ (forall rec, In rec (recommendations r) ->
        r_priority rec =
        if existsb (fun g => String.eqb (g_severity g) "high")
                   (filter (fun g => String.eqb (g_category g) (r_category rec))
                           (compliance_gaps r))
        then "high" else "medium").
Proof.
  intros H Hty.
  destruct (category_run env _ _ _ _ _ _ H Hty) as (st & res & w1 & w2 & Hb & _ & Hcs & Hda).
  apply category_branch_returns in Hb
    as (ans & wa & wb & Hlen & _ & Hdet & Hsc & _ & Hgaps & Hrecs & _); try assumption.
  split; [|split].
  - rewrite Hdet.
    destruct ans as [|a1 [|a2 [|a3 [|a4 [|a5 [|a6 [|a7 ans]]]]]]]; try discriminate Hlen.
    reflexivity.
  - intros g Hg. rewrite Hgaps in Hg.
    apply gaps_identified in Hg as (a & Hin & Hlt & Hsev).
    exists a. split; [exact Hin|].
    split; [rewrite Hsc; apply combine_scores; rewrite <- Hdet; exact Hin|].
    split; [exact Hlt|]. rewrite Hsev. apply severity_bands.
  - intros rec Hin.
    apply (recommendations_priority env _ _ _ _ _ Hrecs rec Hin).
Qed.

(** C10.  A run classified as prohibited returns an empty list of gaps and
    an empty detailed analysis, although each of its six category scores,
    0.0, is below the threshold 0.7 under which gaps are looked for. *)
Theorem prohibited_run_no_gaps user_docs name top_k (w : W) r w' :
  analyze_compliance env user_docs name top_k w = Returns r w' ->
  system_type r = Some "prohibited" ->
  compliance_gaps r = []
  /\ detailed_analysis r = []
  /\ List.length (category_scores r) = 6
  /\ Forall (fun cs => snd cs = 0.0%float /\ PrimFloat.ltb (snd cs) 0.7%float = true)
            (category_scores r).
Proof.
  intros H Hty.
  destruct (prohibited_run env _ _ _ _ _ _ H Hty)
    as (res & w1 & w2 & Hb & Hcs & Hgaps & Hda).
  apply prohibited_branch_returns in Hb as (_ & _ & _ & Hsc & _ & Hg & Hd); [|assumption].
  rewrite Hg, Hd, Hsc, Hgaps, Hda.
  split; [reflexivity|]. split; [reflexivity|]. split; [reflexivity|].
  unfold zeroed, categories. cbn [map].
  repeat constructor.
Qed.

End Claims.

(** C5, as amended.  A narrative that starts with "compliance score: 0.8"
    gives 0.8; the narrative "75%" gives 0.75; the narrative "score: 6/10"
    gives 0.6, the tenths template needing the word "score" before the
    digit; and a narrative in which none of the six patterns is found gives
    0.5. *)
Theorem extract_score_examples :
  (forall rest, _extract_score ("compliance score: 0.8" ++ rest) = 0.8%float)
  /\ _extract_score "75%" = 0.75%float
  /\ _extract_score "score: 6/10" = 0.6%float
  /\ (forall narrative,
        (forall pattern, In pattern score_patterns ->
                         search IGNORECASE pattern narrative = None) ->
        _extract_score narrative = 0.5%float).
Proof.
  split; [intro rest; vm_compute; reflexivity|].
  split; [vm_compute; reflexivity|].
  split; [vm_compute; reflexivity|].
  intros narrative H. unfold _extract_score.
  assert (G : forall patterns,
             (forall pattern, In pattern patterns ->
                              search IGNORECASE pattern narrative = None) ->
             extract_score_with patterns narrative = 0.5%float).
  { induction patterns as [|pattern rest IH]; intro Hp; cbn [extract_score_with].
    - reflexivity.
    - rewrite (Hp pattern (or_introl eq_refl)). apply IH.
      intros q Hq. apply Hp. right. exact Hq. }
  apply G, H.
Qed.

(** C6, the failing input.  On the narrative "Compliance score: 7.5/10" the
    first pattern captures "7.5" and [_extract_score] returns 7.5, above the
    1.0 its docstring gives as the upper end. *)
Theorem extract_score_out_of_range :
  _extract_score "Compliance score: 7.5/10" = 7.5%float
  /\ PrimFloat.ltb 1.0%float (_extract_score "Compliance score: 7.5/10") = true.
Proof. split; vm_compute; reflexivity. Qed.

(* ===================================================================== *)
(** ** The claims on concrete runs                                         *)
(* ===================================================================== *)

Lemma constant_reliable answer : reliable (constant answer).
Proof.
  repeat split; intros; cbn.
  - eexists. reflexivity.
  - eexists _, _. reflexivity.
  - eexists _, _. reflexivity.
  - destruct w. eexists. reflexivity.
Qed.

(** Runs a closed computation and names its result. *)
Ltac returned c r w' H :=
  let v := eval vm_compute in c in
  match v with
  | Returns ?a ?b =>
      pose (r := a); pose (w' := b);
      assert (H : c = Returns r w') by (vm_compute; reflexivity)
  end.

(** C1 on the social credit documentation, the oracle answering "no" to
    every prompt. *)
Lemma proof_phrase_forces_prohibited_witness :
  In "social\s+credit\s+system" prohibited_indicators
  /\ matches IGNORECASE "social\s+credit\s+system" (lower (all_text_of scoring_docs)) = true
  /\ exists r w', analyze_compliance (constant "no") scoring_docs "Scoring" 5 tt = Returns r w'
                  /\ system_type r = Some "prohibited".
Proof.
  assert (Hin : In "social\s+credit\s+system" prohibited_indicators)
    by (left; reflexivity).
  assert (Hm : matches IGNORECASE "social\s+credit\s+system"
                 (lower (all_text_of scoring_docs)) = true)
    by (vm_compute; reflexivity).
  split; [exact Hin|]. split; [exact Hm|].
  exact (proj2 (proof_phrase_forces_prohibited (constant "no") scoring_docs "Scoring" 5 tt
                  "social\s+credit\s+system" Hin Hm) (constant_reliable "no")).
Defined.

(** C2 as stated fails: a run classified "minimal-risk" whose six narratives
    carry the score 0.0 has overall score 0.0. *)
Lemma zero_score_without_prohibition :
  exists r w',
    analyze_compliance scripted widget_docs "Widget" 5 zero_script = Returns r w'
    /\ overall_score r = 0.0%float
    /\ system_type r = Some "minimal-risk"
    /\ system_type r <> Some "prohibited".
Proof.
  returned (analyze_compliance scripted widget_docs "Widget" 5 zero_script) r w' H.
  exists r, w'. split; [exact H|]. split; [reflexivity|]. split; [reflexivity|].
  discriminate.
Qed.

(** C2, as amended, on the clinic run: not prohibited, and the overall score
    is the sum of the six scores over 6. *)
Lemma prohibited_zero_otherwise_mean_witness :
  exists r w',
    analyze_compliance scripted clinic_docs "MediScan" 5 clinic_script = Returns r w'
    /\ system_type r <> Some "prohibited"
    /\ map fst (category_scores r) = categories
    /\ overall_score r =
       PrimFloat.div
         (fold_left PrimFloat.add (map snd (category_scores r)) 0.0%float) 6%float.
Proof.
  returned (analyze_compliance scripted clinic_docs "MediScan" 5 clinic_script) r w' H.
  exists r, w'. split; [exact H|].
  assert (Hty : system_type r <> Some "prohibited") by discriminate.
  split; [exact Hty|].
  exact (proj2 (prohibited_zero_otherwise_mean scripted clinic_docs "MediScan" 5
                  clinic_script r w' H) Hty).
Defined.

(** C3 on the social credit documentation. *)
Lemma prohibited_run_zeroed_witness :
  exists r w',
    analyze_compliance (constant "no") scoring_docs "Scoring" 5 tt = Returns r w'
    /\ system_type r = Some "prohibited"
    /\ overall_score r = 0.0%float
    /\ category_scores r =
       [ ("risk_assessment", 0.0%float); ("data_governance", 0.0%float);
         ("technical_robustness", 0.0%float); ("transparency", 0.0%float);
         ("human_oversight", 0.0%float); ("accountability", 0.0%float) ]
    /\ exists rec, recommendations r = [rec]
                   /\ r_category rec = "prohibited_use" /\ r_priority rec = "high".
Proof.
  returned (analyze_compliance (constant "no") scoring_docs "Scoring" 5 tt) r w' H.
  exists r, w'. split; [exact H|].
  assert (Hty : system_type r = Some "prohibited") by reflexivity.
  split; [exact Hty|].
  exact (prohibited_run_zeroed (constant "no") scoring_docs "Scoring" 5 tt r w' H Hty).
Defined.

(** C4 on four texts, one per pre-check; the first also carries high-risk
    weights of 13. *)
Lemma pre_checks_in_priority_order_witness :
  (indicator_score high_risk_indicators
     (lower "A social credit system keeps a citizen score. MediScan reads MRI.") = 13)%Z
  /\ _determine_system_type_improved scripted
       "A social credit system keeps a citizen score. MediScan reads MRI." []
     = Returns "prohibited" []
  /\ _determine_system_type_improved scripted
       "ServiceBot is a customer service chatbot that answers support tickets" []
     = Returns "limited-risk" []
  /\ _determine_system_type_improved scripted
       "ShopSmart is a product recommendation engine" []
     = Returns "minimal-risk" []
  /\ _determine_system_type_improved scripted
       "MediScan analyzes MRI and CT scans to support radiologist diagnostic decisions" []
     = Returns "high-risk" [].
Proof.
  split; [vm_compute; reflexivity|].
  split; [apply (proj1 (pre_checks_in_priority_order scripted
                          "A social credit system keeps a citizen score. MediScan reads MRI." []));
          vm_compute; discriminate|].
  split; [apply (proj1 (proj2 (pre_checks_in_priority_order scripted
                          "ServiceBot is a customer service chatbot that answers support tickets" [])));
          vm_compute; (reflexivity || discriminate)|].
  split; [apply (proj1 (proj2 (proj2 (pre_checks_in_priority_order scripted
                          "ShopSmart is a product recommendation engine" []))));
          vm_compute; (reflexivity || discriminate)|].
  apply (proj2 (proj2 (proj2 (pre_checks_in_priority_order scripted
           "MediScan analyzes MRI and CT scans to support radiologist diagnostic decisions" []))));
    vm_compute; (reflexivity || discriminate).
Defined.

(** C5 as stated fails: the narrative "6/10" matches none of the patterns,
    the tenths template wanting the word "score" first, and gives 0.5. *)
Lemma bare_tenths_not_extracted :
  _extract_score "6/10" = 0.5%float /\ _extract_score "6/10" <> 0.6%float.
Proof.
  split; [vm_compute; reflexivity|].
  intro H. apply (f_equal (fun x => PrimFloat.eqb x 0.6%float)) in H.
  vm_compute in H. discriminate H.
Qed.

(** Nor does containing an example settle the result: the patterns are tried
    in order over the whole narrative, and the first one found decides. *)
Example first_pattern_found_decides :
  _extract_score "Compliance score: 0.3 now, compliance score: 0.8 planned" = 0.3%float
  /\ _extract_score "Compliance score 0.3, with 75% of the controls missing" = 0.3%float
  /\ _extract_score "Score: 0.4. The team rates itself 6/10" = 0.4%float.
Proof. repeat split; vm_compute; reflexivity. Qed.

(** C5, as amended, on a narrative with no figure in it. *)
Lemma extract_score_examples_witness :
  (forall pattern, In pattern score_patterns ->
                   search IGNORECASE pattern "No figure is given." = None)
  /\ _extract_score "No figure is given." = 0.5%float.
Proof.
  assert (H : forall pattern, In pattern score_patterns ->
                              search IGNORECASE pattern "No figure is given." = None).
  { intros pattern Hin. cbn in Hin.
    repeat (destruct Hin as [<- | Hin]; [vm_compute; reflexivity|]). contradiction. }
  split; [exact H|].
  exact (proj2 (proj2 (proj2 extract_score_examples)) "No figure is given." H).
Defined.

(** C7 as stated fails: the text holds a medical pattern, the oracle says
    "high-risk", and the final type is "limited-risk" because a chatbot
    pattern matches as well. *)
Lemma medical_text_ends_limited_risk :
  exists st0 w1 r w',
    _determine_system_type_improved scripted (all_text_of clinic_docs) clinic_script
    = Returns st0 w1
    /\ st0 <> "prohibited"
    /\ any_match IGNORECASE medical_indicators (lower (all_text_of clinic_docs)) = true
    /\ analyze_compliance scripted clinic_docs "MediScan" 5 clinic_script = Returns r w'
    /\ system_type r = Some "limited-risk"
    /\ system_type r <> Some "high-risk".
Proof.
  returned (_determine_system_type_improved scripted (all_text_of clinic_docs) clinic_script)
           st0 w1 Hd.
  returned (analyze_compliance scripted clinic_docs "MediScan" 5 clinic_script) r w' H.
  exists st0, w1, r, w'. split; [exact Hd|]. split; [discriminate|].
  split; [vm_compute; reflexivity|]. split; [exact H|].
  split; [reflexivity | discriminate].
Qed.

(** C7, as amended, on the clinic run: the chatbot pattern decides. *)
Lemma overrides_when_not_prohibited_witness :
  exists st0 w1 r w',
    _determine_system_type_improved scripted (all_text_of clinic_docs) clinic_script
    = Returns st0 w1
    /\ analyze_compliance scripted clinic_docs "MediScan" 5 clinic_script = Returns r w'
    /\ st0 <> "prohibited"
    /\ any_match IGNORECASE prohibited_indicators (lower (all_text_of clinic_docs)) = false
    /\ any_match IGNORECASE chatbot_indicators (lower (all_text_of clinic_docs)) = true
    /\ system_type r = Some "limited-risk".
Proof.
  returned (_determine_system_type_improved scripted (all_text_of clinic_docs) clinic_script)
           st0 w1 Hd.
  returned (analyze_compliance scripted clinic_docs "MediScan" 5 clinic_script) r w' H.
  assert (Hst : st0 <> "prohibited") by discriminate.
  assert (Hp : any_match IGNORECASE prohibited_indicators
                 (lower (all_text_of clinic_docs)) = false) by (vm_compute; reflexivity).
  assert (Hc : any_match IGNORECASE chatbot_indicators
                 (lower (all_text_of clinic_docs)) = true) by (vm_compute; reflexivity).
  exists st0, w1, r, w'. repeat (split; [assumption|]).
  exact (proj1 (proj1 (overrides_when_not_prohibited scripted clinic_docs "MediScan" 5
                         clinic_script st0 w1 r w' Hd H) Hst Hp) Hc).
Defined.

(** C8 as stated fails: no pre-check returns on the widget documentation,
    the oracle raises, and the classifier raises too instead of answering
    "minimal-risk". *)
Lemma oracle_failure_not_caught :
  pre_check (lower (all_text_of widget_docs)) = None
  /\ _determine_system_type_improved scripted (all_text_of widget_docs) []
     = Raises "oracle unavailable"
  /\ forall w', _determine_system_type_improved scripted (all_text_of widget_docs) []
                <> Returns "minimal-risk" w'.
Proof.
  split; [vm_compute; reflexivity|].
  assert (H : _determine_system_type_improved scripted (all_text_of widget_docs) []
              = Raises "oracle unavailable") by (vm_compute; reflexivity).
  split; [exact H|]. intros w' H'. rewrite H in H'. discriminate H'.
Qed.

(** C8, as amended, on the widget documentation with an oracle that raises. *)
Lemma oracle_failure_propagates_witness :
  pre_check (lower (all_text_of widget_docs)) = None
  /\ _determine_system_type_improved scripted (all_text_of widget_docs) []
     = Raises "oracle unavailable"
  /\ analyze_compliance scripted widget_docs "Widget" 5 [] = Raises "oracle unavailable".
Proof.
  assert (Hp : pre_check (lower (all_text_of widget_docs)) = None)
    by (vm_compute; reflexivity).
  split; [exact Hp|].
  exact (oracle_failure_propagates scripted widget_docs "Widget" 5 []
           "{documentation}" [] "{documentation}" "oracle unavailable"
           Hp eq_refl eq_refl eq_refl).
Defined.

(** C9 on the clinic run: four gaps in three categories, four recommendations. *)
Lemma gaps_and_priorities_witness :
  exists r w',
    analyze_compliance scripted clinic_docs "MediScan" 5 clinic_script = Returns r w'
    /\ system_type r <> Some "prohibited"
    /\ map g_category (compliance_gaps r)
       = ["risk_assessment"; "risk_assessment"; "data_governance"; "technical_robustness"]
    /\ map g_severity (compliance_gaps r) = ["high"; "high"; "medium"; "low"]
    /\ map r_priority (recommendations r) = ["high"; "high"; "medium"; "medium"]
    /\ forall rec, In rec (recommendations r) ->
         r_priority rec =
         if existsb (fun g => String.eqb (g_severity g) "high")
                    (filter (fun g => String.eqb (g_category g) (r_category rec))
                            (compliance_gaps r))
         then "high" else "medium".
Proof.
  returned (analyze_compliance scripted clinic_docs "MediScan" 5 clinic_script) r w' H.
  exists r, w'. split; [exact H|].
  assert (Hty : system_type r <> Some "prohibited") by discriminate.
  split; [exact Hty|]. split; [reflexivity|]. split; [reflexivity|].
  split; [reflexivity|].
  exact (proj2 (proj2 (gaps_and_priorities scripted clinic_docs "MediScan" 5 clinic_script
                         r w' H Hty))).
Defined.

(** C10 on the social credit documentation. *)
Lemma prohibited_run_no_gaps_witness :
  exists r w',
    analyze_compliance (constant "no") scoring_docs "Scoring" 5 tt = Returns r w'
    /\ system_type r = Some "prohibited"
    /\ compliance_gaps r = []
    /\ detailed_analysis r = []
    /\ List.length (category_scores r) = 6
    /\ Forall (fun cs => snd cs = 0.0%float /\ PrimFloat.ltb (snd cs) 0.7%float = true)
              (category_scores r).
Proof.
  returned (analyze_compliance (constant "no") scoring_docs "Scoring" 5 tt) r w' H.
  exists r, w'. split; [exact H|].
  assert (Hty : system_type r = Some "prohibited") by reflexivity.
  split; [exact Hty|].
  exact (prohibited_run_no_gaps (constant "no") scoring_docs "Scoring" 5 tt r w' H Hty).
Defined.

(** *** The scenarios of the specification, run *)

(** No indicator in the documentation and an answer of the oracle in which
    nothing is recognised: the classifier falls back on "minimal-risk". *)
Example unrecognised_answer_is_minimal_risk :
  _determine_system_type_improved scripted (all_text_of widget_docs) ["I would rather not say."]
  = Returns "minimal-risk" [].
Proof. vm_compute. reflexivity. Qed.

(** A negated keyword counts against its type: here "chatbot" is negated,
    "high risk" is not, and the answer reads as "high-risk". *)
Example negated_keyword_counts_against :
  classify_response "Certainly not a chatbot, and as a triage tool for emergency wards it carries a high risk."
    0 0 0 0 = "high-risk".
Proof. vm_compute. reflexivity. Qed.

(** The medical imaging documentation is high-risk by the pre-checks alone
    and stays so through the override pass. *)
Example medical_imaging_is_high_risk :
  exists r w',
    analyze_compliance (constant "Compliance score: 0.8")
      [doc "MediScan analyzes MRI and CT scans to support radiologist diagnostic decisions"]
      "MediScan" 5 tt = Returns r w'
    /\ system_type r = Some "high-risk"
    /\ map fst (category_scores r) = categories
    /\ PrimFloat.ltb 0.0%float (overall_score r) = true.
Proof.
  returned (analyze_compliance (constant "Compliance score: 0.8")
              [doc "MediScan analyzes MRI and CT scans to support radiologist diagnostic decisions"]
              "MediScan" 5 tt) r w' H.
  exists r, w'. split; [exact H|]. repeat split; vm_compute; reflexivity.
Qed.

(** The customer service bot is limited-risk. *)
Example service_bot_is_limited_risk :
  exists r w',
    analyze_compliance (constant "Compliance score: 0.8")
      [doc "ServiceBot is a customer service chatbot that answers support tickets"]
      "ServiceBot" 5 tt = Returns r w'
    /\ system_type r = Some "limited-risk".
Proof.
  returned (analyze_compliance (constant "Compliance score: 0.8")
              [doc "ServiceBot is a customer service chatbot that answers support tickets"]
              "ServiceBot" 5 tt) r w' H.
  exists r, w'. split; [exact H | reflexivity].
Qed.

(* ===================================================================== *)
(** ** More of the code                                                 *)
(* ===================================================================== *)

Import ReSem Legacy MoreNotions RePrefix MoreDoubles Shapes.

(** *** The matcher finds a match exactly when there is one *)

Section Success.
Variable fl : flags.

Lemma rep_greedy_ok a k : blind k -> forall s bk caps,
  rep_greedy fl a k bk s caps <> None <->
  exists bk' s', Reps fl a bk s bk' s' /\ k bk' s' caps <> None.
Proof.
  intros Hb. induction s as [|c s IH]; intros bk caps; cbn [rep_greedy Reps].
  - split.
    + intro H. exists bk, []. split; [left; split; reflexivity | exact H].
    + intros (bk' & s' & [[-> ->] | []] & H). exact H.
  - destruct (atom_ok fl a c) eqn:E.
    + destruct (rep_greedy fl a k (c :: bk) s caps) eqn:G.
      * split; [intros _ | discriminate].
        assert (G' : rep_greedy fl a k (c :: bk) s caps <> None) by (rewrite G; discriminate).
        apply IH in G' as (bk' & s' & HR & Hk).
        exists bk', s'. split; [right; split; [reflexivity | exact HR] | exact Hk].
      * split.
        -- intro H. exists bk, (c :: s). split; [left; split; reflexivity | exact H].
        -- intros (bk' & s' & [[-> ->] | [_ HR]] & Hk); [exact Hk|].
           exfalso. assert (G' : rep_greedy fl a k (c :: bk) s caps <> None)
             by (apply IH; exists bk', s'; split; assumption).
           exact (G' G).
    + split.
      * intro H. exists bk, (c :: s). split; [left; split; reflexivity | exact H].
      * intros (bk' & s' & [[-> ->] | [Hf _]] & Hk); [exact Hk | discriminate Hf].
Qed.

Lemma rep_lazy_ok a k : blind k -> forall s bk caps,
  rep_lazy fl a k bk s caps <> None <->
  exists bk' s', Reps fl a bk s bk' s' /\ k bk' s' caps <> None.
Proof.
  intros Hb. induction s as [|c s IH]; intros bk caps; cbn [rep_lazy Reps].
  - destruct (k bk [] caps) eqn:E.
    + split; [intros _ | discriminate].
      exists bk, []. split; [left; split; reflexivity | rewrite E; discriminate].
    + split; [intro H; contradiction H; reflexivity|].
      intros (bk' & s' & [[-> ->] | []] & H). exfalso. exact (H E).
  - destruct (k bk (c :: s) caps) eqn:E.
    + split; [intros _ | discriminate].
      exists bk, (c :: s). split; [left; split; reflexivity | rewrite E; discriminate].
    + destruct (atom_ok fl a c) eqn:Ea.
      * rewrite IH. split.
        -- intros (bk' & s' & HR & Hk). exists bk', s'.
           split; [right; split; [reflexivity | exact HR] | exact Hk].
        -- intros (bk' & s' & [[-> ->] | [_ HR]] & Hk); [contradiction (Hk E)|].
           exists bk', s'. split; assumption.
      * split; [intro H; contradiction H; reflexivity|].
        intros (bk' & s' & [[-> ->] | [Hf _]] & Hk); [exfalso; exact (Hk E) | discriminate Hf].
Qed.

Lemma blind_ok (k : cont) bk s c1 c2 : blind k -> k bk s c1 <> None -> k bk s c2 <> None.
Proof. intros Hb H E. apply H. exact (Hb _ _ _ _ E). Qed.

Lemma rx_ok r : forall k, blind k -> forall bk s caps,
  rx fl r k bk s caps <> None <->
  exists bk' s', Mt fl r bk s bk' s' /\ k bk' s' caps <> None.
Proof.
  induction r as [| a | g least a | g r1 IH1 | r1 IH1 r2 IH2 | r1 IH1 r2 IH2
                  | m r1 IH1 | | | | r1 IH1 | w r1 IH1];
    intros k Hb bk s caps; cbn [rx Mt].
  - split.
    + intro H. exists bk, s. split; [split; reflexivity | exact H].
    + intros (bk' & s' & [-> ->] & H). exact H.
  - destruct s as [|c s].
    + split; [intro H; contradiction H; reflexivity|].
      intros (bk' & s' & (c & Hs & _) & _). discriminate Hs.
    + destruct (atom_ok fl a c) eqn:E.
      * split.
        -- intro H. exists (c :: bk), s. split; [|exact H].
           exists c. repeat split; [exact E].
        -- intros (bk' & s' & (c' & Hs & _ & ->) & H). injection Hs as <- <-. exact H.
      * split; [intro H; contradiction H; reflexivity|].
        intros (bk' & s' & (c' & Hs & Ha & _) & _). injection Hs as <- <-.
        rewrite E in Ha. discriminate Ha.
  - assert (Hrep : forall s0 bk0,
              (if g then rep_greedy fl a k else rep_lazy fl a k) bk0 s0 caps <> None <->
              exists bk' s', Reps fl a bk0 s0 bk' s' /\ k bk' s' caps <> None).
    { intros s0 bk0. destruct g; [apply rep_greedy_ok | apply rep_lazy_ok]; exact Hb. }
    destruct least.
    + destruct s as [|c s].
      * split; [intro H; contradiction H; reflexivity|].
        intros (bk' & s' & (c & s1 & Hs & _) & _). discriminate Hs.
      * destruct (atom_ok fl a c) eqn:E.
        -- rewrite Hrep. split.
           ++ intros (bk' & s' & HR & Hk). exists bk', s'. split; [|exact Hk].
              exists c, s. repeat split; assumption.
           ++ intros (bk' & s' & (c' & s1 & Hs & _ & HR) & Hk). injection Hs as <- <-.
              exists bk', s'. split; assumption.
        -- split; [intro H; contradiction H; reflexivity|].
           intros (bk' & s' & (c' & s1 & Hs & Ha & _) & _). injection Hs as <- <-.
           rewrite E in Ha. discriminate Ha.
    + apply Hrep.
  - assert (Hor : (rx fl r1 k bk s caps <> None \/ k bk s caps <> None) <->
                  exists bk' s', (Mt fl r1 bk s bk' s' \/ bk' = bk /\ s' = s)
                                 /\ k bk' s' caps <> None).
    { rewrite (IH1 k Hb). split.
      - intros [(bk' & s' & HM & Hk) | Hk].
        + exists bk', s'. split; [left; exact HM | exact Hk].
        + exists bk, s. split; [right; split; reflexivity | exact Hk].
      - intros (bk' & s' & [HM | [-> ->]] & Hk); [left; exists bk', s'; split; assumption|].
        right. exact Hk. }
    rewrite <- Hor. destruct g.
    + destruct (rx fl r1 k bk s caps) eqn:E.
      * split; [intros _; left; discriminate | discriminate].
      * split; [intro H; right; exact H | intros [H | H]; [contradiction H; reflexivity | exact H]].
    + destruct (k bk s caps) eqn:E.
      * split; [intros _; right; discriminate | discriminate].
      * split; [intro H; left; exact H | intros [H | H]; [exact H | contradiction H; reflexivity]].
  - assert (Hb2 : blind (fun bk' s' caps' => rx fl r2 k bk' s' caps')).
    { intros bk0 s0 c1 c2 E.
      destruct (rx fl r2 k bk0 s0 c2) eqn:E2; [|reflexivity].
      exfalso. assert (H2 : rx fl r2 k bk0 s0 c2 <> None) by (rewrite E2; discriminate).
      apply (IH2 k Hb) in H2 as (bk' & s' & HM & Hk).
      assert (H1 : rx fl r2 k bk0 s0 c1 <> None).
      { apply (IH2 k Hb). exists bk', s'. split; [exact HM | exact (blind_ok _ _ _ _ _ Hb Hk)]. }
      exact (H1 E). }
    rewrite (IH1 _ Hb2). split.
    + intros (bk1 & s1 & HM1 & H2). apply (IH2 k Hb) in H2 as (bk' & s' & HM2 & Hk).
      exists bk', s'. split; [exists bk1, s1; split; assumption | exact Hk].
    + intros (bk' & s' & (bk1 & s1 & HM1 & HM2) & Hk).
      exists bk1, s1. split; [exact HM1|]. apply (IH2 k Hb). exists bk', s'. split; assumption.
  - destruct (rx fl r1 k bk s caps) eqn:E.
    + split; [intros _ | discriminate].
      assert (H1 : rx fl r1 k bk s caps <> None) by (rewrite E; discriminate).
      apply (IH1 k Hb) in H1 as (bk' & s' & HM & Hk).
      exists bk', s'. split; [left; exact HM | exact Hk].
    + rewrite (IH2 k Hb). split.
      * intros (bk' & s' & HM & Hk). exists bk', s'. split; [right; exact HM | exact Hk].
      * intros (bk' & s' & [HM | HM] & Hk); [|exists bk', s'; split; assumption].
        exfalso. assert (H1 : rx fl r1 k bk s caps <> None)
          by (apply (IH1 k Hb); exists bk', s'; split; assumption).
        exact (H1 E).
  - assert (Hbg : blind (fun bk' s' caps' =>
                           k bk' s' ((m, firstn (List.length bk' - List.length bk) s) :: caps'))).
    { intros bk0 s0 c1 c2. apply Hb. }
    rewrite (IH1 _ Hbg). split.
    + intros (bk' & s' & HM & Hk). exists bk', s'. split; [exact HM|].
      exact (blind_ok _ _ _ _ _ Hb Hk).
    + intros (bk' & s' & HM & Hk). exists bk', s'. split; [exact HM|].
      exact (blind_ok _ _ _ _ _ Hb Hk).
  - destruct bk as [|b bk].
    + split.
      * intro H. exists [], s. repeat split. exact H.
      * intros (bk' & s' & (_ & -> & ->) & H). exact H.
    + split; [intro H; contradiction H; reflexivity|].
      intros (bk' & s' & (Hf & _) & _). discriminate Hf.
  - destruct s as [|c [|c' s]].
    + split.
      * intro H. exists bk, []. repeat split; [left; reflexivity | exact H].
      * intros (bk' & s' & (_ & -> & ->) & H). exact H.
    + destruct (Ascii.eqb c newline) eqn:E.
      * apply Ascii.eqb_eq in E. subst c. split.
        -- intro H. exists bk, [newline]. repeat split; [right; reflexivity | exact H].
        -- intros (bk' & s' & (_ & -> & ->) & H). exact H.
      * apply Ascii.eqb_neq in E.
        split; [intro H; contradiction H; reflexivity|].
        intros (bk' & s' & ([Hf | Hf] & _) & _); [discriminate Hf|].
        injection Hf as Hf. exfalso. exact (E Hf).
    + split; [intro H; contradiction H; reflexivity|].
      intros (bk' & s' & ([Hf | Hf] & _) & _); discriminate Hf.
  - destruct (xorb (word_at bk) (word_at s)) eqn:E.
    + split.
      * intro H. exists bk, s. repeat split. exact H.
      * intros (bk' & s' & (_ & -> & ->) & H). exact H.
    + split; [intro H; contradiction H; reflexivity|].
      intros (bk' & s' & (Hf & _) & _). discriminate Hf.
  - assert (Hb0 : blind (fun bk' s' caps' => Some (bk', s', caps'))) by (intros ? ? ? ?; discriminate).
    pose proof (IH1 _ Hb0 bk s caps) as Hin.
    destruct (rx fl r1 _ bk s caps) as [[[b1 s1] c1]|] eqn:E.
    + assert (HM : exists bk1 s1, Mt fl r1 bk s bk1 s1).
      { destruct (proj1 Hin) as (bk' & s' & HM & _); [discriminate|]. exists bk', s'. exact HM. }
      split.
      * intro H. exists bk, s. split; [split; [exact HM | split; reflexivity]|].
        exact (blind_ok _ _ _ _ _ Hb H).
      * intros (bk' & s' & (_ & -> & ->) & H). exact (blind_ok _ _ _ _ _ Hb H).
    + split; [intro H; contradiction H; reflexivity|].
      intros (bk' & s' & ((bk1 & s1 & HM) & _) & _).
      apply (proj2 Hin). exists bk1, s1. split; [exact HM | discriminate].
  - destruct (Nat.ltb (List.length bk) w) eqn:El.
    + apply Nat.ltb_lt in El.
      split; [intro H; contradiction H; reflexivity|].
      intros (bk' & s' & (Hf & _) & _). lia.
    + apply Nat.ltb_ge in El.
      assert (Hb0 : blind (fun bk' s' caps' =>
                             if Nat.eqb (List.length bk') (List.length bk)
                             then Some (bk', s', caps') else None)).
      { intros b0 s0 c1 c2. destruct (Nat.eqb _ _); [discriminate | reflexivity]. }
      pose proof (IH1 _ Hb0 (skipn w bk) (rev (firstn w bk) ++ s)%list caps) as Hin.
      destruct (rx fl r1 _ (skipn w bk) (rev (firstn w bk) ++ s)%list caps)
        as [[[b1 s1] c1]|] eqn:E.
      * assert (HM : exists bk1 s1,
                   Mt fl r1 (skipn w bk) (rev (firstn w bk) ++ s)%list bk1 s1
                   /\ List.length bk1 = List.length bk).
        { destruct (proj1 Hin) as (bk' & s' & HM & Hk); [discriminate|].
          exists bk', s'. split; [exact HM|].
          destruct (Nat.eqb (List.length bk') (List.length bk)) eqn:Eq;
            [apply Nat.eqb_eq, Eq | contradiction Hk; reflexivity]. }
        split.
        -- intro H. exists bk, s. split; [repeat split; assumption|].
           exact (blind_ok _ _ _ _ _ Hb H).
        -- intros (bk' & s' & (_ & _ & -> & ->) & H). exact (blind_ok _ _ _ _ _ Hb H).
      * split; [intro H; contradiction H; reflexivity|].
        intros (bk' & s' & (_ & (bk1 & s1 & HM & Hlen) & _) & _).
        apply (proj2 Hin). exists bk1, s1. split; [exact HM|].
        rewrite Hlen, Nat.eqb_refl. discriminate.
Qed.

End Success.

(** *** Searching *)

Lemma match_here_ok fl r bk s :
  match_here fl r false bk s <> None <-> exists bk' s', Mt fl r bk s bk' s'.
Proof.
  unfold match_here.
  match goal with
  | |- context [rx fl r ?k bk s []] =>
      assert (Hb : blind k) by (intros ? ? ? ?; cbn; discriminate);
      pose proof (rx_ok fl r k Hb bk s []) as H;
      destruct (rx fl r k bk s []) as [[[b1 s1] c1]|]
  end.
  - split; [intros _ | discriminate].
    destruct (proj1 H) as (bk' & s' & HM & _); [discriminate|]. exists bk', s'. exact HM.
  - split; [intro G; contradiction G; reflexivity|].
    intros (bk' & s' & HM). exfalso.
    assert (F : @None mres <> None).
    { apply (proj2 H). exists bk', s'. split; [exact HM | cbn; discriminate]. }
    exact (F eq_refl).
Qed.

Lemma scan_ok fl r : forall s bk,
  scan fl r bk s <> None <->
  exists pre rest bk' s', s = (pre ++ rest)%list /\ Mt fl r (rev pre ++ bk)%list rest bk' s'.
Proof.
  induction s as [|c s IH]; intros bk; cbn [scan];
    pose proof (match_here_ok fl r bk) as Hh.
  - specialize (Hh []). destruct (match_here fl r false bk []).
    + split; [intros _ | discriminate].
      destruct (proj1 Hh) as (bk' & s' & HM); [discriminate|].
      exists [], [], bk', s'. split; [reflexivity | exact HM].
    + split; [intro G; contradiction G; reflexivity|].
      intros (pre & rest & bk' & s' & Hs & HM).
      symmetry in Hs. apply app_eq_nil in Hs as [-> ->].
      apply (proj2 Hh). exists bk', s'. exact HM.
  - specialize (Hh (c :: s)). destruct (match_here fl r false bk (c :: s)).
    + split; [intros _ | discriminate].
      destruct (proj1 Hh) as (bk' & s' & HM); [discriminate|].
      exists [], (c :: s), bk', s'. split; [reflexivity | exact HM].
    + rewrite IH. split.
      * intros (pre & rest & bk' & s' & -> & HM).
        exists (c :: pre), rest, bk', s'. split; [reflexivity|].
        cbn [rev]. rewrite <- app_assoc. exact HM.
      * intros (pre & rest & bk' & s' & Hs & HM).
        destruct pre as [|p pre].
        -- exfalso. cbn in Hs, HM. subst rest.
           apply (proj2 Hh); [|reflexivity]. exists bk', s'. exact HM.
        -- cbn in Hs. injection Hs as <- ->.
           exists pre, rest, bk', s'. split; [reflexivity|].
           cbn [rev] in HM. rewrite <- app_assoc in HM. exact HM.
Qed.

Lemma matches_found fl pattern text :
  matches fl pattern text = true <->
  exists r, compile pattern = Some r /\ found fl r (chars text).
Proof.
  unfold matches, search, found. destruct (compile pattern) as [r|].
  - pose proof (scan_ok fl r (chars text) []) as H.
    destruct (scan fl r [] (chars text)).
    + split; [intros _ | reflexivity].
      destruct (proj1 H) as (pre & rest & bk' & s' & Hs & HM); [discriminate|].
      exists r. split; [reflexivity|]. exists pre, rest, bk', s'.
      rewrite app_nil_r in HM. split; assumption.
    + split; [discriminate|].
      intros (r' & Hr & pre & rest & bk' & s' & Hs & HM). injection Hr as <-.
      exfalso. apply (proj2 H); [|reflexivity].
      exists pre, rest, bk', s'. rewrite app_nil_r. split; assumption.
  - split; [discriminate|]. intros (r & Hr & _). discriminate Hr.
Qed.

(** *** Patterns that look only at what they consume *)

Lemma Reps_frame fl a x y : forall s bk bk' s',
  Reps fl a bk s bk' s' -> Reps fl a (bk ++ x) (s ++ y) (bk' ++ x) (s' ++ y).
Proof.
  induction s as [|c s IH]; intros bk bk' s'; cbn [Reps].
  - intros [[-> ->] | []]. destruct y; cbn; left; split; reflexivity.
  - intros [[-> ->] | [Ha HR]].
    + cbn. left. split; reflexivity.
    + cbn [app Reps]. right. split; [exact Ha|]. exact (IH _ _ _ HR).
Qed.

Lemma Mt_frame fl r x y : ctxfree r = true -> forall bk s bk' s',
  Mt fl r bk s bk' s' -> Mt fl r (bk ++ x) (s ++ y) (bk' ++ x) (s' ++ y).
Proof.
  induction r as [| a | g least a | g r1 IH1 | r1 IH1 r2 IH2 | r1 IH1 r2 IH2
                  | m r1 IH1 | | | | r1 IH1 | w r1 IH1];
    cbn [ctxfree Mt]; intros Hc bk s bk' s'; try discriminate Hc.
  - intros [-> ->]. split; reflexivity.
  - intros (c & -> & Ha & ->). exists c. repeat split. exact Ha.
  - destruct least.
    + intros (c & s1 & -> & Ha & HR). exists c, (s1 ++ y)%list.
      repeat split; [exact Ha|]. exact (Reps_frame fl a x y _ _ _ _ HR).
    + apply Reps_frame.
  - intros [H | [-> ->]]; [left; apply (IH1 Hc), H | right; split; reflexivity].
  - apply Bool.andb_true_iff in Hc as [H1 H2].
    intros (bk1 & s1 & HM1 & HM2). exists (bk1 ++ x)%list, (s1 ++ y)%list.
    split; [apply (IH1 H1), HM1 | apply (IH2 H2), HM2].
  - apply Bool.andb_true_iff in Hc as [H1 H2].
    intros [H | H]; [left; apply (IH1 H1), H | right; apply (IH2 H2), H].
  - apply (IH1 Hc).
Qed.

(** A context-free pattern found in a text is found in every text that
    holds it. *)
Lemma found_mono fl r text before after :
  ctxfree r = true -> found fl r text -> found fl r (before ++ text ++ after).
Proof.
  intros Hc (pre & rest & bk' & s' & -> & HM).
  exists (before ++ pre)%list, (rest ++ after)%list, (bk' ++ rev before)%list, (s' ++ after)%list.
  split; [now rewrite <- !app_assoc|].
  rewrite rev_app_distr. apply Mt_frame; assumption.
Qed.

Lemma chars_app a b : chars (a ++ b) = (chars a ++ chars b)%list.
Proof. unfold chars. induction a as [|c a IH]; cbn; [reflexivity | now rewrite IH]. Qed.

Lemma matches_mono fl pattern text before after :
  ctxfree_pattern pattern = true ->
  matches fl pattern text = true ->
  matches fl pattern (before ++ text ++ after) = true.
Proof.
  unfold ctxfree_pattern. intros Hc H.
  apply matches_found in H as (r & Hr & Hf). rewrite Hr in Hc.
  apply matches_found. exists r. split; [exact Hr|].
  rewrite !chars_app. apply found_mono; assumption.
Qed.

(** *** Capturing parentheses do not change what is found *)

Lemma Mt_erase fl r : forall bk s bk' s', Mt fl (erase r) bk s bk' s' <-> Mt fl r bk s bk' s'.
Proof.
  induction r as [| a | g least a | g r1 IH1 | r1 IH1 r2 IH2 | r1 IH1 r2 IH2
                  | m r1 IH1 | | | | r1 IH1 | w r1 IH1];
    intros bk s bk' s'; cbn [erase Mt]; try reflexivity.
  - rewrite IH1. reflexivity.
  - split; intros (bk1 & s1 & H1 & H2); exists bk1, s1;
      (split; [apply IH1, H1 | apply IH2, H2]).
  - rewrite IH1, IH2. reflexivity.
  - apply IH1.
  - split; intros ((bk1 & s1 & H) & E); (split; [exists bk1, s1; apply IH1, H | exact E]).
  - split; intros (Hw & (bk1 & s1 & H & Hl) & E);
      (split; [exact Hw | split; [exists bk1, s1; split; [apply IH1, H | exact Hl] | exact E]]).
Qed.

Lemma matches_erase fl p q r1 r2 text :
  compile p = Some r1 -> compile q = Some r2 -> erase r1 = erase r2 ->
  matches fl p text = matches fl q text.
Proof.
  intros Hp Hq He.
  assert (G : forall a b ra rb, compile a = Some ra -> compile b = Some rb ->
                erase ra = erase rb -> matches fl a text = true -> matches fl b text = true).
  { intros a b ra rb Ha Hb E H. apply matches_found in H as (r & Hr & pre & rest & bk' & s' & Hs & HM).
    rewrite Ha in Hr. injection Hr as <-.
    apply matches_found. exists rb. split; [exact Hb|].
    exists pre, rest, bk', s'. split; [exact Hs|].
    apply Mt_erase. rewrite <- E. apply Mt_erase. exact HM. }
  destruct (matches fl p text) eqn:E1, (matches fl q text) eqn:E2; try reflexivity.
  - rewrite (G p q r1 r2 Hp Hq He E1) in E2. discriminate E2.
  - rewrite (G q p r2 r1 Hq Hp (eq_sym He) E2) in E1. discriminate E1.
Qed.

(** *** The system types a classification can give *)

Lemma clear_pattern_match_key table text st :
  clear_pattern_match table text = Some st -> In st (map fst table).
Proof.
  induction table as [|[k ps] rest IH]; cbn; [discriminate|].
  destruct (any_match IGNORECASE ps text).
  - intro H. injection H as <-. left. reflexivity.
  - intro H. right. exact (IH H).
Qed.

Lemma dict_set_keys {V : Type} key (value : V) d :
  In key (map fst d) -> map fst (dict_set key value d) = map fst d.
Proof.
  induction d as [|[k v] rest IH]; cbn; [contradiction|].
  destruct (String.eqb k key) eqn:E; [reflexivity|].
  intros [H | H]; [apply String.eqb_neq in E; contradiction|].
  cbn. now rewrite IH.
Qed.

Lemma dict_get_in {V : Type} key (d : list (string * V)) v :
  dict_get key d = Some v -> In key (map fst d).
Proof.
  induction d as [|[k v0] rest IH]; cbn; [discriminate|].
  destruct (String.eqb k key) eqn:E.
  - intros _. left. apply String.eqb_eq, E.
  - intro H. right. exact (IH H).
Qed.

Lemma add_weight_keys stype score type_scores :
  map fst (add_weight stype score type_scores) = map fst type_scores.
Proof.
  unfold add_weight. destruct (0 <? score)%Z; [|reflexivity].
  destruct (dict_get stype type_scores) eqn:E; [|reflexivity].
  apply dict_set_keys. exact (dict_get_in _ _ _ E).
Qed.

Lemma count_types_keys text :
  map fst (count_types text) =
  ["prohibited"; "high-risk"; "limited-risk"; "minimal-risk"; "general-purpose"].
Proof. reflexivity. Qed.

Lemma combined_scores_keys text a b c d :
  map fst (combined_scores text a b c d) =
  ["prohibited"; "high-risk"; "limited-risk"; "minimal-risk"; "general-purpose"].
Proof. unfold combined_scores. rewrite !add_weight_keys. apply count_types_keys. Qed.

Lemma classify_response_scores response_text a b c d :
  clear_pattern_match classification_patterns (lower response_text) = None ->
  any_match IGNORECASE article_5_patterns (lower response_text) = false ->
  classify_response response_text a b c d =
  (let '(max_type, max_score) := highest (combined_scores (lower response_text) a b c d) in
   if (0 <? max_score)%Z then max_type else "minimal-risk").
Proof. unfold classify_response, combined_scores. intros -> ->. reflexivity. Qed.

Lemma highest_from_in type_scores : forall start,
  highest_from start type_scores = start \/ In (highest_from start type_scores) type_scores.
Proof.
  induction type_scores as [|[k v] rest IH]; intros [mt ms]; cbn; [left; reflexivity|].
  destruct (ms <? v)%Z.
  - destruct (IH (k, v)) as [H | H]; unfold highest_from in H; [right; left; now rewrite H|].
    right. right. exact H.
  - destruct (IH (mt, ms)) as [H | H]; unfold highest_from in H; [left; exact H|].
    right. right. exact H.
Qed.

Lemma classify_response_type response_text a b c d :
  In (classify_response response_text a b c d) system_type_names.
Proof.
  destruct (clear_pattern_match classification_patterns (lower response_text)) as [st|] eqn:E1.
  - unfold classify_response. rewrite E1.
    apply clear_pattern_match_key in E1. cbn in E1. unfold system_type_names. cbn.
    intuition.
  - destruct (any_match IGNORECASE article_5_patterns (lower response_text)) eqn:E2.
    + unfold classify_response. rewrite E1, E2. left. reflexivity.
    + rewrite (classify_response_scores _ _ _ _ _ E1 E2).
      pose proof (highest_from_in (combined_scores (lower response_text) a b c d)
                    ("minimal-risk", (-1)%Z)) as H.
      change (highest_from ("minimal-risk", (-1)%Z)) with highest in H.
      destruct (highest _) as [mt ms] eqn:Eh.
      destruct (0 <? ms)%Z; [|unfold system_type_names; cbn; tauto].
      destruct H as [H | H].
      * injection H as -> _. unfold system_type_names; cbn; tauto.
      * apply (in_map fst) in H. rewrite combined_scores_keys in H. cbn in H.
        unfold system_type_names. cbn. intuition.
Qed.

Section MoreRuns.
Context {W Exn : Type} (env : Collaborators W Exn).

Lemma determine_type documentation_text (w : W) st w' :
  _determine_system_type_improved env documentation_text w = Returns st w' ->
  In st system_type_names.
Proof.
  destruct (pre_check (lower documentation_text)) as [st0|] eqn:Hp.
  - rewrite (determine_pre_check env _ _ _ Hp). intro H. injection H as <- _.
    unfold pre_check in Hp. unfold system_type_names.
    repeat match type of Hp with
           | (if ?b then _ else _) = _ => destruct b; [injection Hp as <-; cbn; tauto|]
           end.
    discriminate Hp.
  - rewrite (determine_deferred env _ _ Hp). intro H.
    apply bind_returns in H as (tpl & w1 & _ & H).
    apply bind_returns in H as (prompt & w2 & _ & H).
    apply bind_returns in H as (resp & w3 & _ & H).
    unfold ret in H. injection H as <- _. apply classify_response_type.
Qed.

Lemma override_type st t :
  In st system_type_names -> In (fst (override_pass st t)) system_type_names.
Proof.
  intro H. unfold override_pass.
  destruct (any_match IGNORECASE prohibited_indicators t); [cbn; tauto|].
  destruct (negb (String.eqb st "prohibited") && negb false); cbn [fst]; [|exact H].
  destruct (any_match IGNORECASE chatbot_indicators t); [cbn; tauto|].
  destruct (any_match IGNORECASE medical_indicators t); [cbn; tauto | exact H].
Qed.

(** X1.  The classifier, and every run, ends on one of the five system types. *)
Theorem system_type_is_one_of_five user_docs name top_k (w : W) :
  (forall st w', _determine_system_type_improved env (all_text_of user_docs) w = Returns st w' ->
                 In st system_type_names)
  /\ (forall r w', analyze_compliance env user_docs name top_k w = Returns r w' ->
                   exists st, system_type r = Some st /\ In st system_type_names).
Proof.
  split; [intros st w'; apply determine_type|].
  intros r w' H. apply final_system_type in H as (st0 & w1 & Hd & Hty).
  eexists. split; [exact Hty|]. apply override_type. exact (determine_type _ _ _ _ Hd).
Qed.

End MoreRuns.

(** *** The highest score *)





Section Oracle.
Context {W Exn : Type} (env : Collaborators W Exn).

(** *** No result without the oracle *)

Lemma prohibited_branch_asks all_text results (w : W) r w' :
  prohibited_branch env all_text results w = Returns r w' ->
  exists prompt w1 response w2, llm_invoke env prompt w1 = Returns response w2.
Proof.
  unfold prohibited_branch, _analyze_prohibited_system. intro H.
  apply bind_returns in H as (pa & w1 & H & _).
  apply bind_returns in H as (p1 & w2 & _ & H).
  apply bind_returns in H as (f1 & w3 & _ & H).
  apply bind_returns in H as (r1 & w4 & Hl & _).
  exists f1, w3, r1, w4. exact Hl.
Qed.

Lemma category_branch_asks user_docs st results (w : W) r w' :
  category_branch env user_docs st results w = Returns r w' ->
  exists prompt w1 response w2, llm_invoke env prompt w1 = Returns response w2.
Proof.
  unfold category_branch. intro H.
  apply bind_returns in H as (looped & w1 & H & _).
  unfold categories in H. cbn [analyze_categories] in H.
  apply bind_returns in H as (scored & w2 & H & _).
  unfold _analyze_category in H.
  apply bind_returns in H as (secs & w3 & _ & H).
  apply bind_returns in H as (tpl & w4 & _ & H).
  apply bind_returns in H as (prompt & w5 & _ & H).
  apply bind_returns in H as (resp & w6 & Hl & _).
  exists prompt, w5, resp, w6. exact Hl.
Qed.

(** X3.  Every run that returns has had an answer from the oracle; with an
    oracle that raises on every prompt no run returns. *)
Theorem no_result_without_oracle user_docs name top_k (w : W) :
  (forall r w', analyze_compliance env user_docs name top_k w = Returns r w' ->
     exists prompt w1 response w2, llm_invoke env prompt w1 = Returns response w2)
  /\ ((forall prompt w1, exists e, llm_invoke env prompt w1 = Raises e) ->
      exists e, analyze_compliance env user_docs name top_k w = Raises e).
Proof.
  assert (G : forall r w', analyze_compliance env user_docs name top_k w = Returns r w' ->
     exists prompt w1 response w2, llm_invoke env prompt w1 = Returns response w2).
  { intros r w' H. apply analyze_compliance_returns in H as (st0 & w1 & w2 & _ & H).
    cbv zeta in H. destruct (String.eqb _ "prohibited").
    - exact (prohibited_branch_asks _ _ _ _ _ H).
    - exact (category_branch_asks _ _ _ _ _ _ H). }
  split; [exact G|].
  intro Hfail. destruct (analyze_compliance env user_docs name top_k w) as [r w' | e] eqn:E.
  - destruct (G r w' eq_refl) as (prompt & w1 & resp & w2 & Hl).
    destruct (Hfail prompt w1) as (e & He). rewrite He in Hl. discriminate Hl.
  - exists e. reflexivity.
Qed.

End Oracle.

(** *** The scorecard of a run that is not prohibited *)

Section Scorecard.
Context {W Exn : Type} (env : Collaborators W Exn).

(** The entries the loop writes, category by category. *)
Lemma analyze_categories_entries user_docs st cats :
  forall total res (w : W) total' res' w',
  analyze_categories env user_docs st cats total res w = Returns (total', res') w' ->
  exists ans,
    Forall2 (fun c a => a_category a = c /\ a_system_type a = st
                        /\ a_score a = _extract_score (a_analysis a)) cats ans
    /\ category_scores res' =
       fold_left (fun d ca => dict_set (fst ca) (a_score (snd ca)) d)
                 (combine cats ans) (category_scores res)
    /\ detailed_analysis res' =
       fold_left (fun d ca => dict_set (fst ca) (snd ca) d)
                 (combine cats ans) (detailed_analysis res).
Proof.
  induction cats as [|category rest IH]; intros total res w total' res' w' H.
  - cbn in H. unfold ret in H. injection H as _ <- _.
    exists []. repeat split. constructor.
  - cbn [analyze_categories] in H.
    apply bind_returns in H as ([sc an] & w1 & Hc & H).
    apply analyze_category_returns in Hc as (Hs & Hcat & Hst & He).
    apply IH in H as (ans & Hall & Hcs & Hda).
    exists (an :: ans). cbn [fold_left combine fst snd]. rewrite Hs.
    split; [constructor; [repeat split; [exact Hcat | exact Hst | now rewrite Hs] | exact Hall]|].
    split; [exact Hcs | exact Hda].
Qed.

Lemma category_branch_entries user_docs st results (w : W) r w' :
  category_branch env user_docs st results w = Returns r w' ->
  category_scores results = [] ->
  detailed_analysis results = [] ->
  exists a1 a2 a3 a4 a5 a6,
    detailed_analysis r =
      [ ("risk_assessment", a1); ("data_governance", a2); ("technical_robustness", a3);
        ("transparency", a4); ("human_oversight", a5); ("accountability", a6) ]
    /\ category_scores r =
      [ ("risk_assessment", a_score a1); ("data_governance", a_score a2);
        ("technical_robustness", a_score a3); ("transparency", a_score a4);
        ("human_oversight", a_score a5); ("accountability", a_score a6) ]
    /\ Forall2 (fun c a => a_category a = c /\ a_system_type a = st
                           /\ a_score a = _extract_score (a_analysis a))
               categories [a1; a2; a3; a4; a5; a6].
Proof.
  unfold category_branch. intros H Hcs Hda.
  apply bind_returns in H as ([total res] & w1 & Hloop & H).
  apply bind_returns in H as (recs & w2 & _ & H).
  unfold ret in H. injection H as <- _.
  apply analyze_categories_entries in Hloop as (ans & Hall & Hcs' & Hda').
  rewrite Hcs in Hcs'. rewrite Hda in Hda'.
  pose proof (Forall2_length Hall) as Hlen. cbn in Hlen.
  destruct ans as [|a1 [|a2 [|a3 [|a4 [|a5 [|a6 [|a7 ans]]]]]]]; try discriminate Hlen.
  cbn in Hcs', Hda'.
  exists a1, a2, a3, a4, a5, a6. cbn. split; [exact Hda'|]. split; [exact Hcs' | exact Hall].
Qed.

(** X4.  In a run that is not prohibited, each of the six categories has one
    entry in the detailed analysis; the entry names its category and the
    final system type, its narrative is what [_extract_score] gave the
    score from, and [category_scores] holds the same score. *)
Theorem scorecard_agrees_with_analysis user_docs name top_k (w : W) r w' st :
  analyze_compliance env user_docs name top_k w = Returns r w' ->
  system_type r = Some st ->
  st <> "prohibited" ->
  map fst (detailed_analysis r) = categories
  /\ forall c a, In (c, a) (detailed_analysis r) ->
       a_category a = c
       /\ a_system_type a = st
       /\ a_score a = _extract_score (a_analysis a)
       /\ dict_get c (category_scores r) = Some (a_score a).
Proof.
  intros H Hty Hst.
  assert (Hnp : system_type r <> Some "prohibited") by (rewrite Hty; congruence).
  destruct (category_run env _ _ _ _ _ _ H Hnp) as (st' & res & w1 & w2 & Hb & Hty' & Hcs & Hda).
  rewrite Hty in Hty'. injection Hty' as <-.
  apply category_branch_entries in Hb
    as (a1 & a2 & a3 & a4 & a5 & a6 & Hdet & Hsc & Hall); try assumption.
  rewrite Hdet, Hsc. split; [reflexivity|].
  repeat match goal with
         | Hx : Forall2 _ _ _ |- _ => inversion Hx; subst; clear Hx
         end.
  intros c a Hin. cbn in Hin.
  repeat (destruct Hin as [Hin | Hin];
          [injection Hin as <- <-; repeat split; try tauto; reflexivity|]).
  contradiction.
Qed.

End Scorecard.

(** *** Gaps and recommendations against the scores *)

Lemma group_add_keys_from gap d c :
  In c (map fst (group_add gap d)) -> In c (map fst d) \/ c = g_category gap.
Proof.
  destruct (group_add_keys gap d) as [-> | [_ ->]]; [left; assumption|].
  intro H. apply in_app_or in H as [H | [H | []]]; [left; exact H | right; now rewrite H].
Qed.

Lemma group_keys_from_gaps gaps : forall d c,
  In c (map fst (fold_left (fun d gap => group_add gap d) gaps d)) ->
  In c (map fst d) \/ exists g, In g gaps /\ g_category g = c.
Proof.
  induction gaps as [|gap gaps IH]; intros d c H; cbn in H; [left; exact H|].
  apply IH in H as [H | (g & Hg & Hc)].
  - apply group_add_keys_from in H as [H | H]; [left; exact H|].
    right. exists gap. split; [left; reflexivity | now rewrite H].
  - right. exists g. split; [right; exact Hg | exact Hc].
Qed.

Lemma group_nonempty gaps c gs :
  In (c, gs) (group_by_category gaps) ->
  gs = of_category c gaps /\ exists g, In g gs.
Proof.
  intro H. pose proof (group_by_category_spec _ _ _ H) as Hs. split; [exact Hs|].
  assert (Hk : In c (map fst (group_by_category gaps))) by (apply (in_map fst) in H; exact H).
  apply group_keys_from_gaps in Hk as [[] | (g & Hg & Hc)].
  exists g. rewrite Hs. unfold of_category. apply filter_In. split; [exact Hg|].
  apply String.eqb_eq, Hc.
Qed.

Lemma severity_high score : String.eqb (severity_of score) "high" = PrimFloat.ltb score 0.3%float.
Proof.
  unfold severity_of. destruct (PrimFloat.ltb score 0.3%float); [reflexivity|].
  destruct (PrimFloat.ltb score 0.5%float); reflexivity.
Qed.

Lemma priority_of_uniform gs sev :
  (exists g, In g gs) -> (forall g, In g gs -> g_severity g = sev) ->
  priority_of gs = if String.eqb sev "high" then "high" else "medium".
Proof.
  intros (g0 & H0) Hall. unfold priority_of.
  destruct (String.eqb sev "high") eqn:E.
  - replace (existsb _ gs) with true; [reflexivity|].
    symmetry. apply existsb_exists. exists g0. split; [exact H0|]. now rewrite (Hall g0 H0).
  - replace (existsb _ gs) with false; [reflexivity|].
    symmetry. apply Bool.not_true_is_false. intro Hex.
    apply existsb_exists in Hex as (g & Hg & Hh). rewrite (Hall g Hg), E in Hh. discriminate Hh.
Qed.

Section GapsAndScores.
Context {W Exn : Type} (env : Collaborators W Exn).

(** X5.  In a run that is not prohibited, a recommendation is made only for a
    category that scored below 0.7, and its priority is "high" exactly when
    that category scored below 0.3. *)
Theorem recommendations_follow_scores user_docs name top_k (w : W) r w' :
  analyze_compliance env user_docs name top_k w = Returns r w' ->
  system_type r <> Some "prohibited" ->
  forall rec, In rec (recommendations r) ->
    exists score,
      dict_get (r_category rec) (category_scores r) = Some score
      /\ PrimFloat.ltb score 0.7%float = true
      /\ r_priority rec = if PrimFloat.ltb score 0.3%float then "high" else "medium".
Proof.
  intros H Hty rec Hin.
  destruct (category_run env _ _ _ _ _ _ H Hty) as (st & res & w1 & w2 & Hb & _ & Hcs & Hda).
  pose proof (category_branch_entries env _ _ _ _ _ _ Hb Hcs Hda)
    as (a1 & a2 & a3 & a4 & a5 & a6 & Hdet & Hsc & _).
  apply category_branch_returns in Hb
    as (ans & wa & wb & _ & _ & _ & _ & _ & Hgaps & Hrecs & _); try assumption.
  unfold _generate_recommendations in Hrecs.
  destruct (recommend_each_returns env _ _ _ _ _ _ Hrecs rec Hin) as [[] | (gs & Hg & Hp)].
  apply group_nonempty in Hg as (Hgs & g0 & Hg0).
  (* every gap of the group comes from the entry of its category *)
  assert (Hsev : forall g, In g gs ->
            exists a, In (r_category rec, a) (detailed_analysis r)
                      /\ PrimFloat.ltb (a_score a) 0.7%float = true
                      /\ g_severity g = severity_of (a_score a)).
  { intros g Hgin. rewrite Hgs in Hgin. unfold of_category in Hgin.
    apply filter_In in Hgin as [Hgin Hc]. apply String.eqb_eq in Hc.
    rewrite Hgaps in Hgin. apply gaps_identified in Hgin as (a & Ha & Hlt & Hs).
    rewrite Hc in Ha. exists a. repeat split; assumption. }
  destruct (Hsev g0 Hg0) as (a & Ha & Hlt & _).
  assert (Huniq : forall a', In (r_category rec, a') (detailed_analysis r) -> a' = a).
  { rewrite Hdet in Ha |- *. cbn in Ha |- *. intros a' Ha'.
    repeat (destruct Ha as [Ha | Ha];
            [injection Ha as Hc <-; rewrite <- Hc in Ha';
             repeat (destruct Ha' as [Ha' | Ha'];
                     [first [discriminate Ha' | injection Ha' as <-; reflexivity]|]);
             contradiction|]).
    contradiction. }
  exists (a_score a). split; [|split; [exact Hlt|]].
  - rewrite Hdet in Ha. rewrite Hsc. cbn in Ha |- *.
    repeat (destruct Ha as [Ha | Ha]; [injection Ha as <- <-; reflexivity|]).
    contradiction.
  - rewrite Hp, (priority_of_uniform gs (severity_of (a_score a))).
    + rewrite severity_high. reflexivity.
    + exists g0. exact Hg0.
    + intros g Hgin. destruct (Hsev g Hgin) as (a' & Ha' & _ & Hs).
      rewrite (Huniq a' Ha') in Hs. exact Hs.
Qed.

(** X6.  A run that is not prohibited and in which no category scores below
    0.7 reports no gap and makes no recommendation. *)
Theorem no_low_score_no_gap user_docs name top_k (w : W) r w' :
  analyze_compliance env user_docs name top_k w = Returns r w' ->
  system_type r <> Some "prohibited" ->
  (forall c score, In (c, score) (category_scores r) ->
                   PrimFloat.ltb score 0.7%float = false) ->
  compliance_gaps r = [] /\ recommendations r = [].
Proof.
  intros H Hty Hall.
  destruct (category_run env _ _ _ _ _ _ H Hty) as (st & res & w1 & w2 & Hb & _ & Hcs & Hda).
  apply category_branch_returns in Hb
    as (ans & wa & wb & _ & _ & Hdet & Hsc & _ & Hgaps & Hrecs & _); try assumption.
  assert (Hg : compliance_gaps r = []).
  { rewrite Hgaps.
    destruct (_identify_compliance_gaps (detailed_analysis r) st) as [|g gaps] eqn:E;
      [reflexivity|].
    exfalso.
    assert (Hin : In g (_identify_compliance_gaps (detailed_analysis r) st))
      by (rewrite E; left; reflexivity).
    apply gaps_identified in Hin as (a & Ha & Hlt & _).
    rewrite Hdet in Ha. apply combine_scores in Ha. rewrite <- Hsc in Ha.
    rewrite (Hall _ _ Ha) in Hlt. discriminate Hlt. }
  split; [exact Hg|].
  rewrite Hg in Hrecs. cbn in Hrecs. unfold ret in Hrecs. injection Hrecs as <- _.
  reflexivity.
Qed.

End GapsAndScores.

(** *** Texts inside larger texts *)

Lemma str_app a b : str (a ++ b) = str a ++ str b.
Proof. unfold str. induction a as [|c a IH]; cbn; [reflexivity | now rewrite IH]. Qed.

Lemma str_chars s : str (chars s) = s.
Proof. apply string_of_list_ascii_of_string. Qed.

Lemma chars_str l : chars (str l) = l.
Proof. apply list_ascii_of_string_of_list_ascii. Qed.

Lemma lower_app a b : lower (a ++ b) = lower a ++ lower b.
Proof. unfold lower. now rewrite chars_app, map_app, str_app. Qed.

Lemma append_assoc (a b c : string) : (a ++ b) ++ c = a ++ (b ++ c).
Proof. induction a as [|x a IH]; cbn; [reflexivity | now rewrite IH]. Qed.

Lemma append_nil_r (a : string) : a ++ "" = a.
Proof. induction a as [|x a IH]; cbn; [reflexivity | now rewrite IH]. Qed.

(** A part of a joined list is a part of the whole text. *)
Lemma join_middle sep before parts after :
  exists a b, join sep (before ++ parts ++ after) = a ++ join sep parts ++ b.
Proof.
  assert (Hr : forall l1 l2, exists b, join sep (l1 ++ l2) = join sep l1 ++ b).
  { induction l1 as [|p l1 IH]; intros l2.
    - exists (join sep l2). reflexivity.
    - destruct l1 as [|q l1].
      + destruct l2 as [|q l2]; cbn.
        * exists "". now rewrite append_nil_r.
        * eexists. reflexivity.
      + destruct (IH l2) as [b Hb]. exists b.
        change (join sep ((p :: q :: l1) ++ l2)) with (p ++ sep ++ join sep ((q :: l1) ++ l2)).
        rewrite Hb. change (join sep (p :: q :: l1)) with (p ++ sep ++ join sep (q :: l1)).
        now rewrite !append_assoc. }
  assert (Hl : forall l1 l2, exists a, join sep (l1 ++ l2) = a ++ join sep l2).
  { induction l1 as [|p l1 IH]; intros l2.
    - exists "". reflexivity.
    - destruct (IH l2) as [a Ha]. destruct (l1 ++ l2)%list as [|q l] eqn:E.
      + apply app_eq_nil in E as [-> ->]. exists p. cbn. now rewrite append_nil_r.
      + exists (p ++ sep ++ a).
        change (join sep ((p :: l1) ++ l2)) with (join sep (p :: (l1 ++ l2))). rewrite E.
        change (join sep (p :: q :: l)) with (p ++ sep ++ join sep (q :: l)).
        rewrite Ha. now rewrite !append_assoc. }
  destruct (Hl before (parts ++ after)%list) as [a Ha].
  destruct (Hr parts after) as [b Hb].
  exists a, b. rewrite Ha, Hb. reflexivity.
Qed.

Lemma all_text_middle before docs after :
  exists a b, all_text_of (before ++ docs ++ after) = a ++ all_text_of docs ++ b.
Proof. unfold all_text_of. rewrite !map_app. apply join_middle. Qed.

Lemma all_text_chunk docs chunk :
  In chunk docs -> exists a b, all_text_of docs = a ++ chunk_text chunk ++ b.
Proof.
  intro H. apply in_split in H as (l1 & l2 & ->).
  destruct (all_text_middle l1 [chunk] l2) as (a & b & E). exists a, b. exact E.
Qed.

Lemma matches_lower_mono pattern text before after :
  ctxfree_pattern pattern = true ->
  matches IGNORECASE pattern (lower text) = true ->
  matches IGNORECASE pattern (lower (before ++ text ++ after)) = true.
Proof. intros Hc H. rewrite !lower_app. apply matches_mono; assumption. Qed.

Lemma prohibited_indicators_ctxfree :
  forallb ctxfree_pattern prohibited_indicators = true.
Proof. vm_compute. reflexivity. Qed.

Lemma all_chunks_in processed_docs doc_id chunks chunk :
  In (doc_id, chunks) processed_docs -> In chunk chunks ->
  In chunk (Main.all_chunks processed_docs).
Proof.
  unfold Main.all_chunks. intros Hd Hc.
  assert (G : forall pd acc, In chunk acc \/ In (doc_id, chunks) pd ->
                In chunk (fold_left (fun acc doc => (acc ++ snd doc)%list) pd acc)).
  { induction pd as [|d pd IH]; intros acc [H | H]; cbn; try assumption; try contradiction.
    - apply IH. left. apply in_or_app. left. exact H.
    - destruct H as [-> | H]; apply IH; [left; apply in_or_app; right; exact Hc | right; exact H]. }
  apply G. right. exact Hd.
Qed.

(** [needle in hay] finds the needle between two parts of the hay. *)
Lemma starts_with_split needle : forall hay,
  starts_with needle hay = true -> exists b, hay = (needle ++ b)%list.
Proof.
  induction needle as [|c needle IH]; intros hay; cbn.
  - intros _. exists hay. reflexivity.
  - destruct hay as [|d hay]; [discriminate|].
    intro H. apply Bool.andb_true_iff in H as [Hc H]. apply Ascii.eqb_eq in Hc. subst d.
    destruct (IH hay H) as [b ->]. exists b. reflexivity.
Qed.

Lemma occurs_in_split needle : forall hay,
  occurs_in needle hay = true -> exists a b, hay = (a ++ needle ++ b)%list.
Proof.
  induction hay as [|d hay IH]; cbn; intro H.
  - apply Bool.orb_true_iff in H as [H | H]; [|discriminate].
    apply starts_with_split in H as [b ->]. exists [], b. reflexivity.
  - apply Bool.orb_true_iff in H as [H | H].
    + apply starts_with_split in H as [b ->]. exists [], b. reflexivity.
    + destruct (IH H) as (a & b & ->). exists (d :: a), b. reflexivity.
Qed.

Lemma contains_split needle hay :
  contains needle hay = true -> exists a b, hay = a ++ needle ++ b.
Proof.
  unfold contains. intro H. apply occurs_in_split in H as (a & b & E).
  exists (str a), (str b).
  rewrite <- (str_chars hay), E, !str_app, str_chars. reflexivity.
Qed.

Section Phrases.
Context {W Exn : Type} (env : Collaborators W Exn).

Lemma evidence_forces_prohibited user_docs name top_k (w : W) r w' :
  any_match IGNORECASE prohibited_indicators (lower (all_text_of user_docs)) = true ->
  analyze_compliance env user_docs name top_k w = Returns r w' ->
  system_type r = Some "prohibited".
Proof.
  intros Hany H. apply final_system_type in H as (st0 & w1 & _ & Hty).
  rewrite Hty, (override_evidence st0 _ Hany). reflexivity.
Qed.

Lemma indicator_in_list pattern text :
  In pattern prohibited_indicators ->
  matches IGNORECASE pattern text = true ->
  any_match IGNORECASE prohibited_indicators text = true.
Proof. intros Hin Hm. apply existsb_exists. exists pattern. split; assumption. Qed.

(** X7.  When one chunk of one processed document holds a prohibited
    proof-phrase, every run started from [main.py] that returns is
    classified as prohibited. *)
Theorem phrase_in_one_chunk_suffices processed_docs name (w : W) doc_id chunks chunk pattern :
  In (doc_id, chunks) processed_docs ->
  In chunk chunks ->
  In pattern prohibited_indicators ->
  matches IGNORECASE pattern (lower (chunk_text chunk)) = true ->
  forall r w', Main.analyze_compliance env processed_docs name w = Returns r w' ->
               system_type r = Some "prohibited".
Proof.
  intros Hd Hc Hin Hm r w' H. unfold Main.analyze_compliance in H.
  refine (evidence_forces_prohibited _ _ _ _ _ _ _ H).
  apply (indicator_in_list pattern); [exact Hin|].
  destruct (all_text_chunk _ _ (all_chunks_in _ _ _ _ Hd Hc)) as (a & b & ->).
  apply matches_lower_mono; [|exact Hm].
  exact (proj1 (forallb_forall _ _) prohibited_indicators_ctxfree pattern Hin).
Qed.

(** X8.  A documentation in which the words "social credit system",
    "citizen rank" or "citizenrank" occur, in any letter case, is classified
    as prohibited in every run that returns. *)
Theorem literal_phrase_is_prohibited user_docs name top_k (w : W) phrase :
  In phrase ["social credit system"; "citizen rank"; "citizenrank"] ->
  contains phrase (lower (all_text_of user_docs)) = true ->
  forall r w', analyze_compliance env user_docs name top_k w = Returns r w' ->
               system_type r = Some "prohibited".
Proof.
  intros Hp Hc r w' H. refine (evidence_forces_prohibited _ _ _ _ _ _ _ H).
  apply contains_split in Hc as (a & b & ->).
  assert (G : exists pattern, In pattern prohibited_indicators
                              /\ ctxfree_pattern pattern = true
                              /\ matches IGNORECASE pattern phrase = true).
  { cbn in Hp. destruct Hp as [<- | [<- | [<- | []]]].
    - exists "social\s+credit\s+system". split; [cbn; tauto | split; vm_compute; reflexivity].
    - exists "citizen\s+rank". split; [cbn; tauto | split; vm_compute; reflexivity].
    - exists "citizenrank". split; [cbn; tauto | split; vm_compute; reflexivity]. }
  destruct G as (pattern & Hin & Hcf & Hm).
  apply (indicator_in_list pattern); [exact Hin|].
  apply matches_mono; assumption.
Qed.

End Phrases.

(** *** The weighted pre-checks under added text *)

Lemma indicator_score_mono indicators t t' :
  (forall p w, In (p, w) indicators -> (0 <= w)%Z) ->
  (forall p w, In (p, w) indicators ->
     matches NOFLAGS p t = true -> matches NOFLAGS p t' = true) ->
  (indicator_score indicators t <= indicator_score indicators t')%Z.
Proof.
  unfold indicator_score. intros Hw Hm.
  assert (G : forall acc acc', (acc <= acc')%Z ->
    (fold_left (fun score '(pattern, weight) =>
                  if matches NOFLAGS pattern t then (score + weight)%Z else score)
               indicators acc
     <= fold_left (fun score '(pattern, weight) =>
                  if matches NOFLAGS pattern t' then (score + weight)%Z else score)
               indicators acc')%Z).
  { induction indicators as [|[p wt] l IH]; intros acc acc' Hle; cbn [fold_left].
    - exact Hle.
    - apply IH.
      + intros q v Hin. apply (Hw q v). right. exact Hin.
      + intros q v Hin. apply (Hm q v). right. exact Hin.
      + pose proof (Hw p wt (or_introl eq_refl)) as H0.
        pose proof (Hm p wt (or_introl eq_refl)) as H1.
        destruct (matches NOFLAGS p t).
        * rewrite (H1 eq_refl). lia.
        * destruct (matches NOFLAGS p t'); lia. }
  apply G. lia.
Qed.

Lemma social_scoring_weights p w :
  In (p, w) social_scoring_indicators -> (0 <= w)%Z /\ ctxfree_pattern p = true.
Proof.
  intro H. cbn in H.
  repeat (destruct H as [H | H];
          [injection H as <- <-; split; [lia | vm_compute; reflexivity]|]).
  contradiction.
Qed.

Section Growth.
Context {W Exn : Type} (env : Collaborators W Exn).

(** X9.  A documentation that the social scoring pre-check finds prohibited
    stays prohibited whatever chunks are put before and after it: the
    pre-check answers again, and so does every run that returns. *)
Theorem added_chunks_keep_prohibition docs before after name top_k (w : W) :
  pre_check (lower (all_text_of docs)) = Some "prohibited" ->
  _determine_system_type_improved env (all_text_of (before ++ docs ++ after)) w
  = Returns "prohibited" w
  /\ forall r w',
       analyze_compliance env (before ++ docs ++ after) name top_k w = Returns r w' ->
       system_type r = Some "prohibited".
Proof.
  intro Hp.
  assert (Hs : (15 <= indicator_score social_scoring_indicators (lower (all_text_of docs)))%Z).
  { unfold pre_check in Hp.
    destruct (15 <=? indicator_score social_scoring_indicators (lower (all_text_of docs)))%Z eqn:E.
    - apply Z.leb_le. exact E.
    - destruct (10 <=? _)%Z; [discriminate|].
      destruct (10 <=? _)%Z; [discriminate|].
      destruct (10 <=? _)%Z; discriminate. }
  destruct (all_text_middle before docs after) as (a & b & Ht).
  assert (Hs' : (15 <= indicator_score social_scoring_indicators
                         (lower (all_text_of (before ++ docs ++ after))))%Z).
  { eapply Z.le_trans; [exact Hs|]. apply indicator_score_mono.
    - intros p v Hin. apply (social_scoring_weights p v Hin).
    - intros p v Hin Hm. rewrite Ht, !lower_app. apply matches_mono; [|exact Hm].
      apply (social_scoring_weights p v Hin). }
  assert (Hd : _determine_system_type_improved env (all_text_of (before ++ docs ++ after)) w
               = Returns "prohibited" w).
  { apply determine_pre_check. unfold pre_check.
    apply Z.leb_le in Hs'. rewrite Hs'. reflexivity. }
  split; [exact Hd|].
  intros r w' H. apply final_system_type in H as (st0 & w1 & Hd' & Hty).
  rewrite Hd in Hd'. injection Hd' as <- _.
  rewrite Hty, (override_prohibited "prohibited" _ eq_refl). reflexivity.
Qed.

End Growth.

Lemma added_chunks_keep_prohibition_witness :
  pre_check (lower (all_text_of scoring_docs)) = Some "prohibited"
  /\ _determine_system_type_improved silent
       (all_text_of (clinic_docs ++ scoring_docs ++ widget_docs)) tt
     = Returns "prohibited" tt.
Proof.
  assert (Hp : pre_check (lower (all_text_of scoring_docs)) = Some "prohibited")
    by (vm_compute; reflexivity).
  split; [exact Hp|].
  exact (proj1 (added_chunks_keep_prohibition silent scoring_docs clinic_docs widget_docs
                  "Scoring" 5 tt Hp)).
Defined.

(** *** The prohibition analysis of a prohibited run *)

Lemma Prefix_Mt fl p r : Prefix p r -> forall bk s bk' s',
  Mt fl r bk s bk' s' -> exists bk1 s1, Mt fl p bk s bk1 s1.
Proof.
  induction 1 as [p r1 r2 He | p1 p2 r1 r2 He Hp IH]; intros bk s bk' s' HM.
  - cbn [Mt] in HM. destruct HM as (bk1 & s1 & H1 & _).
    exists bk1, s1. apply Mt_erase. rewrite He. apply Mt_erase. exact H1.
  - cbn [Mt] in HM. destruct HM as (bk1 & s1 & H1 & H2).
    destruct (IH _ _ _ _ H2) as (bk2 & s2 & H3).
    exists bk2, s2. cbn [Mt]. exists bk1, s1. split; [|exact H3].
    apply Mt_erase. rewrite He. apply Mt_erase. exact H1.
Qed.

Lemma matches_prefix fl p q rp rq text :
  compile p = Some rp -> compile q = Some rq -> Prefix rp rq ->
  matches fl q text = true -> matches fl p text = true.
Proof.
  intros Hp Hq Hpre H.
  apply matches_found in H as (r & Hr & pre & rest & bk' & s' & Hs & HM).
  rewrite Hq in Hr. injection Hr as <-.
  apply matches_found. exists rp. split; [exact Hp|].
  destruct (Prefix_Mt fl rp rq Hpre _ _ _ _ HM) as (bk1 & s1 & H1).
  exists pre, rest, bk1, s1. split; [exact Hs | exact H1].
Qed.

Ltac prefix_steps :=
  repeat first [ apply prefix_cons; [reflexivity|] | apply prefix_last; reflexivity ].

Lemma evidence_is_a_feature pattern text :
  In pattern [ "social\s+credit\s+system"; "citizen\s+rank";
               "evaluate\s+citizens.*?behavior.*?score" ] ->
  matches IGNORECASE pattern text = true ->
  any_match IGNORECASE social_scoring_features text = true.
Proof.
  intros Hin Hm. apply existsb_exists. cbn in Hin.
  destruct Hin as [<- | [<- | [<- | []]]].
  - exists "social(\s+)credit(\s+)system". split; [cbn; tauto|].
    erewrite matches_erase; [exact Hm | vm_compute; reflexivity ..].
  - exists "citizen(\s+)rank". split; [cbn; tauto|].
    erewrite matches_erase; [exact Hm | vm_compute; reflexivity ..].
  - exists "evaluate(\s+)citizens.*?behavior". split; [cbn; tauto|].
    eapply (matches_prefix _ _ "evaluate\s+citizens.*?behavior.*?score");
      [vm_compute; reflexivity | vm_compute; reflexivity | | exact Hm].
    prefix_steps.
Qed.

Section Analysis.
Context {W Exn : Type} (env : Collaborators W Exn).

(** The prohibition analysis of the prohibited branch is read from the
    documentation and from two answers of the oracle. *)
Lemma prohibited_branch_analysis all_text results (w : W) r w' :
  prohibited_branch env all_text results w = Returns r w' ->
  exists p1 w1 a1 w2 p2 w3 a2 w4,
    llm_invoke env p1 w1 = Returns a1 w2
    /\ llm_invoke env p2 w3 = Returns a2 w4
    /\ prohibition_analysis r =
       Some (add_social_scoring_warning (prohibited_verdicts all_text (strip a1) (strip a2))).
Proof.
  unfold prohibited_branch, _analyze_prohibited_system. intro H.
  apply bind_returns in H as (pa & w1 & H & Hr).
  apply bind_returns in H as (t1 & w2 & _ & H).
  apply bind_returns in H as (f1 & w3 & _ & H).
  apply bind_returns in H as (a1 & w4 & Hl1 & H).
  apply bind_returns in H as (t2 & w5 & _ & H).
  apply bind_returns in H as (f2 & w6 & _ & H).
  apply bind_returns in H as (a2 & w7 & Hl2 & H).
  unfold ret in H. injection H as <- _.
  unfold ret in Hr. injection Hr as <- _.
  exists f1, w3, a1, w4, f2, w6, a2, w7.
  split; [exact Hl1|]. split; [exact Hl2|]. reflexivity.
Qed.

(** X10.  When the documentation holds "social credit system", "citizen rank"
    or "evaluate citizens ... behavior ... score" (any white space between the
    words), every run that returns reports a prohibited system with the
    social scoring verdict and the reference to Article 5(1)(c), whatever the
    oracle answered. *)
Theorem social_scoring_phrase_cites_article_5 user_docs name top_k (w : W) pattern :
  In pattern [ "social\s+credit\s+system"; "citizen\s+rank";
               "evaluate\s+citizens.*?behavior.*?score" ] ->
  matches IGNORECASE pattern (lower (all_text_of user_docs)) = true ->
  forall r w', analyze_compliance env user_docs name top_k w = Returns r w' ->
    system_type r = Some "prohibited"
    /\ exists pa, prohibition_analysis r = Some pa
         /\ is_prohibited pa = true
         /\ verdict (social_scoring pa) = true
         /\ prohibited_category pa = Some "social_scoring"
         /\ article pa = Some "Article 5(1)(c)".
Proof.
  intros Hin Hm r w' H.
  assert (Hty : system_type r = Some "prohibited").
  { refine (evidence_forces_prohibited env _ _ _ _ _ _ _ H).
    apply (indicator_in_list pattern); [|exact Hm].
    cbn in Hin |- *. tauto. }
  split; [exact Hty|].
  destruct (prohibited_run env _ _ _ _ _ _ H Hty) as (results & w1 & w2 & Hb & _).
  apply prohibited_branch_analysis in Hb as (p1 & wa & a1 & wb & p2 & wc & a2 & wd & _ & _ & Hpa).
  eexists. split; [exact Hpa|].
  pose proof (evidence_is_a_feature pattern _ Hin Hm) as Hf.
  unfold add_social_scoring_warning, prohibited_verdicts.
  rewrite Hf. cbn [verdict social_scoring is_prohibited prohibited_category article].
  rewrite !Bool.orb_true_r. cbn. repeat split; reflexivity.
Qed.

(** X11.  The classification and the prohibition analysis can disagree: when no
    social scoring feature is found in the documentation and each answer of
    the oracle contains a negative wording, a run classified as prohibited
    carries [is_prohibited = False], no prohibited category and no article. *)
Theorem prohibited_type_without_prohibited_verdict user_docs name top_k (w : W) r w' :
  analyze_compliance env user_docs name top_k w = Returns r w' ->
  system_type r = Some "prohibited" ->
  any_match IGNORECASE social_scoring_features (lower (all_text_of user_docs)) = false ->
  (forall prompt w1 answer w2, llm_invoke env prompt w1 = Returns answer w2 ->
     any_match IGNORECASE negative_patterns (lower (strip answer)) = true) ->
  exists pa, prohibition_analysis r = Some pa
    /\ is_prohibited pa = false
    /\ verdict (social_scoring pa) = false
    /\ verdict (manipulation pa) = false
    /\ prohibited_category pa = None
    /\ article pa = None
    /\ recommendations r = [prohibited_recommendation].
Proof.
  intros H Hty Hf Hneg.
  destruct (prohibited_run env _ _ _ _ _ _ H Hty) as (results & w1 & w2 & Hb & Hcs & _).
  pose proof (prohibited_branch_returns env _ _ _ _ _ Hb Hcs) as (_ & _ & _ & _ & Hrec & _).
  apply prohibited_branch_analysis in Hb as (p1 & wa & a1 & wb & p2 & wc & a2 & wd & H1 & H2 & Hpa).
  eexists. split; [exact Hpa|].
  unfold add_social_scoring_warning, prohibited_verdicts.
  rewrite Hf, (Hneg _ _ _ _ H1), (Hneg _ _ _ _ H2).
  cbn [verdict social_scoring manipulation is_prohibited prohibited_category article negb].
  rewrite !Bool.andb_false_r. cbn. repeat split; try reflexivity. exact Hrec.
Qed.

End Analysis.

Lemma social_scoring_phrase_cites_article_5_witness :
  exists r w',
    analyze_compliance (constant "no") scoring_docs "Scoring" 5 tt = Returns r w'
    /\ system_type r = Some "prohibited"
    /\ exists pa, prohibition_analysis r = Some pa
         /\ is_prohibited pa = true
         /\ verdict (social_scoring pa) = true
         /\ prohibited_category pa = Some "social_scoring"
         /\ article pa = Some "Article 5(1)(c)".
Proof.
  returned (analyze_compliance (constant "no") scoring_docs "Scoring" 5 tt) r w' H.
  exists r, w'. split; [exact H|].
  assert (Hin : In "social\s+credit\s+system"
                  [ "social\s+credit\s+system"; "citizen\s+rank";
                    "evaluate\s+citizens.*?behavior.*?score" ]) by (left; reflexivity).
  assert (Hm : matches IGNORECASE "social\s+credit\s+system"
                 (lower (all_text_of scoring_docs)) = true) by (vm_compute; reflexivity).
  exact (social_scoring_phrase_cites_article_5 (constant "no") scoring_docs "Scoring" 5 tt
           "social\s+credit\s+system" Hin Hm r w' H).
Defined.

Lemma prohibited_type_without_prohibited_verdict_witness :
  exists r w',
    analyze_compliance (constant "No.") [doc "CitizenRank keeps a ledger."] "Ledger" 5 tt
    = Returns r w'
    /\ system_type r = Some "prohibited"
    /\ exists pa, prohibition_analysis r = Some pa
         /\ is_prohibited pa = false
         /\ verdict (social_scoring pa) = false
         /\ verdict (manipulation pa) = false
         /\ prohibited_category pa = None
         /\ article pa = None
         /\ recommendations r = [prohibited_recommendation].
Proof.
  returned (analyze_compliance (constant "No.") [doc "CitizenRank keeps a ledger."] "Ledger" 5 tt)
           r w' H.
  exists r, w'. split; [exact H|].
  assert (Hty : system_type r = Some "prohibited") by reflexivity.
  split; [exact Hty|].
  assert (Hf : any_match IGNORECASE social_scoring_features
                 (lower (all_text_of [doc "CitizenRank keeps a ledger."])) = false)
    by (vm_compute; reflexivity).
  assert (Hneg : forall prompt w1 answer w2,
            llm_invoke (constant "No.") prompt w1 = Returns answer w2 ->
            any_match IGNORECASE negative_patterns (lower (strip answer)) = true).
  { intros prompt w1 answer w2 E. cbn in E. injection E as <- _. vm_compute. reflexivity. }
  exact (prohibited_type_without_prohibited_verdict (constant "No.")
           [doc "CitizenRank keeps a ledger."] "Ledger" 5 tt r w' H Hty Hf Hneg).
Defined.

(** *** What a group of plain atoms captures *)

Section Captures.
Variable fl : flags.
Variable P : nat -> list ascii -> Prop.

Lemma rx_atoms r : forall atoms, atoms_of r = Some atoms ->
  forall (k : cont) bk s caps res,
    rx fl r k bk s caps = Some res ->
    exists t s', s = (t ++ s')%list /\ fits fl atoms t = true
                 /\ k (rev t ++ bk)%list s' caps = Some res.
Proof.
  induction r as [ | a | g least a | g r1 IH1 | r1 IH1 r2 IH2 | r1 IH1 r2 IH2
                 | m r1 IH1 | | | | r1 IH1 | wd r1 IH1 ];
    intros atoms Ha k bk s caps res H; try discriminate Ha.
  - cbn in Ha. injection Ha as <-. cbn [rx] in H.
    destruct s as [|c s1]; [discriminate|].
    destruct (atom_ok fl a c) eqn:E; [|discriminate].
    exists [c], s1. cbn. rewrite E. repeat split. exact H.
  - destruct r1; try discriminate Ha. cbn [atoms_of] in Ha.
    destruct (atoms_of r2) as [l|] eqn:E2; [|discriminate]. injection Ha as <-.
    cbn [rx] in H. destruct s as [|c s1]; [discriminate|].
    destruct (atom_ok fl a c) eqn:E; [|discriminate].
    destruct (IH2 l eq_refl k (c :: bk) s1 caps res H) as (t & s' & -> & Hf & Hk).
    exists (c :: t), s'. cbn [fits app rev]. rewrite E, Hf. repeat split.
    rewrite <- app_assoc. exact Hk.
Qed.

Lemma rep_greedy_preserves a k : preserves P k -> preserves P (rep_greedy fl a k).
Proof.
  intros Hk bk s. revert bk. induction s as [|c s IH]; intros bk caps res H Hs; cbn in H.
  - exact (Hk _ _ _ _ H Hs).
  - destruct (atom_ok fl a c).
    + destruct (rep_greedy fl a k (c :: bk) s caps) eqn:E.
      * injection H as <-. exact (IH _ _ _ E Hs).
      * exact (Hk _ _ _ _ H Hs).
    + exact (Hk _ _ _ _ H Hs).
Qed.

Lemma rep_lazy_preserves a k : preserves P k -> preserves P (rep_lazy fl a k).
Proof.
  intros Hk bk s. revert bk. induction s as [|c s IH]; intros bk caps res H Hs; cbn in H.
  - destruct (k bk [] caps) eqn:E; [|discriminate]. injection H as <-. exact (Hk _ _ _ _ E Hs).
  - destruct (k bk (c :: s) caps) eqn:E.
    + injection H as <-. exact (Hk _ _ _ _ E Hs).
    + destruct (atom_ok fl a c); [|discriminate]. exact (IH _ _ _ H Hs).
Qed.

Lemma stop_preserves (test : list ascii -> bool) :
  preserves P (fun bk' s' caps' => if test bk' then Some (bk', s', caps') else None).
Proof.
  intros bk s caps res H Hs. destruct (test bk); [|discriminate].
  injection H as <-. exact Hs.
Qed.

Lemma id_preserves : preserves P (fun bk' s' caps' => Some (bk', s', caps')).
Proof. intros bk s caps res H Hs. injection H as <-. exact Hs. Qed.

Lemma rx_preserves r : forall k, shaped fl P r -> preserves P k -> preserves P (rx fl r k).
Proof.
  induction r as [ | a | g least a | g r1 IH1 | r1 IH1 r2 IH2 | r1 IH1 r2 IH2
                 | m r1 IH1 | | | | r1 IH1 | wd r1 IH1 ];
    intros k Hsh Hk bk s caps res H Hs; cbn [rx] in H; cbn [shaped] in Hsh.
  - exact (Hk _ _ _ _ H Hs).
  - destruct s as [|c s1]; [discriminate|]. destruct (atom_ok fl a c); [|discriminate].
    exact (Hk _ _ _ _ H Hs).
  - assert (Hrep : preserves P (if g then rep_greedy fl a k else rep_lazy fl a k)).
    { destruct g; [apply rep_greedy_preserves | apply rep_lazy_preserves]; exact Hk. }
    destruct least.
    + destruct s as [|c s1]; [discriminate|]. destruct (atom_ok fl a c); [|discriminate].
      exact (Hrep _ _ _ _ H Hs).
    + exact (Hrep _ _ _ _ H Hs).
  - destruct g.
    + destruct (rx fl r1 k bk s caps) eqn:E.
      * injection H as <-. exact (IH1 k Hsh Hk _ _ _ _ E Hs).
      * exact (Hk _ _ _ _ H Hs).
    + destruct (k bk s caps) eqn:E.
      * injection H as <-. exact (Hk _ _ _ _ E Hs).
      * exact (IH1 k Hsh Hk _ _ _ _ H Hs).
  - destruct Hsh as [Hs1 Hs2].
    exact (IH1 _ Hs1 (IH2 k Hs2 Hk) _ _ _ _ H Hs).
  - destruct Hsh as [Hs1 Hs2]. destruct (rx fl r1 k bk s caps) eqn:E.
    + injection H as <-. exact (IH1 k Hs1 Hk _ _ _ _ E Hs).
    + exact (IH2 k Hs2 Hk _ _ _ _ H Hs).
  - destruct (atoms_of r1) as [atoms|] eqn:Ea; [|contradiction].
    apply (rx_atoms r1 atoms Ea) in H as (t & s' & -> & Hf & H).
    refine (Hk _ _ _ _ H _).
    rewrite length_app, length_rev, Nat.add_sub.
    rewrite firstn_app, firstn_all, Nat.sub_diag, firstn_0, app_nil_r.
    intros i u [Hi | Hi].
    + injection Hi as <- <-. exact (Hsh t Hf).
    + exact (Hs i u Hi).
  - destruct bk; [|discriminate]. exact (Hk _ _ _ _ H Hs).
  - destruct s as [|c [|d s]]; try discriminate.
    + exact (Hk _ _ _ _ H Hs).
    + destruct (Ascii.eqb c newline); [|discriminate]. exact (Hk _ _ _ _ H Hs).
  - destruct (xorb (word_at bk) (word_at s)); [|discriminate]. exact (Hk _ _ _ _ H Hs).
  - destruct (rx fl r1 (fun bk' s' caps' => Some (bk', s', caps')) bk s caps)
      as [[[b1 s1] c1]|] eqn:E; [|discriminate].
    pose proof (IH1 _ Hsh id_preserves _ _ _ _ E Hs) as Hc. cbn in Hc.
    exact (Hk _ _ _ _ H Hc).
  - destruct (Nat.ltb (List.length bk) wd); [discriminate|].
    match type of H with
    | match ?X with _ => _ end = _ => destruct X as [[[b1 s1] c1]|] eqn:E; [|discriminate]
    end.
    pose proof (IH1 _ Hsh (stop_preserves (fun bk' => Nat.eqb (List.length bk') (List.length bk)))
                  _ _ _ _ E Hs) as Hc. cbn in Hc.
    exact (Hk _ _ _ _ H Hc).
Qed.

Lemma match_here_sound r adv bk s m :
  shaped fl P r -> match_here fl r adv bk s = Some m -> sound P (m_caps m).
Proof.
  intros Hsh. unfold match_here.
  match goal with
  | |- match ?X with _ => _ end = _ -> _ => destruct X as [[[b1 s1] c1]|] eqn:E; [|discriminate]
  end.
  intro H. injection H as <-. cbn [m_caps].
  assert (Hk : preserves P
                 (fun bk' s' caps' =>
                    if adv && Nat.eqb (List.length bk') (List.length bk)
                    then None else Some (bk', s', caps'))).
  { intros b0 s0 c0 res H0 Hs0.
    destruct (adv && Nat.eqb (List.length b0) (List.length bk))%bool; [discriminate|].
    injection H0 as <-. exact Hs0. }
  exact (rx_preserves r _ Hsh Hk _ _ _ _ E (fun _ _ F => match F with end)).
Qed.

Lemma scan_sound r : shaped fl P r -> forall s bk m,
  scan fl r bk s = Some m -> sound P (m_caps m).
Proof.
  intros Hsh. induction s as [|c s IH]; intros bk m H; cbn [scan] in H.
  - destruct (match_here fl r false bk []) eqn:E; [|discriminate].
    injection H as <-. exact (match_here_sound _ _ _ _ _ Hsh E).
  - destruct (match_here fl r false bk (c :: s)) eqn:E.
    + injection H as <-. exact (match_here_sound _ _ _ _ _ Hsh E).
    + exact (IH _ _ H).
Qed.

Lemma lookup_group_in n caps t :
  lookup_group n caps = Some t -> In (n, t) caps.
Proof.
  induction caps as [|[i u] caps IH]; cbn; [discriminate|].
  destruct (Nat.eqb i n) eqn:E.
  - intro H. injection H as ->. apply Nat.eqb_eq in E. subst i. left. reflexivity.
  - intro H. right. exact (IH H).
Qed.

Lemma group_shaped pattern r text m n score_str :
  compile pattern = Some r -> shaped fl P r ->
  search fl pattern text = Some m -> group m n = Some score_str ->
  exists t, score_str = str t /\ P n t.
Proof.
  intros Hc Hsh Hs Hg. unfold search in Hs. rewrite Hc in Hs.
  apply (scan_sound r Hsh) in Hs. unfold group in Hg.
  destruct (lookup_group n (m_caps m)) as [t|] eqn:E; [|discriminate].
  injection Hg as <-. exists t. split; [reflexivity|].
  exact (Hs n t (lookup_group_in _ _ _ E)).
Qed.

End Captures.

(** *** The characters a score group accepts *)

Lemma digit_fit c : atom_ok IGNORECASE digit_atom c = true -> In c digit_chars.
Proof.
  destruct c as [[] [] [] [] [] [] [] []]; vm_compute; intro H;
    first [discriminate H | tauto].
Qed.

Lemma dot_fit c : atom_ok IGNORECASE (ALit ".") c = true -> c = "."%char.
Proof.
  destruct c as [[] [] [] [] [] [] [] []]; vm_compute; intro H;
    first [discriminate H | reflexivity].
Qed.

Ltac digits_in H :=
  cbn [In digit_chars] in H;
  repeat (destruct H as [<- | H]; [|]); [.. | contradiction].

Lemma decimal_score_ok pattern t :
  String.eqb pattern "([0-9][0-9])%" = false ->
  String.eqb pattern "score[^0-9]*([0-9])\/10" = false ->
  fits IGNORECASE [digit_atom; ALit "."; digit_atom] t = true ->
  score_ok pattern (str t).
Proof.
  intros H1 H2 Hf.
  destruct t as [|c1 [|c2 [|c3 [|c4 t]]]]; cbn [fits] in Hf;
    try discriminate Hf;
    try (rewrite !Bool.andb_false_r in Hf; discriminate Hf).
  apply Bool.andb_true_iff in Hf as [Ha Hf].
  apply Bool.andb_true_iff in Hf as [Hb Hf].
  apply Bool.andb_true_iff in Hf as [Hc _].
  apply digit_fit in Ha, Hc. apply dot_fit in Hb. subst c2.
  unfold score_ok, convert_score. 
  digits_in Ha; digits_in Hc; rewrite H1, H2;
    (eexists; split; [vm_compute; reflexivity | split; vm_compute; reflexivity]).
Qed.

Lemma tenths_score_ok t :
  fits IGNORECASE [digit_atom] t = true ->
  score_ok "score[^0-9]*([0-9])\/10" (str t).
Proof.
  intros Hf.
  destruct t as [|c1 [|c2 t]]; cbn [fits] in Hf;
    try discriminate Hf;
    try (rewrite !Bool.andb_false_r in Hf; discriminate Hf).
  apply Bool.andb_true_iff in Hf as [Ha _].
  apply digit_fit in Ha.
  unfold score_ok.
  digits_in Ha;
    (eexists; split; [vm_compute; reflexivity | split; vm_compute; reflexivity]).
Qed.

Lemma percent_score_ok t :
  fits IGNORECASE [digit_atom; digit_atom] t = true ->
  score_ok "([0-9][0-9])%" (str t).
Proof.
  intros Hf.
  destruct t as [|c1 [|c2 [|c3 t]]]; cbn [fits] in Hf;
    try discriminate Hf;
    try (rewrite !Bool.andb_false_r in Hf; discriminate Hf).
  apply Bool.andb_true_iff in Hf as [Ha Hf].
  apply Bool.andb_true_iff in Hf as [Hb _].
  apply digit_fit in Ha, Hb.
  unfold score_ok.
  digits_in Ha; digits_in Hb;
    (eexists; split; [vm_compute; reflexivity | split; vm_compute; reflexivity]).
Qed.

Lemma score_patterns_shaped pattern :
  In pattern score_patterns ->
  exists r, compile pattern = Some r
            /\ shaped IGNORECASE (fun _ t => score_ok pattern (str t)) r.
Proof.
  intro H. cbn in H.
  destruct H as [<- | [<- | [<- | [<- | [<- | [<- | []]]]]]];
    (eexists; split; [vm_compute; reflexivity|]); cbn [shaped atoms_of]; repeat split;
    intros t Hf;
    first [ apply decimal_score_ok; [reflexivity | reflexivity | exact Hf]
          | apply tenths_score_ok; exact Hf
          | apply percent_score_ok; exact Hf ].
Qed.

Lemma extract_score_with_bounds patterns text :
  (forall p, In p patterns -> In p score_patterns) ->
  PrimFloat.leb 0.0%float (extract_score_with patterns text) = true
  /\ PrimFloat.leb (extract_score_with patterns text) 9.9%float = true.
Proof.
  induction patterns as [|p rest IH]; intro Hsub; cbn [extract_score_with].
  - split; vm_compute; reflexivity.
  - assert (Hrest : forall q, In q rest -> In q score_patterns)
      by (intros q Hq; apply Hsub; right; exact Hq).
    destruct (search IGNORECASE p text) as [m|] eqn:Es; [|exact (IH Hrest)].
    destruct (group m 1) as [score_str|] eqn:Eg; [|exact (IH Hrest)].
    destruct (score_patterns_shaped p (Hsub p (or_introl eq_refl))) as (r & Hc & Hsh).
    destruct (group_shaped _ _ _ _ _ _ _ _ Hc Hsh Es Eg) as (t & -> & (v & Hv & Hlo & Hhi)).
    rewrite Hv. split; assumption.
Qed.

(** X12.  Whatever the narrative says, the extracted score lies between 0.0
    and 9.9; "compliance score: 9.9" reaches the upper end. *)
Theorem extract_score_bounds response_text :
  PrimFloat.leb 0.0%float (_extract_score response_text) = true
  /\ PrimFloat.leb (_extract_score response_text) 9.9%float = true
  /\ _extract_score "compliance score: 9.9" = 9.9%float.
Proof.
  destruct (extract_score_with_bounds score_patterns response_text (fun p H => H)) as [Hlo Hhi].
  split; [exact Hlo|]. split; [exact Hhi|]. vm_compute. reflexivity.
Qed.

(** *** Characters a pattern cannot do without *)

Lemma in_all_ascii c : In c all_ascii.
Proof.
  unfold all_ascii. rewrite <- (ascii_nat_embedding c).
  apply in_map, in_seq. pose proof (nat_ascii_bounded c). lia.
Qed.

Lemma Reps_consumes fl a : forall s bk bk' s',
  Reps fl a bk s bk' s' -> exists t, s = (t ++ s')%list /\ bk' = (rev t ++ bk)%list.
Proof.
  induction s as [|c s IH]; intros bk bk' s' H; cbn [Reps] in H.
  - destruct H as [[-> ->] | []]. exists []. split; reflexivity.
  - destruct H as [[-> ->] | [_ H]]; [exists []; split; reflexivity|].
    destruct (IH _ _ _ H) as (t & -> & ->). exists (c :: t). cbn [rev app].
    rewrite <- app_assoc. split; reflexivity.
Qed.

Section Demands.
Variable fl : flags.
Variable ok : ascii -> bool.

Lemma demanded_atom a c :
  forallb (fun c => implb (atom_ok fl a c) (ok c)) all_ascii = true ->
  atom_ok fl a c = true -> ok c = true.
Proof.
  intros H Ha. pose proof (proj1 (forallb_forall _ _) H c (in_all_ascii c)) as Hc.
  cbn beta in Hc. rewrite Ha in Hc. exact Hc.
Qed.

Lemma Mt_consumes r : forall bk s bk' s',
  Mt fl r bk s bk' s' ->
  exists t, s = (t ++ s')%list /\ bk' = (rev t ++ bk)%list
            /\ (demands fl ok r = true -> exists c, In c t /\ ok c = true).
Proof.
  induction r as [ | a | g least a | g r1 IH1 | r1 IH1 r2 IH2 | r1 IH1 r2 IH2
                 | m r1 IH1 | | | | r1 IH1 | wd r1 IH1 ];
    intros bk s bk' s' H; cbn [Mt] in H; cbn [demands].
  - destruct H as [-> ->]. exists []. repeat split. discriminate.
  - destruct H as (c & -> & Ha & ->). exists [c]. repeat split.
    intro Hd. exists c. split; [left; reflexivity | exact (demanded_atom a c Hd Ha)].
  - destruct least.
    + destruct H as (c & s1 & -> & Ha & H).
      apply Reps_consumes in H as (t & -> & ->). exists (c :: t). cbn [rev app].
      rewrite <- app_assoc. repeat split.
      intro Hd. exists c. split; [left; reflexivity | exact (demanded_atom a c Hd Ha)].
    + apply Reps_consumes in H as (t & -> & ->). exists t. repeat split. discriminate.
  - destruct H as [H | [-> ->]].
    + destruct (IH1 _ _ _ _ H) as (t & -> & -> & _). exists t. repeat split. discriminate.
    + exists []. repeat split. discriminate.
  - destruct H as (bk1 & s1 & H1 & H2).
    destruct (IH1 _ _ _ _ H1) as (t1 & -> & -> & D1).
    destruct (IH2 _ _ _ _ H2) as (t2 & -> & -> & D2).
    exists (t1 ++ t2)%list. rewrite rev_app_distr, <- !app_assoc. repeat split.
    intro Hd. apply Bool.orb_true_iff in Hd as [Hd | Hd].
    + destruct (D1 Hd) as (c & Hin & Hc). exists c. split; [apply in_or_app; left|]; assumption.
    + destruct (D2 Hd) as (c & Hin & Hc). exists c. split; [apply in_or_app; right|]; assumption.
  - destruct H as [H | H].
    + destruct (IH1 _ _ _ _ H) as (t & -> & -> & D). exists t. repeat split.
      intro Hd. apply Bool.andb_true_iff in Hd as [Hd _]. exact (D Hd).
    + destruct (IH2 _ _ _ _ H) as (t & -> & -> & D). exists t. repeat split.
      intro Hd. apply Bool.andb_true_iff in Hd as [_ Hd]. exact (D Hd).
  - destruct (IH1 _ _ _ _ H) as (t & -> & -> & D). exists t. repeat split. exact D.
  - destruct H as (_ & -> & ->). exists []. repeat split. discriminate.
  - destruct H as (_ & -> & ->). exists []. repeat split. discriminate.
  - destruct H as (_ & -> & ->). exists []. repeat split. discriminate.
  - destruct H as (_ & -> & ->). exists []. repeat split. discriminate.
  - destruct H as (_ & _ & -> & ->). exists []. repeat split. discriminate.
Qed.

Lemma found_demands r text :
  demands fl ok r = true -> found fl r text -> exists c, In c text /\ ok c = true.
Proof.
  intros Hd (pre & rest & bk' & s' & -> & H).
  destruct (Mt_consumes _ _ _ _ _ H) as (t & -> & _ & D).
  destruct (D Hd) as (c & Hin & Hc). exists c. split; [|exact Hc].
  apply in_or_app. right. apply in_or_app. left. exact Hin.
Qed.

Lemma search_demands pattern r text :
  compile pattern = Some r -> demands fl ok r = true ->
  forallb (fun c => negb (ok c)) (chars text) = true ->
  search fl pattern text = None.
Proof.
  intros Hc Hd Hno. destruct (search fl pattern text) as [m|] eqn:E; [|reflexivity].
  assert (Hm : matches fl pattern text = true) by (unfold matches; now rewrite E).
  apply matches_found in Hm as (r' & Hr & Hf). rewrite Hc in Hr. injection Hr as <-.
  destruct (found_demands r _ Hd Hf) as (c & Hin & Hok).
  pose proof (proj1 (forallb_forall _ _) Hno c Hin) as Hn. cbn beta in Hn.
  rewrite Hok in Hn. discriminate Hn.
Qed.

End Demands.

Lemma score_patterns_demand_digit pattern :
  In pattern score_patterns ->
  exists r, compile pattern = Some r /\ demands IGNORECASE is_digit r = true.
Proof.
  intro H. cbn in H.
  destruct H as [<- | [<- | [<- | [<- | [<- | [<- | []]]]]]];
    (eexists; split; [vm_compute; reflexivity | vm_compute; reflexivity]).
Qed.

Lemma extract_score_with_default patterns text :
  (forall p, In p patterns -> In p score_patterns) ->
  forallb (fun c => negb (is_digit c)) (chars text) = true ->
  extract_score_with patterns text = 0.5%float.
Proof.
  intros Hsub Hno. induction patterns as [|p rest IH]; cbn [extract_score_with].
  - reflexivity.
  - destruct (score_patterns_demand_digit p (Hsub p (or_introl eq_refl))) as (r & Hc & Hd).
    rewrite (search_demands IGNORECASE is_digit p r text Hc Hd Hno).
    apply IH. intros q Hq. apply Hsub. right. exact Hq.
Qed.

(** X13.  A narrative in which no digit occurs gets the default score 0.5. *)
Theorem no_digit_scores_default response_text :
  forallb (fun c => negb (is_digit c)) (chars response_text) = true ->
  _extract_score response_text = 0.5%float.
Proof. apply extract_score_with_default. intros p H. exact H. Qed.

Lemma no_digit_scores_default_witness :
  forallb (fun c => negb (is_digit c)) (chars "The system is fully compliant.") = true
  /\ _extract_score "The system is fully compliant." = 0.5%float.
Proof.
  assert (H : forallb (fun c => negb (is_digit c)) (chars "The system is fully compliant.")
              = true) by (vm_compute; reflexivity).
  split; [exact H | exact (no_digit_scores_default _ H)].
Defined.

(** *** Answers without a digit *)

Lemma lstrip_incl l c : In c (lstrip l) -> In c l.
Proof.
  induction l as [|d l IH]; cbn; [tauto|].
  destruct (is_space d); [intro H; right; exact (IH H) | tauto].
Qed.

Lemma strip_incl s c : In c (chars (strip s)) -> In c (chars s).
Proof.
  unfold strip. rewrite chars_str. intro H.
  apply in_rev, lstrip_incl, in_rev, lstrip_incl in H. exact H.
Qed.

Lemma strip_keeps_digit_free s :
  forallb (fun c => negb (is_digit c)) (chars s) = true ->
  forallb (fun c => negb (is_digit c)) (chars (strip s)) = true.
Proof.
  intro H. apply forallb_forall. intros c Hc.
  exact (proj1 (forallb_forall _ _) H c (strip_incl _ _ Hc)).
Qed.

Section Answers.
Context {W Exn : Type} (env : Collaborators W Exn).

Lemma analyze_category_answer user_docs category st (w : W) sc an w' :
  _analyze_category env user_docs category st w = Returns (sc, an) w' ->
  exists prompt w1 response,
    llm_invoke env prompt w1 = Returns response w' /\ a_analysis an = strip response.
Proof.
  unfold _analyze_category. intro H.
  apply bind_returns in H as (secs & w1 & _ & H).
  apply bind_returns in H as (tpl & w2 & _ & H).
  apply bind_returns in H as (prompt & w3 & _ & H).
  apply bind_returns in H as (resp & w4 & Hl & H).
  unfold ret in H. injection H as _ <- <-.
  exists prompt, w3, resp. split; [exact Hl | reflexivity].
Qed.

Lemma analyze_categories_answers user_docs st cats :
  forall total res (w : W) total' res' w',
  analyze_categories env user_docs st cats total res w = Returns (total', res') w' ->
  exists ans,
    List.length ans = List.length cats
    /\ Forall (fun a => exists prompt w1 response w2,
                 llm_invoke env prompt w1 = Returns response w2
                 /\ a_analysis a = strip response
                 /\ a_score a = _extract_score (a_analysis a)) ans
    /\ total' = fold_left PrimFloat.add (map a_score ans) total
    /\ category_scores res' =
       fold_left (fun d ca => dict_set (fst ca) (a_score (snd ca)) d)
                 (combine cats ans) (category_scores res).
Proof.
  induction cats as [|category rest IH]; intros total res w total' res' w' H.
  - cbn in H. unfold ret in H. injection H as <- <- _.
    exists []. repeat split. constructor.
  - cbn [analyze_categories] in H.
    apply bind_returns in H as ([sc an] & w1 & Hc & H).
    pose proof (analyze_category_answer _ _ _ _ _ _ _ Hc) as (prompt & wa & resp & Hl & Han).
    apply analyze_category_returns in Hc as (Hs & _ & _ & He).
    apply IH in H as (ans & Hlen & Hall & Ht & Hcs).
    exists (an :: ans). cbn [List.length map fold_left combine fst snd]. rewrite Hs.
    split; [now rewrite Hlen|].
    split; [constructor; [|exact Hall]|split; [exact Ht | exact Hcs]].
    exists prompt, wa, resp, w1. split; [exact Hl|]. split; [exact Han|]. now rewrite Hs.
Qed.

(** X14.  When no answer of the oracle holds a digit, a run that is not
    prohibited gives every category the default score 0.5, and 0.5 overall. *)
Theorem digit_free_answers_score_half user_docs name top_k (w : W) r w' :
  analyze_compliance env user_docs name top_k w = Returns r w' ->
  system_type r <> Some "prohibited" ->
  (forall prompt w1 response w2, llm_invoke env prompt w1 = Returns response w2 ->
     forallb (fun c => negb (is_digit c)) (chars response) = true) ->
  category_scores r = map (fun c => (c, 0.5%float)) categories
  /\ overall_score r = 0.5%float.
Proof.
  intros H Hty Hfree.
  destruct (category_run env _ _ _ _ _ _ H Hty) as (st & res & w1 & w2 & Hb & _ & Hcs & _).
  unfold category_branch in Hb.
  apply bind_returns in Hb as ([total res'] & wa & Hloop & Hb).
  apply bind_returns in Hb as (recs & wb & _ & Hb).
  unfold ret in Hb. injection Hb as <- _.
  apply analyze_categories_answers in Hloop as (ans & Hlen & Hall & Ht & Hsc).
  assert (Hhalf : Forall (fun a => a_score a = 0.5%float) ans).
  { eapply Forall_impl; [|exact Hall]. cbn beta.
    intros a (prompt & wc & resp & wd & Hl & Han & Hs).
    rewrite Hs, Han. unfold _extract_score.
    apply extract_score_with_default; [intros p Hp; exact Hp|].
    apply strip_keeps_digit_free.
    exact (Hfree _ _ _ _ Hl). }
  rewrite Hcs in Hsc. cbn [List.length categories] in Hlen.
  destruct ans as [|a1 [|a2 [|a3 [|a4 [|a5 [|a6 [|a7 ans]]]]]]]; try discriminate Hlen.
  repeat match goal with
         | Hx : Forall _ (_ :: _) |- _ => inversion Hx; subst; clear Hx
         end.
  cbn [category_scores overall_score set_recommendations set_compliance_gaps set_overall_score].
  split.
  - rewrite Hsc. cbn.
    repeat match goal with Hx : a_score _ = _ |- _ => rewrite Hx; clear Hx end.
    reflexivity.
  - cbn [map fold_left].
    repeat match goal with Hx : a_score _ = _ |- _ => rewrite Hx; clear Hx end.
    vm_compute. reflexivity.
Qed.

(** *** The type of a documentation without any indicator *)



End Answers.

Lemma digit_free_answers_score_half_witness :
  exists r w',
    analyze_compliance (constant "All requirements are met.") widget_docs "Widget" 5 tt
    = Returns r w'
    /\ system_type r <> Some "prohibited"
    /\ category_scores r = map (fun c => (c, 0.5%float)) categories
    /\ overall_score r = 0.5%float.
Proof.
  returned (analyze_compliance (constant "All requirements are met.") widget_docs "Widget" 5 tt)
           r w' H.
  exists r, w'. split; [exact H|].
  assert (Hty : system_type r <> Some "prohibited") by discriminate.
  split; [exact Hty|].
  refine (digit_free_answers_score_half _ widget_docs "Widget" 5 tt r w' H Hty _).
  intros prompt w1 response w2 E. cbn in E. injection E as <- _. vm_compute. reflexivity.
Defined.


(** *** A pre-check needs two indicators *)

Lemma indicator_score_found indicators t :
  indicator_score indicators t
  = fold_right Z.add 0%Z (map snd (found_indicators indicators t)).
Proof.
  unfold indicator_score, found_indicators.
  assert (G : forall acc,
    fold_left (fun score '(pattern, weight) =>
                 if matches NOFLAGS pattern t then (score + weight)%Z else score)
              indicators acc
    = (acc + fold_right Z.add 0%Z
               (map snd (filter (fun pw => matches NOFLAGS (fst pw) t) indicators)))%Z).
  { induction indicators as [|[p wt] l IH]; intro acc; cbn [fold_left filter fst].
    - cbn. lia.
    - rewrite IH. destruct (matches NOFLAGS p t); cbn [map fold_right snd]; lia. }
  rewrite G. lia.
Qed.

Lemma found_indicators_in indicators t p w :
  In (p, w) (found_indicators indicators t) -> In (p, w) indicators.
Proof. unfold found_indicators. intro H. apply filter_In in H as [H _]. exact H. Qed.

Lemma one_indicator_is_not_enough indicators t bound :
  (0 < bound)%Z ->
  forallb (fun pw => (snd pw <? bound)%Z) indicators = true ->
  (bound <=? indicator_score indicators t)%Z = true ->
  2 <= List.length (found_indicators indicators t).
Proof.
  intros Hb Hw Hs. apply Z.leb_le in Hs. rewrite indicator_score_found in Hs.
  pose proof (found_indicators_in indicators t) as Hin.
  destruct (found_indicators indicators t) as [|[p1 w1] [|[p2 w2] l]].
  - cbn in Hs. lia.
  - cbn in Hs. pose proof (proj1 (forallb_forall _ _) Hw _ (Hin p1 w1 (or_introl eq_refl))) as H1.
    cbn in H1. apply Z.ltb_lt in H1. lia.
  - cbn. lia.
Qed.

(** X16.  No pre-check of [_determine_system_type_improved] answers on the
    strength of a single indicator: when one of them returns a type, at least
    two indicators of its list are found in the text. *)
Theorem pre_check_needs_two_indicators text_lower st :
  pre_check text_lower = Some st ->
  exists indicators,
    In (st, indicators) pre_check_tables
    /\ 2 <= List.length (found_indicators indicators text_lower).
Proof.
  unfold pre_check, pre_check_tables.
  destruct (15 <=? indicator_score social_scoring_indicators text_lower)%Z eqn:E1.
  { intro H. injection H as <-. eexists. split; [left; reflexivity|].
    apply (one_indicator_is_not_enough _ _ 15); [lia | vm_compute; reflexivity | exact E1]. }
  destruct (10 <=? indicator_score limited_risk_indicators text_lower)%Z eqn:E2.
  { intro H. injection H as <-. eexists. split; [right; left; reflexivity|].
    apply (one_indicator_is_not_enough _ _ 10); [lia | vm_compute; reflexivity | exact E2]. }
  destruct (10 <=? indicator_score product_recommender_indicators text_lower)%Z eqn:E3.
  { intro H. injection H as <-. eexists. split; [right; right; left; reflexivity|].
    apply (one_indicator_is_not_enough _ _ 10); [lia | vm_compute; reflexivity | exact E3]. }
  destruct (10 <=? indicator_score high_risk_indicators text_lower)%Z eqn:E4.
  { intro H. injection H as <-. eexists. split; [right; right; right; left; reflexivity|].
    apply (one_indicator_is_not_enough _ _ 10); [lia | vm_compute; reflexivity | exact E4]. }
  discriminate.
Qed.

Lemma pre_check_needs_two_indicators_witness :
  pre_check (lower "Our chatbot closes every support ticket and answers each customer query.")
  = Some "limited-risk"
  /\ exists indicators,
       In ("limited-risk", indicators) pre_check_tables
       /\ 2 <= List.length
                 (found_indicators indicators
                    (lower "Our chatbot closes every support ticket and answers each customer query.")).
Proof.
  assert (H : pre_check
                (lower "Our chatbot closes every support ticket and answers each customer query.")
              = Some "limited-risk") by (vm_compute; reflexivity).
  split; [exact H | exact (pre_check_needs_two_indicators _ _ H)].
Defined.

(** *** The legacy classifier *)

Lemma lower_char_not_upper c : is_upper (lower_char c) = false.
Proof. destruct c as [[] [] [] [] [] [] [] []]; vm_compute; reflexivity. Qed.

Lemma lower_no_upper s c : In c (chars (lower s)) -> is_upper c = false.
Proof.
  unfold lower. rewrite chars_str. intro H. apply in_map_iff in H as (d & <- & _).
  apply lower_char_not_upper.
Qed.

Lemma legacy_text_no_upper user_docs c :
  In c (chars (legacy_text user_docs)) -> is_upper c = false.
Proof.
  unfold legacy_text. induction user_docs as [|d [|d2 l] IH].
  - cbn. tauto.
  - cbn [map join]. apply lower_no_upper.
  - change (join " " (map (fun chunk => lower (chunk_text chunk)) (d :: d2 :: l)))
      with (lower (chunk_text d) ++ " "
            ++ join " " (map (fun chunk => lower (chunk_text chunk)) (d2 :: l))).
    rewrite !chars_app. intro H.
    apply in_app_or in H as [H | H]; [exact (lower_no_upper _ _ H)|].
    apply in_app_or in H as [H | H]; [|exact (IH H)].
    cbn in H. destruct H as [<- | []]. reflexivity.
Qed.

Lemma contains_chars needle hay c :
  contains needle hay = true -> In c (chars needle) -> In c (chars hay).
Proof.
  unfold contains. intros H Hc. apply occurs_in_split in H as (a & b & ->).
  apply in_or_app. right. apply in_or_app. left. exact Hc.
Qed.

Lemma keyword_count_positive keywords text :
  Nat.ltb 0 (keyword_count keywords text) = true ->
  exists keyword, In keyword keywords /\ contains keyword text = true.
Proof.
  unfold keyword_count. intro H. apply Nat.ltb_lt in H.
  destruct (filter (fun keyword => contains keyword text) keywords) as [|k l] eqn:E;
    [cbn in H; lia|].
  assert (Hk : In k (filter (fun keyword => contains keyword text) keywords))
    by (rewrite E; left; reflexivity).
  apply filter_In in Hk. exists k. exact Hk.
Qed.

Lemma keyword_counted keywords text keyword :
  In keyword keywords -> contains keyword text = true ->
  Nat.ltb 0 (keyword_count keywords text) = true.
Proof.
  intros Hin Hc. apply Nat.ltb_lt. unfold keyword_count.
  assert (Hk : In keyword (filter (fun keyword => contains keyword text) keywords))
    by (apply filter_In; split; assumption).
  destruct (filter _ keywords); [contradiction | cbn; lia].
Qed.

(** X17.  The legacy classifier lowers the text before it looks for its
    keywords, so a keyword with a capital letter is never found; "limited-risk"
    is returned only for one of the six lower-case keywords of its list, the
    keywords "AI generated" and "AI companion" never counting. *)
Theorem capitalised_keywords_never_count user_docs :
  (forall keyword, existsb is_upper (chars keyword) = true ->
                   contains keyword (legacy_text user_docs) = false)
  /\ filter (fun keyword => existsb is_upper (chars keyword)) limited_risk_keywords
     = ["AI generated"; "AI companion"]
  /\ (_determine_system_type user_docs = "limited-risk" ->
      exists keyword,
        In keyword [ "chatbot"; "emotion recognition"; "deepfake"; "synthetic content";
                     "virtual assistant"; "virtual influencer" ]
        /\ contains keyword (legacy_text user_docs) = true).
Proof.
  assert (G : forall keyword, existsb is_upper (chars keyword) = true ->
                contains keyword (legacy_text user_docs) = false).
  { intros keyword Hup. destruct (contains keyword (legacy_text user_docs)) eqn:E; [|reflexivity].
    apply existsb_exists in Hup as (c & Hc & Hu).
    rewrite (legacy_text_no_upper _ _ (contains_chars _ _ _ E Hc)) in Hu. discriminate Hu. }
  split; [exact G|]. split; [vm_compute; reflexivity|].
  unfold _determine_system_type.
  destruct (Nat.ltb 0 (keyword_count prohibited_keywords _)); [discriminate|].
  destruct (Nat.ltb 0 (keyword_count high_risk_keywords _)); [discriminate|].
  destruct (Nat.ltb 0 (keyword_count general_purpose_keywords _)); [discriminate|].
  destruct (Nat.ltb 0 (keyword_count limited_risk_keywords _)) eqn:E; [|discriminate].
  intros _. apply keyword_count_positive in E as (keyword & Hin & Hc).
  exists keyword. split; [|exact Hc].
  cbn in Hin.
  destruct Hin as [<- | [<- | [<- | [<- | [<- | [<- | [<- | [<- | []]]]]]]]];
    try (cbn; tauto);
    rewrite G in Hc by (vm_compute; reflexivity); discriminate Hc.
Qed.

Lemma starts_with_app needle b : starts_with needle (needle ++ b)%list = true.
Proof.
  induction needle as [|c n IH]; cbn; [reflexivity|].
  rewrite Ascii.eqb_refl, IH. reflexivity.
Qed.

Lemma occurs_in_app needle a b : occurs_in needle (a ++ needle ++ b)%list = true.
Proof.
  induction a as [|c a IH].
  - cbn [app]. destruct (needle ++ b)%list eqn:E; cbn [occurs_in];
      rewrite <- E, starts_with_app; reflexivity.
  - cbn [app occurs_in]. rewrite IH. apply Bool.orb_true_r.
Qed.

Lemma contains_mono needle text before after :
  contains needle text = true -> contains needle (before ++ text ++ after) = true.
Proof.
  unfold contains. intro H. apply occurs_in_split in H as (a & b & E).
  rewrite !chars_app, E.
  replace (chars before ++ (a ++ chars needle ++ b) ++ chars after)%list
    with ((chars before ++ a) ++ chars needle ++ (b ++ chars after))%list
    by (now rewrite <- !app_assoc).
  apply occurs_in_app.
Qed.

Lemma legacy_text_chunk user_docs chunk :
  In chunk user_docs ->
  exists a b, legacy_text user_docs = a ++ lower (chunk_text chunk) ++ b.
Proof.
  intro H. apply in_split in H as (l1 & l2 & ->). unfold legacy_text.
  rewrite map_app. cbn [map].
  exact (join_middle " " (map (fun c => lower (chunk_text c)) l1)
           [lower (chunk_text chunk)] (map (fun c => lower (chunk_text c)) l2)).
Qed.

(** X18.  The legacy classifier answers "prohibited" as soon as one chunk holds
    one of its prohibited keywords, in any letter case, whatever else the
    documentation says. *)
Theorem legacy_prohibited_keyword_wins user_docs chunk keyword :
  In chunk user_docs ->
  In keyword prohibited_keywords ->
  contains keyword (lower (chunk_text chunk)) = true ->
  _determine_system_type user_docs = "prohibited".
Proof.
  intros Hc Hk Hin. destruct (legacy_text_chunk _ _ Hc) as (a & b & E).
  unfold _determine_system_type.
  rewrite (keyword_counted prohibited_keywords (legacy_text user_docs) keyword Hk);
    [reflexivity|].
  rewrite E. apply contains_mono. exact Hin.
Qed.

Lemma legacy_prohibited_keyword_wins_witness :
  _determine_system_type
    [doc "A chatbot for a bank."; doc "It relies on Subliminal cues."] = "prohibited".
Proof.
  refine (legacy_prohibited_keyword_wins _ (doc "It relies on Subliminal cues.") "subliminal"
            _ _ _).
  - right. left. reflexivity.
  - vm_compute. tauto.
  - vm_compute. reflexivity.
Defined.

Lemma capitalised_keywords_never_count_witness :
  _determine_system_type [doc "An AI companion made of AI generated text."] = "minimal-risk"
  /\ contains "AI companion" (legacy_text [doc "An AI companion made of AI generated text."])
     = false.
Proof.
  split; [vm_compute; reflexivity|].
  apply (proj1 (capitalised_keywords_never_count
                  [doc "An AI companion made of AI generated text."])).
  vm_compute. reflexivity.
Defined.

(** *** The file a run is saved to *)




(** *** The prompts *)

Section PromptCache.
Import ClassificationPrompts.
Context {L E : Type} (update_classification_prompts : L -> (E + list (string * string)) * L).
Context (P1 P2 P3 P4 : string).

Local Abbreviation get_prompts := (get_prompts L E update_classification_prompts P1 P2 P3 P4).
Local Abbreviation get_prompt := (get_prompt L E update_classification_prompts P1 P2 P3 P4).
Local Abbreviation defaults := (_get_default_prompts P1 P2 P3 P4).

Lemma get_prompts_cached w :
  _PROMPTS_CACHE L (snd (get_prompts w)) = Some (fst (get_prompts w)).
Proof.
  unfold ClassificationPrompts.get_prompts. destruct (_PROMPTS_CACHE L w) eqn:Ec; cbn [fst snd].
  - exact Ec.
  - destruct (update_classification_prompts (outside L w)) as [loaded out']. reflexivity.
Qed.

Lemma get_prompts_again w :
  get_prompts (snd (get_prompts w)) = (fst (get_prompts w), snd (get_prompts w)).
Proof.
  pose proof (get_prompts_cached w) as H.
  unfold ClassificationPrompts.get_prompts at 1. rewrite H. reflexivity.
Qed.

Lemma get_prompt_unfold name w :
  get_prompt name w
  = (match dict_get name (fst (get_prompts w)) with
     | Some prompt => prompt
     | None => default_of defaults name
     end, snd (get_prompts w)).
Proof.
  unfold ClassificationPrompts.get_prompt, default_of.
  destruct (get_prompts w) as [prompts w1]. cbn [fst snd].
  destruct (dict_get name prompts); reflexivity.
Qed.

(** X20.  The prompts are loaded at most once: after a first call of
    [get_prompt], a call for any name leaves the cache and everything outside
    as they are, and returns what the first load gave for that name. *)
Theorem prompts_are_loaded_once w first name :
  let w1 := snd (get_prompt first w) in
  get_prompt name w1 = (fst (get_prompt name w), w1)
  /\ exists prompts, _PROMPTS_CACHE L w1 = Some prompts.
Proof.
  cbv zeta. rewrite !get_prompt_unfold. cbn [fst snd].
  rewrite get_prompts_again. cbn [fst snd]. split; [reflexivity|].
  eexists. apply get_prompts_cached.
Qed.

(** X21.  When the loader raises or brings no prompt at all, [get_prompt] does
    not fail: it caches the built-in prompts and returns the built-in text
    for the name, the empty text for a name that has none. *)
Theorem failed_load_falls_back w name :
  _PROMPTS_CACHE L w = None ->
  (fst (update_classification_prompts (outside L w)) = inr []
   \/ exists e, fst (update_classification_prompts (outside L w)) = inl e) ->
  fst (get_prompt name w) = default_of defaults name
  /\ _PROMPTS_CACHE L (snd (get_prompt name w)) = Some defaults.
Proof.
  intros Hc Hl. rewrite get_prompt_unfold. cbn [fst snd].
  assert (Hp : fst (get_prompts w) = defaults).
  { unfold ClassificationPrompts.get_prompts. rewrite Hc.
    destruct (update_classification_prompts (outside L w)) as [loaded out']. cbn [fst] in Hl |- *.
    destruct Hl as [-> | [e ->]]; reflexivity. }
  rewrite get_prompts_cached, Hp. split; [|reflexivity].
  unfold default_of. destruct (dict_get name defaults); reflexivity.
Qed.

End PromptCache.

(** *** Saving *)

Section Saving.
Context {W Exn : Type} (env : Collaborators W Exn).

(** X22.  The results a run returns are the results it saved, under the file
    name made from the system name; nothing is returned when the write
    fails. *)
Theorem returned_results_were_saved user_docs name top_k (w : W) :
  (forall r w', analyze_compliance env user_docs name top_k w = Returns r w' ->
     exists w2, save_json env r (output_file name) w2 = Returns tt w')
  /\ ((forall results file w1, exists e, save_json env results file w1 = Raises e) ->
      exists e, analyze_compliance env user_docs name top_k w = Raises e).
Proof.
  assert (G : forall r w', analyze_compliance env user_docs name top_k w = Returns r w' ->
     exists w2, save_json env r (output_file name) w2 = Returns tt w').
  { intros r w' H. unfold analyze_compliance in H.
    apply bind_returns in H as (st0 & w1 & _ & H).
    destruct (override_pass st0 (lower (all_text_of user_docs))) as [st ev].
    apply bind_returns in H as (res & w2 & _ & H).
    apply bind_returns in H as ([] & w3 & Hs & H).
    unfold ret in H. injection H as <- <-. exists w2. exact Hs. }
  split; [exact G|].
  intro Hfail. destruct (analyze_compliance env user_docs name top_k w) as [r w' | e] eqn:E.
  - destruct (G r w' eq_refl) as (w2 & Hs).
    destruct (Hfail r (output_file name) w2) as (e & He). rewrite He in Hs. discriminate Hs.
  - exists e. reflexivity.
Qed.

End Saving.

(** *** The properties on concrete runs *)

Lemma system_type_is_one_of_five_witness :
  exists r w' st,
    analyze_compliance scripted clinic_docs "MediScan" 5 clinic_script = Returns r w'
    /\ system_type r = Some st /\ In st system_type_names.
Proof.
  returned (analyze_compliance scripted clinic_docs "MediScan" 5 clinic_script) r w' H.
  destruct (proj2 (system_type_is_one_of_five scripted clinic_docs "MediScan" 5 clinic_script)
              r w' H) as (st & Hty & Hin).
  exists r, w', st. split; [exact H|]. split; [exact Hty | exact Hin].
Defined.

Lemma no_result_without_oracle_witness :
  (forall prompt w1, exists e, llm_invoke silent prompt w1 = Raises e)
  /\ exists e, analyze_compliance silent widget_docs "Widget" 5 tt = Raises e.
Proof.
  assert (Hfail : forall prompt (w1 : unit), exists e, llm_invoke silent prompt w1 = Raises e)
    by (intros prompt w1; eexists; reflexivity).
  split; [exact Hfail|].
  exact (proj2 (no_result_without_oracle silent widget_docs "Widget" 5 tt) Hfail).
Defined.

Lemma scorecard_agrees_with_analysis_witness :
  exists r w',
    analyze_compliance scripted clinic_docs "MediScan" 5 clinic_script = Returns r w'
    /\ system_type r = Some "limited-risk"
    /\ map fst (detailed_analysis r) = categories
    /\ forall c a, In (c, a) (detailed_analysis r) ->
         a_category a = c
         /\ a_system_type a = "limited-risk"
         /\ a_score a = _extract_score (a_analysis a)
         /\ dict_get c (category_scores r) = Some (a_score a).
Proof.
  returned (analyze_compliance scripted clinic_docs "MediScan" 5 clinic_script) r w' H.
  exists r, w'. split; [exact H|].
  assert (Hty : system_type r = Some "limited-risk") by reflexivity.
  assert (Hst : "limited-risk" <> "prohibited") by discriminate.
  split; [exact Hty|].
  exact (scorecard_agrees_with_analysis scripted clinic_docs "MediScan" 5 clinic_script r w'
           "limited-risk" H Hty Hst).
Defined.

Lemma recommendations_follow_scores_witness :
  exists r w',
    analyze_compliance scripted clinic_docs "MediScan" 5 clinic_script = Returns r w'
    /\ system_type r <> Some "prohibited"
    /\ recommendations r <> []
    /\ forall rec, In rec (recommendations r) ->
         exists score,
           dict_get (r_category rec) (category_scores r) = Some score
           /\ PrimFloat.ltb score 0.7%float = true
           /\ r_priority rec = if PrimFloat.ltb score 0.3%float then "high" else "medium".
Proof.
  returned (analyze_compliance scripted clinic_docs "MediScan" 5 clinic_script) r w' H.
  exists r, w'. split; [exact H|].
  assert (Hty : system_type r <> Some "prohibited") by discriminate.
  split; [exact Hty|]. split; [discriminate|].
  exact (recommendations_follow_scores scripted clinic_docs "MediScan" 5 clinic_script r w'
           H Hty).
Defined.

Lemma no_low_score_no_gap_witness :
  exists r w',
    analyze_compliance (constant "There is a gap. Compliance score: 0.9") widget_docs
      "Widget" 5 tt = Returns r w'
    /\ system_type r <> Some "prohibited"
    /\ compliance_gaps r = [] /\ recommendations r = [].
Proof.
  returned (analyze_compliance (constant "There is a gap. Compliance score: 0.9") widget_docs
              "Widget" 5 tt) r w' H.
  exists r, w'. split; [exact H|].
  assert (Hty : system_type r <> Some "prohibited") by discriminate.
  split; [exact Hty|].
  refine (no_low_score_no_gap _ widget_docs "Widget" 5 tt r w' H Hty _).
  intros c score Hin. cbn in Hin.
  repeat (destruct Hin as [Hin | Hin]; [injection Hin as _ <-; vm_compute; reflexivity|]).
  contradiction.
Defined.

Lemma phrase_in_one_chunk_suffices_witness :
  exists r w',
    Main.analyze_compliance (constant "no")
      [("weather.pdf", widget_docs); ("scoring.pdf", scoring_docs)] "Suite" tt = Returns r w'
    /\ system_type r = Some "prohibited".
Proof.
  returned (Main.analyze_compliance (constant "no")
              [("weather.pdf", widget_docs); ("scoring.pdf", scoring_docs)] "Suite" tt) r w' H.
  exists r, w'. split; [exact H|].
  refine (phrase_in_one_chunk_suffices (constant "no") _ "Suite" tt "scoring.pdf" scoring_docs
            (doc "We operate a social credit system that assigns citizen scores used to restrict travel permissions")
            "social\s+credit\s+system" _ _ _ _ r w' H).
  - right. left. reflexivity.
  - left. reflexivity.
  - left. reflexivity.
  - vm_compute. reflexivity.
Defined.

Lemma literal_phrase_is_prohibited_witness :
  exists r w',
    analyze_compliance (constant "no") [doc "Our CitizenRank ledger."] "Ledger" 5 tt
    = Returns r w'
    /\ system_type r = Some "prohibited".
Proof.
  returned (analyze_compliance (constant "no") [doc "Our CitizenRank ledger."] "Ledger" 5 tt)
           r w' H.
  exists r, w'. split; [exact H|].
  refine (literal_phrase_is_prohibited (constant "no") _ "Ledger" 5 tt "citizenrank" _ _ r w' H).
  - right. right. left. reflexivity.
  - vm_compute. reflexivity.
Defined.

(** A loader that finds no file. *)
Lemma failed_load_falls_back_witness :
  fst (ClassificationPrompts.get_prompt unit string no_file "a" "b" "c" "d"
         "human_oversight" cold) = ""
  /\ fst (ClassificationPrompts.get_prompt unit string no_file "a" "b" "c" "d"
            "prohibited_manipulation" cold) = "c".
Proof.
  assert (Hc : ClassificationPrompts._PROMPTS_CACHE unit cold = None) by reflexivity.
  assert (Hl : fst (no_file (ClassificationPrompts.outside unit cold)) = inr []
               \/ exists e, fst (no_file (ClassificationPrompts.outside unit cold)) = inl e)
    by (right; eexists; reflexivity).
  split.
  - exact (proj1 (failed_load_falls_back no_file "a" "b" "c" "d" cold "human_oversight" Hc Hl)).
  - exact (proj1 (failed_load_falls_back no_file "a" "b" "c" "d" cold
                    "prohibited_manipulation" Hc Hl)).
Defined.

Lemma returned_results_were_saved_witness :
  (forall results file w1, exists e, save_json (read_only "no") results file w1 = Raises e)
  /\ exists e, analyze_compliance (read_only "no") widget_docs "Widget" 5 tt = Raises e.
Proof.
  assert (Hfail : forall results file (w1 : unit),
            exists e, save_json (read_only "no") results file w1 = Raises e)
    by (intros results file w1; eexists; reflexivity).
  split; [exact Hfail|].
  exact (proj2 (returned_results_were_saved (read_only "no") widget_docs "Widget" 5 tt) Hfail).
Defined.
